(** * Ordered deletion of manifests and namespace reconciliation (kots operator)

    Shallow embedding of [pkg/operator/client/manifest_delete.go]:
    the kind-order table, the scheduler that buckets resources per kind and
    computes the ordered kind sequence, the one-shot manifest delete path,
    the retrying namespace reconciler and the deletion of the volume claims of
    an application; of the grouping functions of package [types]; and of
    [Dedup] of package [kotsutil].

    Conventions of the embedding.
    - A Go [map[string]T] is a [gmap string T]; reading a missing key gives
      the zero value of [T].
    - A Go pointer that may be nil is an [option]; dereferencing nil panics,
      which is the [Panic] outcome.
    - A Go [error] is its message ([None] for nil).
    - Calls that leave the process (the dynamic client, the kubectl applier,
      [time.Sleep]) are operations of an abstract cluster and are recorded in
      a trace of events.  Calls to the logger are not modelled.
    - A [for ... range] loop is a [Fixpoint] over the list it ranges over,
      named after what it visits.  Whether its variable is one variable for
      the whole loop or a new one in every iteration depends on the toolchain;
      where the code keeps the address of a loop variable, the scoping is a
      parameter of the embedding ([Toolchain]).
    - A library call that panics on a nil argument has the [Panic] outcome
      in the interface of the library. *)

From stdpp Require Import base option list strings gmap sorting.
From Stdlib Require Import Ascii String ZArith Lia.

Set Warnings "-clear-no-such-hyp".

Local Open Scope string_scope.
Local Open Scope list_scope.

(** ** Outcomes *)

Inductive result (A : Type) : Type :=
  | Ok (a : A)
  | Panic.
Arguments Ok {A} a.
Arguments Panic {A}.

Definition rbind {A B} (x : result A) (f : A -> result B) : result B :=
  match x with
  | Ok a => f a
  | Panic => Panic
  end.

Definition error := string.

(** [errors.Wrap(err, msg)] and [errors.Wrapf]: the message is prefixed. *)
Definition wrapError (err : error) (msg : string) : error :=
  msg +:+ ": " +:+ err.

(** ** Data model *)

Definition KindSortOrder := list string.

Record KindOrder := {
  PreOrder : KindSortOrder;
  PostOrder : KindSortOrder;
}.

Definition defaultKindDeleteOrder : KindOrder := {|
  PreOrder := [
    "CustomResource"; "APIService"; "Ingress"; "Service"; "CronJob"; "Job";
    "StatefulSet"; "HorizontalPodAutoscaler"; "Deployment"; "ReplicaSet";
    "ReplicationController"; "Pod"; "DaemonSet"; "RoleBindingList";
    "RoleBinding"; "RoleList"; "Role"; "ClusterRoleBindingList";
    "ClusterRoleBinding"; "ClusterRoleList"; "ClusterRole" ];
  PostOrder := [
    "CustomResourceDefinition"; "PersistentVolumeClaim"; "PersistentVolume";
    "StorageClass"; "ConfigMap"; "SecretList"; "Secret"; "ServiceAccount";
    "PodDisruptionBudget"; "PodSecurityPolicy"; "LimitRange"; "ResourceQuota" ];
|}.

Record GroupVersionKind := {
  Group : string;
  Version : string;
  Kind : string;
}.

Record GroupVersionResource := {
  gvrGroup : string;
  gvrVersion : string;
  gvrResource : string;
}.

(** What [apiextensionsv1.CustomResourceDefinition] exposes to this file:
    [Spec.Group], [Spec.Names.Kind] and the names of [Spec.Versions]. *)
Record CustomResourceDefinition := {
  crdGroup : string;
  crdNamesKind : string;
  crdVersions : list string;
}.

(** An [unstructured.Unstructured] object, as seen through the accessors the
    file calls on it.  [objGroup]/[objVersion] are the two halves of
    [apiVersion]; [objCRD] is the outcome of
    [DefaultUnstructuredConverter.FromUnstructured] into a CRD value. *)
Record Unstructured := {
  objGroup : string;
  objVersion : string;
  objKind : string;
  objName : string;
  objNamespace : string;
  objLabels : gmap string string;
  objAnnotations : gmap string string;
  objDeletionTimestamp : option string;
  objCRD : CustomResourceDefinition + error;
}.

Definition GetKind (u : Unstructured) : string := objKind u.
Definition GetName (u : Unstructured) : string := objName u.
Definition GetNamespace (u : Unstructured) : string := objNamespace u.
Definition GetLabels (u : Unstructured) : gmap string string := objLabels u.
Definition GetAnnotations (u : Unstructured) : gmap string string := objAnnotations u.
Definition GetDeletionTimestamp (u : Unstructured) : option string := objDeletionTimestamp u.

Definition SetNamespace (u : Unstructured) (ns : string) : Unstructured := {|
  objGroup := objGroup u;
  objVersion := objVersion u;
  objKind := objKind u;
  objName := objName u;
  objNamespace := ns;
  objLabels := objLabels u;
  objAnnotations := objAnnotations u;
  objDeletionTimestamp := objDeletionTimestamp u;
  objCRD := objCRD u;
|}.

(** [u.GetObjectKind().GroupVersionKind()] *)
Definition GetGroupVersionKind (u : Unstructured) : GroupVersionKind :=
  {| Group := objGroup u; Version := objVersion u; Kind := objKind u |}.

Definition emptyGVR : GroupVersionResource :=
  {| gvrGroup := ""; gvrVersion := ""; gvrResource := "" |}.

Record resource := {
  Wait : bool;
  Manifest : string;
  GVR : GroupVersionResource;
  GVK : option GroupVersionKind;
  Obj : option Unstructured;   (* the field [Unstructured *unstructured.Unstructured] *)
}.

(** Reading a Go map at a key: the zero value when the key is absent. *)
Definition mapGet (m : gmap string string) (k : string) : string :=
  default "" (m !! k).

Definition bucket (m : gmap string (list resource)) (k : string) : list resource :=
  default [] (m !! k).

(** ** Kind ordering *)

Definition initResourceKindOrderMap (kindOrder : KindOrder) : gmap string (list resource) :=
  let resourceOrderMap :=
    foldl (fun m resourceType => <[resourceType := []]> m) ∅ (PreOrder kindOrder) in
  foldl (fun m resourceType => <[resourceType := []]> m) resourceOrderMap (PostOrder kindOrder).

(** The order of [sort.Strings]: byte-wise lexicographic. *)
Definition string_le (s1 s2 : string) : Prop := String.leb s1 s2 = true.

Global Instance string_le_dec (s1 s2 : string) : Decision (string_le s1 s2).
Proof. unfold string_le. apply _. Defined.

Definition sortStrings (l : list string) : list string := merge_sort string_le l.

Definition getOrderedKinds (kindOrder : KindOrder) (defaultKinds : KindSortOrder) : KindSortOrder :=
  PreOrder kindOrder ++ sortStrings defaultKinds ++ PostOrder kindOrder.

Definition buildGVKKey (group kind version : string) : string :=
  group +:+ "/" +:+ kind +:+ "/" +:+ version.

(** ** Scheduling a batch of decoded manifests *)

Definition shouldResourceWaitForDeletion (res : option Unstructured) (waitFlag : bool) : result bool :=
  match res with
  | None => Panic
  | Some u =>
      if decide (GetKind u = "PersistentVolumeClaim") then Ok false else Ok waitFlag
  end.

(** One CRD's contribution to the index. *)
Definition addCrdVersions (crd : CustomResourceDefinition) (crdGVKMap : gmap string bool) : gmap string bool :=
  foldl (fun m version => <[buildGVKKey (crdGroup crd) (crdNamesKind crd) version := true]> m)
        crdGVKMap (crdVersions crd).

(** The loop of [buildCrdGVKMap], started with the index built so far. *)
Fixpoint buildCrdGVKMapFrom (crdGVKMap : gmap string bool) (resources : list resource) : result (gmap string bool) :=
  match resources with
  | [] => Ok crdGVKMap
  | r :: rest =>
      match GVK r with
      | None => Panic
      | Some gvk =>
          if decide (Kind gvk = "CustomResourceDefinition") then
            match Obj r with
            | None => Panic
            | Some u =>
                match objCRD u with
                | inr _ => buildCrdGVKMapFrom crdGVKMap rest
                | inl crd => buildCrdGVKMapFrom (addCrdVersions crd crdGVKMap) rest
                end
            end
          else buildCrdGVKMapFrom crdGVKMap rest
      end
  end.

Definition buildCrdGVKMap (resources : list resource) : result (gmap string bool) :=
  buildCrdGVKMapFrom ∅ resources.

(** The loop state of [buildDeleteKindOrderedResources]: [defaultOrder] and
    [deleteOrderResourceMap]. *)
Definition schedState : Type := list string * gmap string (list resource).

Definition appendTo (m : gmap string (list resource)) (k : string) (r : resource) : gmap string (list resource) :=
  <[k := bucket m k ++ [r]]> m.

(** The default branch shared by both builders: a kind without a bucket is
    recorded in the default order and given an empty bucket first. *)
Definition addDefault (st : schedState) (k : string) (r : resource) : schedState :=
  let '(defaultOrder, m) := st in
  match m !! k with
  | Some _ => (defaultOrder, appendTo m k r)
  | None => (defaultOrder ++ [k], appendTo (<[k := []]> m) k r)
  end.

(** The body of the loop of [buildDeleteKindOrderedResources]. *)
Definition scheduleOne (defaultNS : string) (crdGVKMap : gmap string bool) (waitFlag : bool)
    (st : schedState) (r0 : resource) : result schedState :=
  rbind (shouldResourceWaitForDeletion (Obj r0) waitFlag) (fun wait =>
  match Obj r0 with
  | None => Panic
  | Some u0 =>
      let u := if decide (GetNamespace u0 = "") then SetNamespace u0 defaultNS else u0 in
      let r := {| Wait := wait; Manifest := Manifest r0; GVR := GVR r0;
                  GVK := GVK r0; Obj := Some u |} in
      match GVK r with
      | None => Ok (addDefault st "" r)
      | Some gvk =>
          let crdGVK := buildGVKKey (Group gvk) (Kind gvk) (Version gvk) in
          match crdGVKMap !! crdGVK with
          | Some _ =>
              let '(defaultOrder, m) := st in
              match m !! Kind gvk with
              | Some _ => Ok (defaultOrder, appendTo m (Kind gvk) r)
              | None => Ok (defaultOrder, appendTo m "CustomResource" r)
              end
          | None => Ok (addDefault st (Kind gvk) r)
          end
      end
  end).

(** The loop [for _, r := range resources] of
    [buildDeleteKindOrderedResources]. *)
Fixpoint scheduleAll (defaultNS : string) (crdGVKMap : gmap string bool) (waitFlag : bool)
    (resources : list resource) (st : schedState) : result schedState :=
  match resources with
  | [] => Ok st
  | r :: rest =>
      rbind (scheduleOne defaultNS crdGVKMap waitFlag st r)
            (scheduleAll defaultNS crdGVKMap waitFlag rest)
  end.

Definition buildDeleteKindOrderedResources (deleteKindOrder : KindOrder) (resources : list resource)
    (defaultNS : string) (crdGVKMap : gmap string bool) (waitFlag : bool)
    : result (gmap string (list resource) * KindSortOrder) :=
  rbind (scheduleAll defaultNS crdGVKMap waitFlag resources
                     ([], initResourceKindOrderMap deleteKindOrder))
        (fun '(defaultOrder, deleteOrderResourceMap) =>
           Ok (deleteOrderResourceMap, getOrderedKinds deleteKindOrder defaultOrder)).

(** ** The cluster and the trace of calls made to it *)

Inductive Event : Type :=
  | EvList (gvr : GroupVersionResource) (namespace : string)
  | EvDelete (gvr : GroupVersionResource) (namespace name : string)
  | EvSleep (seconds : Z)
  | EvRemove (namespace manifest : string) (wait : bool).

(** The collaborators reached through [dynamic.Interface], [applier.Kubectl]
    and [time.Sleep].  Every call may change the cluster: controllers run
    while the operator waits. *)
Class Cluster (W : Type) := {
  dynList : GroupVersionResource -> string -> W ->
            (option (list Unstructured) * option error) * W;
  dynDelete : GroupVersionResource -> string -> string -> W -> option error * W;
  timeSleep : Z -> W -> W;
  applierRemove : string -> string -> bool -> W -> (string * string * option error) * W;
}.

(** [metav1.LabelSelector], [labels.Selector] and the conversion between
    them belong to the Kubernetes libraries. *)
Class SelectorLib := {
  LabelSelector : Type;
  Selector : Type;
  LabelSelectorAsSelector : LabelSelector -> Selector + error;
  Matches : Selector -> gmap string string -> bool;
}.

(** The three library calls made by [decodeToUnstructured].
    [ToUnstructured] may panic: it is handed whatever object the serializer
    returned, nil included. *)
Class DecoderLib := {
  RawExtension : Type;
  RuntimeObject : Type;
  yamlDecode : string -> RawExtension + error;
  serializerDecode : RawExtension ->
                     option RuntimeObject * option GroupVersionKind * option error;
  toUnstructured : option RuntimeObject -> result (Unstructured + error);
}.

(** Computations over the cluster: an outcome, the cluster afterwards and
    the calls made, oldest first. *)
Definition M (W A : Type) : Type := W -> result A * W * list Event.

Definition ret {W A} (a : A) : M W A := fun w => (Ok a, w, []).

Definition bind {W A B} (m : M W A) (f : A -> M W B) : M W B :=
  fun w =>
    match m w with
    | (Ok a, w1, t1) => let '(b, w2, t2) := f a w1 in (b, w2, t1 ++ t2)
    | (Panic, w1, t1) => (Panic, w1, t1)
    end.

Definition panic {W A} : M W A := fun w => (Panic, w, []).

Definition lift {W A} (x : result A) : M W A :=
  match x with
  | Ok a => ret a
  | Panic => panic
  end.

Notation "'let*' x ':=' m 'in' k" := (bind m (fun x => k))
  (at level 10, x name, m at level 100, k at level 200).

Definition outcome {W A} (x : result A * W * list Event) : result A := x.1.1.
Definition final {W A} (x : result A * W * list Event) : W := x.1.2.
Definition trace {W A} (x : result A * W * list Event) : list Event := x.2.

Section Operations.
Context {W : Type} `{!Cluster W}.

Definition doList (gvr : GroupVersionResource) (namespace : string)
    : M W (option (list Unstructured) * option error) :=
  fun w => let '(reply, w') := dynList gvr namespace w in
           (Ok reply, w', [EvList gvr namespace]).

Definition doDelete (gvr : GroupVersionResource) (namespace name : string)
    : M W (option error) :=
  fun w => let '(err, w') := dynDelete gvr namespace name w in
           (Ok err, w', [EvDelete gvr namespace name]).

Definition doSleep (seconds : Z) : M W unit :=
  fun w => (Ok tt, timeSleep seconds w, [EvSleep seconds]).

Definition doRemove (namespace manifest : string) (wait : bool)
    : M W (string * string * option error) :=
  fun w => let '(reply, w') := applierRemove namespace manifest wait w in
           (Ok reply, w', [EvRemove namespace manifest wait]).

(** *** The manifest delete path *)

Section Decode.
Context `{!DecoderLib}.

(** The error of the serializer is overwritten unread: its object goes to
    [ToUnstructured] as it is. *)
Definition decodeToUnstructured (manifest : string)
    : result (option Unstructured * option GroupVersionKind * option error) :=
  match yamlDecode manifest with
  | inr err => Ok (None, None, Some (wrapError err "error decoding yaml"))
  | inl rawObj =>
      let '(obj, gvk, _) := serializerDecode rawObj in
      rbind (toUnstructured obj) (fun converted =>
        match converted with
        | inr err => Ok (None, None, Some (wrapError err "error converting to unstructured"))
        | inl u => Ok (Some u, gvk, None)
        end)
  end.

(** The loop [for _, manifest := range manifests] of [decodeManifests]. *)
Fixpoint decodeManifests (manifests : list string) : result (list resource) :=
  match manifests with
  | [] => Ok []
  | manifest :: rest =>
      rbind (decodeToUnstructured manifest) (fun '(obj, gvk, _) =>
      rbind (decodeManifests rest) (fun resources =>
      Ok ({| Wait := false; Manifest := manifest; GVR := emptyGVR;
             GVK := gvk; Obj := obj |} :: resources)))
  end.
End Decode.

Definition deleteManifestResource (res : resource) (targetNS : string) : M W unit :=
  let* namespace := lift (match GVK res with
                          | None => Ok targetNS
                          | Some _ =>
                              match Obj res with
                              | None => Panic
                              | Some u => Ok (GetNamespace u)
                              end
                          end) in
  let* _ := doRemove namespace (Manifest res) (Wait res) in
  ret tt.

(** The two nested loops of [deleteManifestResources]. *)
Fixpoint deleteEach (rs : list resource) (targetNS : string) : M W unit :=
  match rs with
  | [] => ret tt
  | r :: rest =>
      let* _ := deleteManifestResource r targetNS in
      deleteEach rest targetNS
  end.

Fixpoint deleteKinds (kinds : KindSortOrder) (m : gmap string (list resource))
    (targetNS : string) : M W unit :=
  match kinds with
  | [] => ret tt
  | kind :: rest =>
      let* _ := deleteEach (bucket m kind) targetNS in
      deleteKinds rest m targetNS
  end.

Definition deleteManifestResources `{!DecoderLib} (manifests : list string) (targetNS : string)
    (kindDeleteOrder : KindOrder) (waitFlag : bool) : M W unit :=
  let* resources := lift (decodeManifests manifests) in
  let* crdGVKMap := lift (buildCrdGVKMap resources) in
  let* built := lift (buildDeleteKindOrderedResources kindDeleteOrder resources targetNS
                                                      crdGVKMap waitFlag) in
  deleteKinds built.2 built.1 targetNS.
End Operations.

(** ** Namespace reconciliation *)

(** The API endpoints [clearNamespaces] never lists. *)
Definition skip : list string := [
  "/v1/bindings";
  "/v1/events";
  "extensions/v1beta1/replicationcontrollers";
  "apps/v1/controllerrevisions";
  "authentication.k8s.io/v1/tokenreviews";
  "authorization.k8s.io/v1/localsubjectaccessreviews";
  "authorization.k8s.io/v1/subjectaccessreviews";
  "authorization.k8s.io/v1/selfsubjectaccessreviews";
  "authorization.k8s.io/v1/selfsubjectrulesreviews" ].

Definition gvrString (gvr : GroupVersionResource) : string :=
  gvrGroup gvr +:+ "/" +:+ gvrVersion gvr +:+ "/" +:+ gvrResource gvr.

(** [gvrs] is a Go map used as a set; the list is the order in which the
    runtime happens to range over it. *)
Definition deletionGVRsOf (gvrs : list GroupVersionResource) : list GroupVersionResource :=
  filter (fun gvr => gvrString gvr ∉ skip) gvrs.

Definition newline : string := String (ascii_of_nat 10) EmptyString.

(** [fmt.Errorf("Failed to clear app %s from namespace %s\n", ...)] *)
Definition failedToClear (appSlug namespace : string) : error :=
  "Failed to clear app " +:+ appSlug +:+ " from namespace " +:+ namespace +:+ newline.

(** How one pass through the body of the retry loop leaves it. *)
Inductive loopExit : Type :=
  | Break
  | Return (err : error).

(** How the toolchain that builds the package scopes the variable of a
    [for ... range] clause: one variable for the whole loop, as the language
    has it before Go 1.22, or a new variable in every iteration, as it has it
    from Go 1.22 on.  The package comes without a [go.mod], so both are
    possible. *)
Inductive rangeVariable : Type :=
  | PerLoop
  | PerIteration.

Class Toolchain := { rangeVariables : rangeVariable }.

(** What the body of the item loop decides for one listed object. *)
Inductive verdict : Type :=
  | Skipped
  | Selected
  | Failed (err : error).

Section Reconcile.
Context {W : Type} `{!Cluster W} `{!SelectorLib} {go : Toolchain}.

(** The restore-mode gate at the top of the item loop. *)
Definition restoreGate (isRestore : bool) (restoreLabelSelector : option LabelSelector)
    (u : Unstructured) : verdict :=
  if isRestore then
    let labels := GetLabels u in
    if decide (labels !! "velero.io/exclude-from-backup" = Some "true") then Skipped
    else
      match restoreLabelSelector with
      | None => Selected
      | Some sel =>
          match LabelSelectorAsSelector sel with
          | inr err => Failed (wrapError err "failed to convert label selector to a selector")
          | inl s => if Matches s labels then Selected else Skipped
          end
      end
  else Selected.

(** The tests of the item loop, in the order the loop makes them. *)
Definition itemVerdict (appSlug : string) (isRestore : bool)
    (restoreLabelSelector : option LabelSelector) (u : Unstructured) : verdict :=
  match restoreGate isRestore restoreLabelSelector u with
  | Selected =>
      if decide (mapGet (GetAnnotations u) "kots.io/app-slug" = appSlug) then
        match GetDeletionTimestamp u with
        | Some _ => Skipped
        | None => Selected
        end
      else Skipped
  | v => v
  end.

(** The object that the pointer [&u], taken in the iteration that visits
    the item [u], designates once the loop over [items] has ended.  With a
    variable per iteration the pointer keeps that item.  With one variable per
    loop every [&u] taken in the loop is the same pointer, and when the loop
    ends the variable holds the item assigned last, the last of [items],
    selected or not.  The pointers are followed after the list pass only, by
    [clearNamespacedResources]. *)
Definition pointee (items : list Unstructured) (u : Unstructured) : Unstructured :=
  match rangeVariables with
  | PerIteration => u
  | PerLoop => default u (last items)
  end.

(** The resource built for the selected object [u] of [items].  [gvk] is
    declared in the body of the loop and [gvr] is copied into the resource,
    so these two are those of the iteration under either scoping. *)
Definition liveResource (gvr : GroupVersionResource) (items : list Unstructured)
    (u : Unstructured) : resource :=
  {| Wait := false; Manifest := ""; GVR := gvr;
     GVK := Some (GetGroupVersionKind u); Obj := Some (pointee items u) |}.

(** The loop [for _, u := range unstructuredList.Items], at the items
    [items] still to visit of the list [ranged]. *)
Fixpoint visitItems (appSlug : string) (isRestore : bool)
    (restoreLabelSelector : option LabelSelector) (gvr : GroupVersionResource)
    (ranged items : list Unstructured) (st : schedState) : schedState + error :=
  match items with
  | [] => inl st
  | u :: rest =>
      match itemVerdict appSlug isRestore restoreLabelSelector u with
      | Failed err => inr err
      | Skipped => visitItems appSlug isRestore restoreLabelSelector gvr ranged rest st
      | Selected =>
          visitItems appSlug isRestore restoreLabelSelector gvr ranged rest
                     (addDefault st (GetKind u) (liveResource gvr ranged u))
      end
  end.

(** The loop [for _, gvr := range gvrs] of
    [buildDeleteKindOrderedNamespaceResources]. *)
Fixpoint listAll (gvrs : list GroupVersionResource) (appSlug namespace : string)
    (isRestore : bool) (restoreLabelSelector : option LabelSelector)
    (st : schedState) : M W (schedState + error) :=
  match gvrs with
  | [] => ret (inl st)
  | gvr :: rest =>
      let* reply := doList gvr namespace in
      match reply.1 with
      | None => listAll rest appSlug namespace isRestore restoreLabelSelector st
      | Some items =>
          match visitItems appSlug isRestore restoreLabelSelector gvr items items st with
          | inr err => ret (inr err)
          | inl st' => listAll rest appSlug namespace isRestore restoreLabelSelector st'
          end
      end
  end.

Definition buildDeleteKindOrderedNamespaceResources (gvrs : list GroupVersionResource)
    (appSlug namespace : string) (isRestore : bool)
    (restoreLabelSelector : option LabelSelector) (deleteKindOrder : KindOrder)
    : M W (gmap string (list resource) * KindSortOrder + error) :=
  let* r := listAll gvrs appSlug namespace isRestore restoreLabelSelector
                    ([], initResourceKindOrderMap deleteKindOrder) in
  match r with
  | inr err => ret (inr err)
  | inl (defaultKindOrder, deleteOrdererResourceMap) =>
      ret (inl (deleteOrdererResourceMap, getOrderedKinds deleteKindOrder defaultKindOrder))
  end.

(** The inner loop of [clearNamespacedResources], over one bucket. *)
Fixpoint clearEach (namespace : string) (rs : list resource) : M W (option error) :=
  match rs with
  | [] => ret None
  | r :: rest =>
      match Obj r with
      | None => panic
      | Some u =>
          let* err := doDelete (GVR r) namespace (GetName u) in
          match err with
          | Some e => ret (Some e)
          | None => clearEach namespace rest
          end
      end
  end.

Fixpoint clearNamespacedResources (namespace : string)
    (resourcesMap : gmap string (list resource)) (deleteKindOrders : KindSortOrder)
    : M W (option error) :=
  match deleteKindOrders with
  | [] => ret None
  | kind :: rest =>
      let* err := clearEach namespace (bucket resourcesMap kind) in
      match err with
      | Some e => ret (Some e)
      | None => clearNamespacedResources namespace resourcesMap rest
      end
  end.

(** The loop [for i := 60; i >= 0; i--] of [clearNamespaces], entered
    with counter [i]. *)
Fixpoint retryLoop (i : nat) (appSlug namespace : string) (isRestore : bool)
    (restoreLabelSelector : option LabelSelector) (kindDeleteOrder : KindOrder)
    (deletionGVRs : list GroupVersionResource) : M W loopExit :=
  let* listed := buildDeleteKindOrderedNamespaceResources deletionGVRs appSlug namespace
                   isRestore restoreLabelSelector kindDeleteOrder in
  match listed with
  | inr _ => ret Break
  | inl (resourcesToDelete, deleteOrderedKinds) =>
      if decide (size resourcesToDelete = 0) then ret Break
      else
        let* err := clearNamespacedResources namespace resourcesToDelete deleteOrderedKinds in
        match err with
        | None => ret Break
        | Some _ =>
            match i with
            | O => ret (Return (failedToClear appSlug namespace))
            | S i' =>
                let* _ := doSleep 2 in
                retryLoop i' appSlug namespace isRestore restoreLabelSelector
                          kindDeleteOrder deletionGVRs
            end
        end
  end.

(** The loop [for _, namespace := range namespacesToClear]. *)
Fixpoint clearEachNamespace (appSlug : string) (namespaces : list string) (isRestore : bool)
    (restoreLabelSelector : option LabelSelector) (kindDeleteOrder : KindOrder)
    (deletionGVRs : list GroupVersionResource) : M W (option error) :=
  match namespaces with
  | [] => ret None
  | namespace :: rest =>
      let* exit := retryLoop 60 appSlug namespace isRestore restoreLabelSelector
                             kindDeleteOrder deletionGVRs in
      match exit with
      | Return err => ret (Some err)
      | Break => clearEachNamespace appSlug rest isRestore restoreLabelSelector
                                    kindDeleteOrder deletionGVRs
      end
  end.

Definition clearNamespaces (appSlug : string) (namespacesToClear : list string)
    (isRestore : bool) (restoreLabelSelector : option LabelSelector)
    (kindDeleteOrder : KindOrder) (gvrs : list GroupVersionResource) : M W (option error) :=
  let deletionGVRs := deletionGVRsOf gvrs in
  let* err := clearEachNamespace appSlug namespacesToClear isRestore restoreLabelSelector
                                 kindDeleteOrder deletionGVRs in
  match err with
  | Some e => ret (Some e)
  | None =>
      if decide (0 < List.length namespacesToClear)%nat then
        let* _ := doSleep 20 in ret None
      else ret None
  end.
End Reconcile.

(** ** Deleting the volume claims of an application *)

(** [metav1.LabelSelector].  [MatchLabels] is a Go map: nil in a selector
    that was built without it. *)
Record LabelSelectorRequirement := {
  reqKey : string;
  reqOperator : string;
  reqValues : list string;
}.

Record metaLabelSelector := {
  selMatchLabels : option (gmap string string);
  selMatchExpressions : list LabelSelectorRequirement;
}.

(** What [deletePVCs] reads of a pod: for each volume of [Spec.Volumes] the
    field [PersistentVolumeClaim], nil for a volume of another source, and
    its [ClaimName]. *)
Record Volume := {
  volumeName : string;
  PersistentVolumeClaim : option string;
}.

Record Pod := {
  podName : string;
  podVolumes : list Volume;
}.

(** The calls made through [kubernetes.Interface]. *)
Inductive ClientCall : Type :=
  | CallListPods (namespace labelSelector : string)
  | CallDeleteClaim (namespace name : string) (gracePeriodSeconds : Z)
                    (propagationPolicy : string).

(** The typed client, [kuberneteserrors.IsNotFound], and the function
    [getLabelSelector] of the package, which renders a selector as the
    string of a list request. *)
Class Clientset (C : Type) := {
  podsList : string -> string -> C -> (list Pod + error) * C;
  claimsDelete : string -> string -> Z -> string -> C -> option error * C;
  IsNotFound : error -> bool;
  getLabelSelector : metaLabelSelector -> string;
}.

Section Claims.
Context {C : Type} `{!Clientset C}.

(** The two nested loops that collect the claim names. *)
Definition claimsOfPod (pod : Pod) : list string :=
  omap PersistentVolumeClaim (podVolumes pod).

Definition claimsOf (pods : list Pod) : list string :=
  pods ≫= claimsOfPod.

(** The loop [for _, pvc := range pvcs]. *)
Fixpoint deleteClaims (namespace : string) (pvcs : list string) (c : C)
    : option error * C * list ClientCall :=
  match pvcs with
  | [] => (None, c, [])
  | pvc :: rest =>
      let '(err, c1) := claimsDelete namespace pvc 0 "Background" c in
      let call := CallDeleteClaim namespace pvc 0 "Background" in
      let continue := let '(r, c2, calls) := deleteClaims namespace rest c1 in
                      (r, c2, call :: calls) in
      match err with
      | Some e =>
          if IsNotFound e then continue
          else (Some (wrapError e ("failed to delete pvc " +:+ pvc)), c1, [call])
      | None => continue
      end
  end.

(** [deletePVCs] returns its outcome, the caller's selector as the call
    leaves it (the label is written into the caller's map), the cluster and
    the calls made. *)
Definition deletePVCs (namespace : string) (appLabelSelector : option metaLabelSelector)
    (appslug : string) (c : C)
    : result (option error) * option metaLabelSelector * C * list ClientCall :=
  let selector := match appLabelSelector with
                  | None => {| selMatchLabels := Some ∅; selMatchExpressions := [] |}
                  | Some s => s
                  end in
  match selMatchLabels selector with
  | None => (Panic, appLabelSelector, c, [])
  | Some labels =>
      let selector := {| selMatchLabels := Some (<["kots.io/app-slug" := appslug]> labels);
                         selMatchExpressions := selMatchExpressions selector |} in
      let callerSelector := match appLabelSelector with
                            | None => None
                            | Some _ => Some selector
                            end in
      let labelSelector := getLabelSelector selector in
      let '(reply, c1) := podsList namespace labelSelector c in
      let list := CallListPods namespace labelSelector in
      match reply with
      | inr err =>
          (Ok (Some (wrapError err "failed to get list of app pods")), callerSelector, c1, [list])
      | inl pods =>
          let pvcs := claimsOf pods in
          if decide (List.length pvcs = 0%nat) then (Ok None, callerSelector, c1, [list])
          else
            let '(err, c2, calls) := deleteClaims namespace pvcs c1 in
            (Ok err, callerSelector, c2, list :: calls)
      end
  end.
End Claims.

(** ** Grouping resources (package [types]) *)

Module Types.

(** An unstructured object as the grouping functions see it:
    [GetAnnotations] returns a nil map for an object without annotations. *)
Record Unstructured := {
  GetAnnotations : option (gmap string string);
}.

Record Resource := {
  Manifest : string;
  GVR : GroupVersionResource;
  GVK : option GroupVersionKind;
  Object : option Unstructured;   (* the field [Unstructured] *)
}.

Definition Resources := list Resource.

Definition GroupByDeletionWeight (r : Resources) : gmap string Resources :=
  foldl (fun grouped resource =>
           let weight :=
             match Object resource with
             | Some u =>
                 match GetAnnotations u with
                 | Some annotations => mapGet annotations "kots.io/deletion-weight"
                 | None => "0"
                 end
             | None => "0"
             end in
           <[weight := default [] (grouped !! weight) ++ [resource]]> grouped)
        ∅ r.

Definition GroupByCreationWeight (r : Resources) : gmap string Resources :=
  foldl (fun grouped resource =>
           let weight :=
             match Object resource with
             | Some u =>
                 match GetAnnotations u with
                 | Some annotations => mapGet annotations "kots.io/creation-weight"
                 | None => "0"
                 end
             | None => "0"
             end in
           <[weight := default [] (grouped !! weight) ++ [resource]]> grouped)
        ∅ r.

Definition GroupByKind (r : Resources) : gmap string Resources :=
  foldl (fun grouped resource =>
           let kind :=
             match GVK resource with
             | Some gvk => Kind gvk
             | None => ""
             end in
           <[kind := default [] (grouped !! kind) ++ [resource]]> grouped)
        ∅ r.

End Types.

(** ** Removing duplicates (package [kotsutil]) *)

Section Dedup.
Context {T : Type}.
(** [json.Marshal], with the bytes read as a string. *)
Variable jsonMarshal : T → string + error.

(** The loop of [Dedup], with the map [seen] and the slice [out]. *)
Fixpoint dedupLoop (objs : list T) (seen : gmap string bool) (out : list T) : list T :=
  match objs with
  | [] => out
  | o :: rest =>
      match jsonMarshal o with
      | inr _ => dedupLoop rest seen (out ++ [o])
      | inl key =>
          match seen !! key with
          | None => dedupLoop rest (<[key := true]> seen) (out ++ [o])
          | Some _ => dedupLoop rest seen out
          end
      end
  end.

Definition Dedup (objs : list T) : list T :=
  if decide (List.length objs = 0%nat) then objs else dedupLoop objs ∅ [].
End Dedup.

(** ** Concrete collaborators used in the examples *)

Global Instance GroupVersionResource_eq_dec : EqDecision GroupVersionResource.
Proof. solve_decision. Defined.

Module Fixtures.

(** A small cluster: the live objects with the endpoint that lists them,
    the object names whose deletion the API server refuses, the names a
    finalizer keeps listed after an accepted delete, the endpoints that
    cannot be listed and the manifests [kubectl delete] fails on. *)
Record TestCluster := {
  objects : list (GroupVersionResource * Unstructured);
  refused : list string;
  finalized : list string;
  unlistable : list GroupVersionResource;
  unremovable : list string;
}.

Definition listed (gvr : GroupVersionResource) (namespace : string) (c : TestCluster)
    : list Unstructured :=
  (filter (fun o => o.1 = gvr ∧ GetNamespace o.2 = namespace) (objects c)).*2.

Definition without (gvr : GroupVersionResource) (namespace name : string) (c : TestCluster)
    : TestCluster :=
  {| objects := filter (fun o => ¬ (o.1 = gvr ∧ GetNamespace o.2 = namespace
                                    ∧ GetName o.2 = name ∧ name ∉ finalized c))
                       (objects c);
     refused := refused c; finalized := finalized c;
     unlistable := unlistable c; unremovable := unremovable c |}.

Global Instance testCluster : Cluster TestCluster := {|
  dynList gvr namespace c :=
    if decide (gvr ∈ unlistable c)
    then ((None, Some "the server could not find the requested resource"), c)
    else ((Some (listed gvr namespace c), None), c);
  dynDelete gvr namespace name c :=
    if decide (name ∈ refused c) then (Some "forbidden", c)
    else if decide (name ∈ GetName <$> listed gvr namespace c)
         then (None, without gvr namespace name c)
         else (Some "not found", c);
  timeSleep _ c := c;
  applierRemove namespace manifest wait c :=
    if decide (manifest ∈ unremovable c)
    then (("", "error: unable to delete", Some "exit status 1"), c)
    else (("deleted", "", None), c);
|}.

(** Label selectors: either a set of required labels or an expression
    with an operator the conversion rejects. *)
Inductive testSelector : Type :=
  | MatchLabels (required : gmap string string)
  | MatchOperator (operator : string).

Global Instance testSelectors : SelectorLib := {|
  LabelSelector := testSelector;
  Selector := gmap string string;
  LabelSelectorAsSelector sel :=
    match sel with
    | MatchLabels required => inl required
    | MatchOperator operator => inr (operator +:+ " is not a valid label selector operator")
    end;
  Matches s labels := bool_decide (map_Forall (fun k v => labels !! k = Some v) s);
|}.

(** The two ways a toolchain scopes range variables. *)
Definition perLoop : Toolchain := {| rangeVariables := PerLoop |}.
Definition perIteration : Toolchain := {| rangeVariables := PerIteration |}.

Definition podsGVR : GroupVersionResource :=
  {| gvrGroup := ""; gvrVersion := "v1"; gvrResource := "pods" |}.
Definition configMapsGVR : GroupVersionResource :=
  {| gvrGroup := ""; gvrVersion := "v1"; gvrResource := "configmaps" |}.
Definition secretsGVR : GroupVersionResource :=
  {| gvrGroup := ""; gvrVersion := "v1"; gvrResource := "secrets" |}.
Definition eventsGVR : GroupVersionResource :=
  {| gvrGroup := ""; gvrVersion := "v1"; gvrResource := "events" |}.

Definition object (group version kind name : string) (annotations labels : gmap string string)
    : Unstructured :=
  {| objGroup := group; objVersion := version; objKind := kind; objName := name;
     objNamespace := "demo"; objLabels := labels; objAnnotations := annotations;
     objDeletionTimestamp := None;
     objCRD := inr "json: cannot unmarshal into CustomResourceDefinition" |}.

Definition ownedBy (appSlug : string) : gmap string string :=
  {[ "kots.io/app-slug" := appSlug ]}.

Definition pod (name : string) : Unstructured :=
  object "" "v1" "Pod" name (ownedBy "my-app") ∅.
Definition configMap (name : string) : Unstructured :=
  object "" "v1" "ConfigMap" name (ownedBy "my-app") ∅.
Definition secret (name : string) : Unstructured :=
  object "" "v1" "Secret" name (ownedBy "my-app") ∅.

(** A pod without annotations. *)
Definition plain : Unstructured := object "" "v1" "Pod" "plain" ∅ ∅.

(** Three objects owned by [my-app]; every delete is accepted. *)
Definition threeOwned : TestCluster :=
  {| objects := [(podsGVR, pod "web"); (podsGVR, pod "worker");
                 (configMapsGVR, configMap "settings")];
     refused := []; finalized := []; unlistable := []; unremovable := [] |}.


(** An owned pod next to a pod of another application and a pod without
    the annotation. *)
Definition mixed : TestCluster :=
  {| objects := [(podsGVR, pod "web");
                 (podsGVR, object "" "v1" "Pod" "theirs" (ownedBy "other-app") ∅);
                 (podsGVR, plain)];
     refused := []; finalized := []; unlistable := []; unremovable := [] |}.

(** A namespace whose only object is the pod without annotations. *)
Definition unowned : TestCluster :=
  {| objects := [(podsGVR, plain)];
     refused := []; finalized := []; unlistable := []; unremovable := [] |}.

(** An owned pod, an owned config map and an owned secret; the API server
    refuses to delete the config map. *)
Definition picky : TestCluster :=
  {| objects := [(podsGVR, pod "web"); (configMapsGVR, configMap "settings");
                 (secretsGVR, secret "token")];
     refused := ["settings"]; finalized := []; unlistable := []; unremovable := [] |}.

(** One owned object whose deletion is refused every time. *)
Definition stuck : TestCluster :=
  {| objects := [(podsGVR, pod "web")];
     refused := ["web"]; finalized := []; unlistable := []; unremovable := [] |}.


Definition gvrsOfCluster : list GroupVersionResource := [eventsGVR; podsGVR; configMapsGVR].
Definition gvrsWithSecrets : list GroupVersionResource :=
  [eventsGVR; podsGVR; configMapsGVR; secretsGVR].

(** Decoding: a document is known to the library, or it is YAML that the
    serializer cannot read ([kindless.yaml]), or it is not YAML. *)
Definition knownDocuments : list (string * (Unstructured * GroupVersionKind)) := [
  ("pvc.yaml", (object "" "v1" "PersistentVolumeClaim" "data" ∅ ∅,
                {| Group := ""; Version := "v1"; Kind := "PersistentVolumeClaim" |}));
  ("pod.yaml", (object "" "v1" "Pod" "web" ∅ ∅,
                {| Group := ""; Version := "v1"; Kind := "Pod" |})) ].

Definition lookupDocument (manifest : string) : option (Unstructured * GroupVersionKind) :=
  (list_find (fun d => d.1 = manifest) knownDocuments) ≫= fun f => Some f.2.2.

Global Instance testDecoder : DecoderLib := {|
  RawExtension := string;
  RuntimeObject := Unstructured;
  yamlDecode manifest :=
    match lookupDocument manifest with
    | Some _ => inl manifest
    | None =>
        if decide (manifest = "kindless.yaml") then inl manifest
        else inr "yaml: line 1: did not find expected node content"
    end;
  serializerDecode raw :=
    match lookupDocument raw with
    | Some (u, gvk) => (Some u, Some gvk, None)
    | None => (None, None, Some "Object 'Kind' is missing")
    end;
  toUnstructured obj :=
    match obj with
    | Some u => Ok (inl u)
    | None => Panic
    end;
|}.

(** A decoded manifest as [decodeManifests] builds it. *)
Definition decoded (manifest : string) (u : Unstructured) : resource :=
  {| Wait := false; Manifest := manifest; GVR := emptyGVR;
     GVK := Some (GetGroupVersionKind u); Obj := Some u |}.

Definition widgetIndex : gmap string bool := {[ "example.com/Widget/v1" := true ]}.

Definition widget : resource := decoded "widget.yaml" (object "example.com" "v1" "Widget" "w1" ∅ ∅).
Definition otherWidget : resource :=
  decoded "other-widget.yaml" (object "acme.io" "v1beta1" "Widget" "w2" ∅ ∅).
Definition literalCustomResource : resource :=
  decoded "cr.yaml" (object "acme.io" "v1" "CustomResource" "cr" ∅ ∅).
Definition claim : resource :=
  decoded "pvc.yaml" (object "" "v1" "PersistentVolumeClaim" "data" ∅ ∅).

(** A kind-order table that does not list the key [CustomResource]. *)
Definition smallTable : KindOrder := {| PreOrder := ["Service"]; PostOrder := ["Pod"] |}.

End Fixtures.

(** The ordered kind sequence of a scheduling result. *)
Definition orderedKinds (x : result (gmap string (list resource) * KindSortOrder))
    : result KindSortOrder :=
  rbind x (fun built => Ok built.2).

Definition isOk {A} (x : result A) : bool :=
  match x with
  | Ok _ => true
  | Panic => false
  end.

(** The two components of a scheduling result that did not panic. *)
Definition bucketsOf (x : result (gmap string (list resource) * KindSortOrder))
    : gmap string (list resource) :=
  match x with
  | Ok built => built.1
  | Panic => ∅
  end.

Definition kindsOf (x : result (gmap string (list resource) * KindSortOrder)) : KindSortOrder :=
  match x with
  | Ok built => built.2
  | Panic => []
  end.

Definition isList (e : Event) : bool :=
  match e with EvList _ _ => true | _ => false end.
Definition isSleep (seconds : Z) (e : Event) : bool :=
  match e with EvSleep s => Z.eqb s seconds | _ => false end.


Definition countLists (t : list Event) : nat := List.length (List.filter isList t).
Definition countSleeps (seconds : Z) (t : list Event) : nat :=
  List.length (List.filter (isSleep seconds) t).

(** ** Vocabulary of the statements *)

Definition tableKinds (kindOrder : KindOrder) : list string :=
  PreOrder kindOrder ++ PostOrder kindOrder.

(** A resource as the scheduler stores it in a bucket: the wait flag is
    decided and an empty namespace is replaced by the default one. *)
Definition prepared (defaultNS : string) (waitFlag : bool) (r0 : resource) (u0 : Unstructured)
    : resource :=
  {| Wait := if decide (GetKind u0 = "PersistentVolumeClaim") then false else waitFlag;
     Manifest := Manifest r0; GVR := GVR r0; GVK := GVK r0;
     Obj := Some (if decide (GetNamespace u0 = "") then SetNamespace u0 defaultNS else u0) |}.

(** Membership of a resource's (group, kind, version) in the CRD index. *)
Definition inCrdIndex (crdGVKMap : gmap string bool) (gvk : GroupVersionKind) : Prop :=
  is_Some (crdGVKMap !! buildGVKKey (Group gvk) (Kind gvk) (Version gvk)).

(** The key under which a resource takes the default branch of the
    scheduler: the empty key without a GVK, the literal kind when the GVK is
    not in the CRD index, none for an instance of an indexed CRD. *)
Definition defaultKey (crdGVKMap : gmap string bool) (r : resource) : option string :=
  match GVK r with
  | None => Some ""
  | Some gvk =>
      match crdGVKMap !! buildGVKKey (Group gvk) (Kind gvk) (Version gvk) with
      | Some _ => None
      | None => Some (Kind gvk)
      end
  end.

(** The bucket a resource goes to when the buckets [known] exist. *)
Definition bucketKey (crdGVKMap : gmap string bool) (known : gset string) (r : resource) : string :=
  match defaultKey crdGVKMap r with
  | Some k => k
  | None =>
      match GVK r with
      | Some gvk => if decide (Kind gvk ∈ known) then Kind gvk else "CustomResource"
      | None => ""
      end
  end.

(** The default keys met in a batch. *)
Definition defaultKeys (crdGVKMap : gmap string bool) (rs : list resource) : list string :=
  omap (defaultKey crdGVKMap) rs.

(** The resources visited by a delete pass, in order. *)
Definition inOrder (m : gmap string (list resource)) (kinds : KindSortOrder) : list resource :=
  List.concat (map (bucket m) kinds).

Definition nameOf (r : resource) : string :=
  match Obj r with
  | Some u => GetName u
  | None => ""
  end.

Definition deleteCall (namespace : string) (r : resource) : Event :=
  EvDelete (GVR r) namespace (nameOf r).

(** The namespace [deleteManifestResource] passes to the applier. *)
Definition removeNamespace (targetNS : string) (r : resource) : string :=
  match GVK r, Obj r with
  | Some _, Some u => GetNamespace u
  | _, _ => targetNS
  end.

Definition removeCall (targetNS : string) (r : resource) : Event :=
  EvRemove (removeNamespace targetNS r) (Manifest r) (Wait r).

Section Runs.
Context {W : Type} `{!Cluster W}.

(** Starting from cluster [w], the deletes of the resources [rs], issued
    one after the other, are all accepted and leave the cluster [w']. *)
Inductive deletesSucceed (namespace : string) : W → list resource → W → Prop :=
  | deletes_nil w : deletesSucceed namespace w [] w
  | deletes_cons w w1 w2 r u rs :
      Obj r = Some u →
      dynDelete (GVR r) namespace (GetName u) w = (None, w1) →
      deletesSucceed namespace w1 rs w2 →
      deletesSucceed namespace w (r :: rs) w2.

(** Run [m2] unless [m1] reported an error. *)
Definition andThen (m1 m2 : M W (option error)) : M W (option error) :=
  let* err := m1 in
  match err with
  | Some e => ret (Some e)
  | None => m2
  end.
End Runs.

Section Selection.
Context `{!SelectorLib} {go : Toolchain}.

(** What the selection tests establish of an object: the app-slug
    annotation reads as the target slug, a missing annotation reading as the
    empty string, so the annotation is present with that value whenever the
    slug is not empty, and with an empty slug it may be missing; in restore
    mode the object is not excluded from backup and matches the restore
    selector when there is one. *)
Definition ownedAndRestorable (appSlug : string) (isRestore : bool)
    (sel : option LabelSelector) (u : Unstructured) : Prop :=
  mapGet (GetAnnotations u) "kots.io/app-slug" = appSlug
  ∧ (appSlug ≠ "" → GetAnnotations u !! "kots.io/app-slug" = Some appSlug)
  ∧ (isRestore = true →
     GetLabels u !! "velero.io/exclude-from-backup" ≠ Some "true"
     ∧ ∀ s, sel = Some s →
         ∃ c, LabelSelectorAsSelector s = inl c ∧ Matches c (GetLabels u) = true).

(** How visiting the items [items] of the list [ranged] of one endpoint
    changes the loop state: the buckets keep to the table and the discovered
    kinds, and they only grow, by the resources of the selected objects among
    [items]. *)
Definition grows (appSlug : string) (isRestore : bool) (sel : option LabelSelector)
    (gvr : GroupVersionResource) (ranged items : list Unstructured) (st st' : schedState)
    : Prop :=
  (∀ X : gset string, dom st.2 ⊆ X ∪ list_to_set st.1 →
                       dom st'.2 ⊆ X ∪ list_to_set st'.1)
  ∧ (∃ dnew, st'.1 = st.1 ++ dnew)
  ∧ (dom st.2 ⊆ dom st'.2)
  ∧ ∀ k, ∃ l, bucket st'.2 k = bucket st.2 k ++ l
      ∧ (∀ r, r ∈ l → ∃ u, u ∈ items ∧ itemVerdict appSlug isRestore sel u = Selected
                        ∧ r = liveResource gvr ranged u ∧ k = GetKind u)
      ∧ (∀ u, u ∈ items → itemVerdict appSlug isRestore sel u = Selected →
              k = GetKind u → liveResource gvr ranged u ∈ l).

End Selection.

Section Attempts.
Context {W : Type} `{!Cluster W} `{!SelectorLib} {go : Toolchain}.

(** Some list call on the endpoint [gvr] in [namespace] returned the
    items [items], [u] among them. *)
Definition wasListed (gvr : GroupVersionResource) (namespace : string)
    (items : list Unstructured) (u : Unstructured) : Prop :=
  ∃ w : W, (dynList gvr namespace w).1.1 = Some items ∧ u ∈ items.

(** The events of a reconciliation: every delete is issued for a selected
    object that was listed on that endpoint in that namespace, and carries
    the name of the object the resource points at after the list pass. *)
Definition harmless (appSlug : string) (isRestore : bool) (sel : option LabelSelector)
    (e : Event) : Prop :=
  match e with
  | EvDelete gvr namespace name =>
      ∃ items u, name = GetName (pointee items u)
                 ∧ itemVerdict appSlug isRestore sel u = Selected
                 ∧ wasListed gvr namespace items u
  | _ => True
  end.

(** The retry budget of a namespace is exhausted from cluster [w] with
    counter [i]: the attempt made in [w] lists without error, finds a
    non-empty delete map and has its delete pass end on an error; and, unless
    [i] is 0, the same holds with counter [i - 1] after the 2-second sleep. *)
Inductive exhausted (appSlug namespace : string) (isRestore : bool)
    (sel : option LabelSelector) (t : KindOrder) (gvrs : list GroupVersionResource)
    : nat → W → Prop :=
  | exhausted_last w m kinds w1 t1 e w2 t2 :
      buildDeleteKindOrderedNamespaceResources gvrs appSlug namespace isRestore sel t w
        = (Ok (inl (m, kinds)), w1, t1) →
      size m ≠ 0 →
      clearNamespacedResources namespace m kinds w1 = (Ok (Some e), w2, t2) →
      exhausted appSlug namespace isRestore sel t gvrs 0 w
  | exhausted_more i w m kinds w1 t1 e w2 t2 :
      buildDeleteKindOrderedNamespaceResources gvrs appSlug namespace isRestore sel t w
        = (Ok (inl (m, kinds)), w1, t1) →
      size m ≠ 0 →
      clearNamespacedResources namespace m kinds w1 = (Ok (Some e), w2, t2) →
      exhausted appSlug namespace isRestore sel t gvrs i (timeSleep 2 w2) →
      exhausted appSlug namespace isRestore sel t gvrs (S i) w.
End Attempts.

(** The components of a list pass that reported no error. *)
Definition passOk {W} (x : result (gmap string (list resource) * KindSortOrder + error)
                           * W * list Event) : bool :=
  match outcome x with
  | Ok (inl _) => true
  | _ => false
  end.

Definition passBuckets {W} (x : result (gmap string (list resource) * KindSortOrder + error)
                                * W * list Event) : gmap string (list resource) :=
  match outcome x with
  | Ok (inl built) => built.1
  | _ => ∅
  end.

Definition passKinds {W} (x : result (gmap string (list resource) * KindSortOrder + error)
                              * W * list Event) : KindSortOrder :=
  match outcome x with
  | Ok (inl built) => built.2
  | _ => []
  end.

(** A statement about the reconciler that holds whichever way the
    toolchain scopes range variables. *)
Definition underBothScopings (P : Toolchain → Prop) : Prop :=
  P Fixtures.perLoop ∧ P Fixtures.perIteration.

(** The first list pass and the first delete pass of Scenario B, built
    with the toolchain [go]. *)
Module Scenarios.
Import Fixtures.



(** A restore selector whose operator the conversion rejects. *)
Definition nearSelector : @LabelSelector testSelectors := MatchOperator "Near".

(** The list pass over the cluster with pods of several owners. *)
Definition mixedPass (go : Toolchain) :=
  buildDeleteKindOrderedNamespaceResources (deletionGVRsOf gvrsOfCluster) "my-app" "demo"
    false None defaultKindDeleteOrder mixed.

(** The list pass over the cluster that refuses one delete. *)
Definition pickyPass (go : Toolchain) :=
  buildDeleteKindOrderedNamespaceResources (deletionGVRsOf gvrsWithSecrets) "my-app" "demo"
    false None defaultKindDeleteOrder picky.
End Scenarios.

(** ** More collaborators for the examples *)

Module Samples.
Import Fixtures.

(** The manifest of a CRD that converts, and of one that does not. *)
Definition widgetDefinition : resource :=
  decoded "widget-crd.yaml"
    {| objGroup := "apiextensions.k8s.io"; objVersion := "v1";
       objKind := "CustomResourceDefinition"; objName := "widgets.example.com";
       objNamespace := ""; objLabels := ∅; objAnnotations := ∅;
       objDeletionTimestamp := None;
       objCRD := inl {| crdGroup := "example.com"; crdNamesKind := "Widget";
                        crdVersions := ["v1"; "v1beta1"] |} |}.

Definition brokenDefinition : resource :=
  decoded "broken-crd.yaml"
    (object "apiextensions.k8s.io" "v1" "CustomResourceDefinition" "broken" ∅ ∅).

(** A cluster seen through the typed client: the pods with their
    namespace, the claims that exist, the claims the API server refuses to
    delete, and whether pods can be listed. *)
Record TestClient := {
  clientPods : list (string * Pod);
  clientClaims : list string;
  protectedClaims : list string;
  podsUnavailable : bool;
}.

Definition renderLabel (label : string * string) : string := label.1 +:+ "=" +:+ label.2.

Global Instance testClient : Clientset TestClient := {|
  podsList namespace labelSelector c :=
    if podsUnavailable c then (inr "connection refused", c)
    else (inl (filter (fun p => p.1 = namespace) (clientPods c)).*2, c);
  claimsDelete namespace name gracePeriodSeconds propagationPolicy c :=
    if decide (name ∈ protectedClaims c) then (Some "forbidden", c)
    else if decide (name ∈ clientClaims c)
         then (None, {| clientPods := clientPods c;
                        clientClaims := filter (fun n => n ≠ name) (clientClaims c);
                        protectedClaims := protectedClaims c;
                        podsUnavailable := podsUnavailable c |})
         else (Some "not found", c);
  IsNotFound e := bool_decide (e = "not found");
  getLabelSelector selector :=
    String.concat "," (renderLabel <$> map_to_list (default ∅ (selMatchLabels selector)));
|}.

Definition claimVolume (name claimName : string) : Volume :=
  {| volumeName := name; PersistentVolumeClaim := Some claimName |}.
Definition configVolume (name : string) : Volume :=
  {| volumeName := name; PersistentVolumeClaim := None |}.

(** Two pods that mount the claim [data]; the second also mounts [cache]. *)
Definition appPods : list (string * Pod) := [
  ("demo", {| podName := "web"; podVolumes := [configVolume "settings"; claimVolume "data" "data"] |});
  ("demo", {| podName := "worker";
              podVolumes := [claimVolume "data" "data"; claimVolume "cache" "cache"] |});
  ("other", {| podName := "db"; podVolumes := [claimVolume "pgdata" "pgdata"] |}) ].

Definition healthyClient : TestClient :=
  {| clientPods := appPods; clientClaims := ["data"; "cache"; "pgdata"];
     protectedClaims := []; podsUnavailable := false |}.

Definition guardedClient : TestClient :=
  {| clientPods := appPods; clientClaims := ["data"; "cache"; "pgdata"];
     protectedClaims := ["cache"]; podsUnavailable := false |}.

(** An owned pod that the endpoint lists twice: the first delete removes
    it, the second one fails because it is gone. *)
Definition listedTwice : TestCluster :=
  {| objects := [(podsGVR, pod "web"); (podsGVR, pod "web")];
     refused := []; finalized := []; unlistable := []; unremovable := [] |}.

(** Resources of package [types]. *)
Definition weighted (manifest : string) (annotations : option (gmap string string))
    : Types.Resource :=
  {| Types.Manifest := manifest; Types.GVR := emptyGVR; Types.GVK := None;
     Types.Object := Some {| Types.GetAnnotations := annotations |} |}.

End Samples.

(** ** Vocabulary of the further properties *)

(** A resource as it leaves the scheduler. *)
Definition preparedOf (defaultNS : string) (waitFlag : bool) (r : resource) : resource :=
  match Obj r with
  | Some u => prepared defaultNS waitFlag r u
  | None => r
  end.

Section ManifestVocabulary.
Context `{!DecoderLib}.

(** The call to [kubectl delete] expected for a manifest: in the namespace
    of the decoded object, or the target namespace when it has none, waiting
    as asked unless the object is a volume claim. *)
Definition expectedRemoval (targetNS : string) (waitFlag : bool) (manifest : string) : Event :=
  match decodeToUnstructured manifest with
  | Ok (Some u, _, _) =>
      EvRemove (if decide (GetNamespace u = "") then targetNS else GetNamespace u) manifest
               (if decide (GetKind u = "PersistentVolumeClaim") then false else waitFlag)
  | _ => EvRemove targetNS manifest waitFlag
  end.

Definition decodesFully (manifest : string) : Prop :=
  ∃ u gvk, decodeToUnstructured manifest = Ok (Some u, Some gvk, None).

(** The manifest does not come out of [decodeToUnstructured] with a GVK:
    the call panics, or it returns a nil GVK, as it does whenever it returns
    an error. *)
Definition withoutGVK (manifest : string) : Prop :=
  decodeToUnstructured manifest = Panic
  ∨ ∃ obj err, decodeToUnstructured manifest = Ok (obj, None, err).

End ManifestVocabulary.

(** The key is declared by a CRD of the batch: a resource of kind
    [CustomResourceDefinition] that converts to a CRD with that group, that
    kind and one of its versions. *)
Definition declaredBy (rs : list resource) (key : string) : Prop :=
  ∃ r gvk u crd version,
    r ∈ rs ∧ GVK r = Some gvk ∧ Kind gvk = "CustomResourceDefinition"
    ∧ Obj r = Some u ∧ objCRD u = inl crd ∧ version ∈ crdVersions crd
    ∧ key = buildGVKKey (crdGroup crd) (crdNamesKind crd) version.

(** What makes [buildCrdGVKMap] dereference a nil pointer. *)
Definition undecoded (r : resource) : Prop :=
  match GVK r with
  | None => True
  | Some gvk => Kind gvk = "CustomResourceDefinition" ∧ Obj r = None
  end.

Fixpoint hasSlash (s : string) : bool :=
  match s with
  | EmptyString => false
  | String a rest => if Ascii.eqb a "/" then true else hasSlash rest
  end.

(** The index of a run of [buildCrdGVKMap] that did not panic. *)
Definition indexOf (x : result (gmap string bool)) : gmap string bool :=
  match x with
  | Ok crdGVKMap => crdGVKMap
  | Panic => ∅
  end.

(** An event of the retry loop of one namespace: a list or a delete on one
    of the endpoints, in that namespace, or the 2-second sleep. *)
Definition within (gvrs : list GroupVersionResource) (namespace : string) (e : Event) : Prop :=
  match e with
  | EvList gvr ns | EvDelete gvr ns _ => gvr ∈ gvrs ∧ ns = namespace
  | EvSleep seconds => seconds = 2%Z
  | EvRemove _ _ _ => False
  end.

(** An event of a reconciliation: it stays on the endpoints that are not
    skipped and in the namespaces to clear, and never calls the applier. *)
Definition confined (gvrs : list GroupVersionResource) (namespaces : list string) (e : Event)
    : Prop :=
  match e with
  | EvList gvr ns | EvDelete gvr ns _ =>
      gvr ∈ gvrs ∧ (gvrString gvr ∉ skip) ∧ ns ∈ namespaces
  | EvSleep seconds => seconds = 2%Z ∨ seconds = 20%Z
  | EvRemove _ _ _ => False
  end.





Section Replies.
Context {W : Type} `{!Cluster W}.

(** The replies a list pass gets: the endpoints that could be listed, with
    the objects returned, each endpoint listed in the cluster left by the
    call before. *)
Fixpoint repliesOf (gvrs : list GroupVersionResource) (namespace : string) (w : W)
    : list (GroupVersionResource * list Unstructured) :=
  match gvrs with
  | [] => []
  | gvr :: rest =>
      match (dynList gvr namespace w).1.1 with
      | Some items => (gvr, items) :: repliesOf rest namespace (dynList gvr namespace w).2
      | None => repliesOf rest namespace (dynList gvr namespace w).2
      end
  end.

End Replies.

Section Progress.
Context {W : Type} `{!Cluster W} `{!SelectorLib} {go : Toolchain}.

(** From cluster [w], [k] attempts in a row list without error, find a
    delete map that is not empty and have their delete pass end on an error;
    [w'] is the cluster after the sleep that follows the last of them. *)
Inductive failsFor (appSlug namespace : string) (isRestore : bool)
    (sel : option LabelSelector) (t : KindOrder) (gvrs : list GroupVersionResource)
    : nat → W → W → Prop :=
  | failsFor_0 w : failsFor appSlug namespace isRestore sel t gvrs 0 w w
  | failsFor_S k w m kinds w1 t1 e w2 t2 w' :
      buildDeleteKindOrderedNamespaceResources gvrs appSlug namespace isRestore sel t w
        = (Ok (inl (m, kinds)), w1, t1) →
      size m ≠ 0 →
      clearNamespacedResources namespace m kinds w1 = (Ok (Some e), w2, t2) →
      failsFor appSlug namespace isRestore sel t gvrs k (timeSleep 2 w2) w' →
      failsFor appSlug namespace isRestore sel t gvrs (S k) w w'.

(** The attempt made in cluster [w] ends the retry loop without an error:
    the list pass fails, or the delete map is empty, or the delete pass
    reports no error. *)
Definition settles (appSlug namespace : string) (isRestore : bool)
    (sel : option LabelSelector) (t : KindOrder) (gvrs : list GroupVersionResource)
    (w : W) : Prop :=
  match outcome (buildDeleteKindOrderedNamespaceResources gvrs appSlug namespace
                   isRestore sel t w) with
  | Ok (inl (m, kinds)) =>
      size m = 0
      ∨ outcome (clearNamespacedResources namespace m kinds
                   (final (buildDeleteKindOrderedNamespaceResources gvrs appSlug namespace
                             isRestore sel t w))) = Ok None
  | Ok (inr _) => True
  | Panic => False
  end.

End Progress.

Section ClaimsVocabulary.
Context {C : Type} `{!Clientset C}.

(** The selector [deletePVCs] lists the pods with. *)
Definition appSelector (appLabelSelector : option metaLabelSelector) (appslug : string)
    : metaLabelSelector :=
  match appLabelSelector with
  | None => {| selMatchLabels := Some {[ "kots.io/app-slug" := appslug ]};
               selMatchExpressions := [] |}
  | Some s => {| selMatchLabels :=
                   Some (<["kots.io/app-slug" := appslug]> (default ∅ (selMatchLabels s)));
                 selMatchExpressions := selMatchExpressions s |}
  end.

Definition deleteClaimCall (namespace : string) (pvc : string) : ClientCall :=
  CallDeleteClaim namespace pvc 0 "Background".

Definition pvcOutcome (x : result (option error) * option metaLabelSelector * C * list ClientCall)
    : result (option error) := x.1.1.1.
Definition pvcSelector (x : result (option error) * option metaLabelSelector * C * list ClientCall)
    : option metaLabelSelector := x.1.1.2.
Definition pvcCalls (x : result (option error) * option metaLabelSelector * C * list ClientCall)
    : list ClientCall := x.2.

(** Starting from cluster [c], the deletes of the claims [pvcs], issued one
    after the other, each succeed or fail because the claim is not found,
    and leave the cluster [c']. *)
Inductive claimsGone (namespace : string) : C → list string → C → Prop :=
  | gone_nil c : claimsGone namespace c [] c
  | gone_cons c c1 c2 pvc rest err :
      claimsDelete namespace pvc 0 "Background" c = (err, c1) →
      (∀ e, err = Some e → IsNotFound e = true) →
      claimsGone namespace c1 rest c2 →
      claimsGone namespace c (pvc :: rest) c2.

End ClaimsVocabulary.

(** The group a resource goes to. *)
Definition kindOf (r : Types.Resource) : string :=
  match Types.GVK r with
  | Some gvk => Kind gvk
  | None => ""
  end.

Definition weightOf (annotation : string) (r : Types.Resource) : string :=
  match Types.Object r with
  | Some u =>
      match Types.GetAnnotations u with
      | Some annotations => mapGet annotations annotation
      | None => "0"
      end
  | None => "0"
  end.

(** One turn of the loop of the grouping functions, for a resource that
    goes to the group [key r]. *)
Definition groupStep (key : Types.Resource → string) (grouped : gmap string Types.Resources)
    (r : Types.Resource) : gmap string Types.Resources :=
  <[key r := default [] (grouped !! key r) ++ [r]]> grouped.

Section Encodings.
Context {T : Type}.
Variable jsonMarshal : T → string + error.

(** The encoding of an object that has one. *)
Definition encoding (o : T) : option string :=
  match jsonMarshal o with
  | inl key => Some key
  | inr _ => None
  end.

(** What the loop appends to [out]. *)
Fixpoint kept (seen : gmap string bool) (objs : list T) : list T :=
  match objs with
  | [] => []
  | o :: rest =>
      match jsonMarshal o with
      | inr _ => o :: kept seen rest
      | inl key =>
          match seen !! key with
          | None => o :: kept (<[key := true]> seen) rest
          | Some _ => kept seen rest
          end
      end
  end.

End Encodings.

(** * Properties *)

Lemma built_eta (x : result (gmap string (list resource) * KindSortOrder)) :
  isOk x = true → x = Ok (bucketsOf x, kindsOf x).
Proof. destruct x as [[m kinds]|]; [done|discriminate]. Qed.

(** ** The order of [sort.Strings] *)

Lemma string_compare_trans_le (s1 s2 s3 : string) :
  String.compare s1 s2 ≠ Gt → String.compare s2 s3 ≠ Gt → String.compare s1 s3 ≠ Gt.
Proof.
  revert s2 s3. induction s1 as [|a1 s1 IH]; intros [|a2 s2] [|a3 s3]; simpl; try done.
  unfold Ascii.compare.
  destruct (N.compare_spec (N_of_ascii a1) (N_of_ascii a2)) as [E12|L12|G12]; [| |done].
  - rewrite E12.
    destruct (N.compare_spec (N_of_ascii a2) (N_of_ascii a3)); [by apply IH|done|done].
  - intros _.
    destruct (N.compare_spec (N_of_ascii a2) (N_of_ascii a3)) as [E23|L23|G23]; [| |done].
    + rewrite <- E23. intros _.
      destruct (N.compare_spec (N_of_ascii a1) (N_of_ascii a2)); [lia|done|lia].
    + intros _.
      destruct (N.compare_spec (N_of_ascii a1) (N_of_ascii a3)); [lia|done|lia].
Qed.

Global Instance string_le_total : Total string_le.
Proof. intros s1 s2. apply String.leb_total. Qed.

Global Instance string_le_antisymm : AntiSymm (=) string_le.
Proof. intros s1 s2. apply String.leb_antisym. Qed.

Global Instance string_le_trans : Transitive string_le.
Proof.
  intros s1 s2 s3. unfold string_le, String.leb. intros H12 H23.
  pose proof (string_compare_trans_le s1 s2 s3) as H.
  destruct (String.compare s1 s2), (String.compare s2 s3), (String.compare s1 s3);
    try done; exfalso; by apply H.
Qed.

Lemma sortStrings_sorted (l : list string) : Sorted string_le (sortStrings l).
Proof. apply Sorted_merge_sort; apply _. Qed.

Lemma sortStrings_perm (l : list string) : sortStrings l ≡ₚ l.
Proof. apply merge_sort_Permutation. Qed.

(** Sorting forgets the order of discovery. *)
Lemma sortStrings_perm_eq (l1 l2 : list string) : l1 ≡ₚ l2 → sortStrings l1 = sortStrings l2.
Proof.
  intros Hp. apply (Sorted_unique string_le); try apply sortStrings_sorted.
  by rewrite !sortStrings_perm.
Qed.

(** ** Buckets *)

Lemma bucket_insert (m : gmap string (list resource)) k k' l :
  bucket (<[k := l]> m) k' = if decide (k' = k) then l else bucket m k'.
Proof.
  unfold bucket. rewrite lookup_insert. repeat case_decide; simplify_eq; done.
Qed.

Lemma bucket_None (m : gmap string (list resource)) k : m !! k = None → bucket m k = [].
Proof. unfold bucket. by intros ->. Qed.

Lemma bucket_appendTo (m : gmap string (list resource)) k k' r :
  bucket (appendTo m k r) k' = bucket m k' ++ (if decide (k' = k) then [r] else []).
Proof.
  unfold appendTo. rewrite bucket_insert.
  case_decide; subst; [done|]. by rewrite app_nil_r.
Qed.

Lemma dom_appendTo (m : gmap string (list resource)) k r :
  dom (appendTo m k r) = {[k]} ∪ dom m.
Proof. unfold appendTo. by rewrite dom_insert_L. Qed.

Lemma foldl_init_lookup (l : list string) (m : gmap string (list resource)) k :
  foldl (fun m resourceType => <[resourceType := []]> m) m l !! k =
  if decide (k ∈ l) then Some [] else m !! k.
Proof.
  revert m. induction l as [|x l IH]; intros m; cbn [foldl].
  - rewrite decide_False; [done|]. apply not_elem_of_nil.
  - rewrite IH. destruct (decide (k ∈ l)) as [Hin|Hin].
    + rewrite decide_True; [done|]. by right.
    + destruct (decide (k = x)) as [->|Hne].
      * rewrite lookup_insert_eq, decide_True; [done|]. by left.
      * rewrite lookup_insert_ne by done. rewrite decide_False; [done|].
        intros [?|?]%elem_of_cons; done.
Qed.

Lemma init_lookup (t : KindOrder) k :
  initResourceKindOrderMap t !! k = if decide (k ∈ tableKinds t) then Some [] else None.
Proof.
  unfold initResourceKindOrderMap, tableKinds. rewrite !foldl_init_lookup, lookup_empty.
  destruct (decide (k ∈ PreOrder t ++ PostOrder t)) as [H|H].
  - apply elem_of_app in H as [H|H].
    + rewrite (decide_True (P := k ∈ PreOrder t)) by done. by case_decide.
    + by rewrite (decide_True (P := k ∈ PostOrder t)) by done.
  - apply not_elem_of_app in H as [H1 H2].
    rewrite (decide_False (P := k ∈ PostOrder t)) by done.
    by rewrite (decide_False (P := k ∈ PreOrder t)) by done.
Qed.

Lemma init_dom (t : KindOrder) : dom (initResourceKindOrderMap t) = list_to_set (tableKinds t).
Proof.
  apply set_eq. intros k. rewrite elem_of_dom, init_lookup, elem_of_list_to_set.
  destruct (decide (k ∈ tableKinds t)) as [H|H].
  - split; [done|]. by eexists.
  - split; [by intros [? ?]|done].
Qed.

Lemma init_bucket (t : KindOrder) k : bucket (initResourceKindOrderMap t) k = [].
Proof. unfold bucket. rewrite init_lookup. by case_decide. Qed.

(** ** One step of the scheduler *)

Lemma addDefault_spec (d : list string) (m : gmap string (list resource)) k r :
  ∃ d' m', addDefault (d, m) k r = (d', m')
    ∧ dom m' = {[k]} ∪ dom m
    ∧ (∀ k', bucket m' k' = bucket m k' ++ (if decide (k' = k) then [r] else []))
    ∧ d' = (if decide (k ∈ dom m) then d else d ++ [k]).
Proof.
  unfold addDefault. destruct (m !! k) as [l|] eqn:E.
  - eexists _, _. split; [done|]. split; [apply dom_appendTo|]. split.
    + intros k'. apply bucket_appendTo.
    + rewrite decide_True; [done|]. apply elem_of_dom. by eexists.
  - eexists _, _. split; [done|]. split; [|split].
    + rewrite dom_appendTo, dom_insert_L. by rewrite (assoc_L (∪)), (idemp_L (∪)).
    + intros k'. rewrite bucket_appendTo, bucket_insert.
      destruct (decide (k' = k)) as [->|?]; [by rewrite (bucket_None m k)|done].
    + rewrite decide_False; [done|]. by apply not_elem_of_dom.
Qed.

Lemma scheduleOne_spec ns crd w (d : list string) (m : gmap string (list resource)) r0 u0 :
  Obj r0 = Some u0 →
  ∃ d' m', scheduleOne ns crd w (d, m) r0 = Ok (d', m')
    ∧ dom m' = {[bucketKey crd (dom m) r0]} ∪ dom m
    ∧ (∀ k, bucket m' k = bucket m k ++
              (if decide (k = bucketKey crd (dom m) r0) then [prepared ns w r0 u0] else []))
    ∧ d' = match defaultKey crd r0 with
           | Some k => if decide (k ∈ dom m) then d else d ++ [k]
           | None => d
           end.
Proof.
  intros HO.
  assert (Hstep : scheduleOne ns crd w (d, m) r0 =
    match GVK r0 with
    | None => Ok (addDefault (d, m) "" (prepared ns w r0 u0))
    | Some gvk =>
        match crd !! buildGVKKey (Group gvk) (Kind gvk) (Version gvk) with
        | Some _ =>
            match m !! Kind gvk with
            | Some _ => Ok (d, appendTo m (Kind gvk) (prepared ns w r0 u0))
            | None => Ok (d, appendTo m "CustomResource" (prepared ns w r0 u0))
            end
        | None => Ok (addDefault (d, m) (Kind gvk) (prepared ns w r0 u0))
        end
    end).
  { unfold scheduleOne, shouldResourceWaitForDeletion, prepared. rewrite HO.
    destruct (decide (GetKind u0 = "PersistentVolumeClaim")); reflexivity. }
  rewrite Hstep. clear Hstep. unfold bucketKey, defaultKey.
  destruct (GVK r0) as [gvk|].
  - destruct (crd !! buildGVKKey (Group gvk) (Kind gvk) (Version gvk)) as [b|].
    + destruct (m !! Kind gvk) as [l|] eqn:EM.
      * eexists _, _. split; [done|]. rewrite dom_appendTo.
        rewrite decide_True by (apply elem_of_dom; by eexists).
        split; [done|]. split; [|done]. intros k. apply bucket_appendTo.
      * eexists _, _. split; [done|]. rewrite dom_appendTo.
        rewrite decide_False by (by apply not_elem_of_dom).
        split; [done|]. split; [|done]. intros k. apply bucket_appendTo.
    + destruct (addDefault_spec d m (Kind gvk) (prepared ns w r0 u0)) as (d' & m' & -> & ? & ? & ?).
      by eexists _, _.
  - destruct (addDefault_spec d m "" (prepared ns w r0 u0)) as (d' & m' & -> & ? & ? & ?).
    by eexists _, _.
Qed.

(** ** The scheduler loop *)

Lemma scheduleOne_Ok_inv ns crd w st r st' :
  scheduleOne ns crd w st r = Ok st' → is_Some (Obj r).
Proof.
  unfold scheduleOne, shouldResourceWaitForDeletion.
  destruct (Obj r); [by eexists|done].
Qed.

Lemma scheduleAll_cons_inv ns crd w r rs (d : list string) (m : gmap string (list resource)) st' :
  scheduleAll ns crd w (r :: rs) (d, m) = Ok st' →
  ∃ u0 d1 m1, Obj r = Some u0
    ∧ scheduleAll ns crd w rs (d1, m1) = Ok st'
    ∧ dom m1 = {[bucketKey crd (dom m) r]} ∪ dom m
    ∧ (∀ k, bucket m1 k = bucket m k ++
              (if decide (k = bucketKey crd (dom m) r) then [prepared ns w r u0] else []))
    ∧ d1 = match defaultKey crd r with
           | Some k => if decide (k ∈ dom m) then d else d ++ [k]
           | None => d
           end.
Proof.
  cbn [scheduleAll]. intros H.
  destruct (scheduleOne ns crd w (d, m) r) as [st1|] eqn:E1; [|done].
  destruct (scheduleOne_Ok_inv _ _ _ _ _ _ E1) as [u0 Hu].
  destruct (scheduleOne_spec ns crd w d m r u0 Hu) as (d1 & m1 & E & Hd & Hb & Hdef).
  assert (st1 = (d1, m1)) as -> by congruence. by exists u0, d1, m1.
Qed.

Lemma scheduleAll_app ns crd w l1 l2 st :
  scheduleAll ns crd w (l1 ++ l2) st
  = rbind (scheduleAll ns crd w l1 st) (scheduleAll ns crd w l2).
Proof.
  revert st. induction l1 as [|r l1 IH]; intros st; [done|].
  cbn [app scheduleAll]. destruct (scheduleOne ns crd w st r); [apply IH|done].
Qed.

(** The scheduler panics exactly on a resource without an object. *)
Lemma scheduleAll_Ok_iff ns crd w rs st :
  (∃ st', scheduleAll ns crd w rs st = Ok st') ↔ Forall (fun r => is_Some (Obj r)) rs.
Proof.
  revert st. induction rs as [|r rs IH]; intros [d m].
  - split; [constructor|]. intros _. by eexists.
  - split.
    + intros [st' H]. apply scheduleAll_cons_inv in H as (u0 & d1 & m1 & Hu & H & _).
      constructor; [by eexists|]. apply (IH (d1, m1)). by eexists.
    + intros [[u0 Hu] Hrs]%Forall_cons.
      destruct (scheduleOne_spec ns crd w d m r u0 Hu) as (d1 & m1 & E & _).
      cbn [scheduleAll]. rewrite E. simpl. by apply IH.
Qed.

Lemma defaultKeys_cons crd r rs :
  defaultKeys crd (r :: rs) =
  match defaultKey crd r with
  | Some k => k :: defaultKeys crd rs
  | None => defaultKeys crd rs
  end.
Proof. reflexivity. Qed.

(** What the loop adds to the discovery list: fresh keys only, each once,
    all of them default keys of the batch. *)
Lemma scheduleAll_discovered ns crd w rs (d : list string) (m : gmap string (list resource)) d' m' :
  scheduleAll ns crd w rs (d, m) = Ok (d', m') →
  ∃ dnew, d' = d ++ dnew ∧ NoDup dnew
    ∧ (∀ k, k ∈ dnew → (k ∉ dom m) ∧ k ∈ defaultKeys crd rs)
    ∧ dom m ∪ list_to_set dnew ⊆ dom m'.
Proof.
  revert d m. induction rs as [|r rs IH]; intros d m H.
  - simpl in H. simplify_eq. exists []. rewrite app_nil_r.
    split; [done|]. split; [constructor|]. split; [by intros k ?%elem_of_nil|].
    simpl. by rewrite (right_id_L ∅ (∪)).
  - apply scheduleAll_cons_inv in H as (u0 & d1 & m1 & Hu & H & Hdom & _ & Hd1).
    apply IH in H as (dnew & -> & Hnd & Hnew & Hsub).
    assert (Hold : ∀ k, k ∈ dnew → k ∉ dom m).
    { intros k Hk. destruct (Hnew k Hk) as [Hk' _]. rewrite Hdom in Hk'.
      by apply not_elem_of_union in Hk' as [_ ?]. }
    assert (Hmono : dom m ⊆ dom m').
    { intros k Hk. apply Hsub, elem_of_union. left. rewrite Hdom.
      apply elem_of_union. by right. }
    rewrite defaultKeys_cons. destruct (defaultKey crd r) as [k0|] eqn:Ek.
    + destruct (decide (k0 ∈ dom m)) as [Hin|Hin]; subst d1.
      * exists dnew. split; [done|]. split; [done|]. split.
        -- intros k Hk. split; [by apply Hold|]. right. by apply Hnew.
        -- intros k [Hk|Hk]%elem_of_union; [by apply Hmono|].
           apply Hsub, elem_of_union. by right.
      * assert (bucketKey crd (dom m) r = k0) as Hbk by (unfold bucketKey; by rewrite Ek).
        rewrite Hbk in Hdom.
        exists (k0 :: dnew). rewrite <- app_assoc. split; [done|]. split; [|split].
        -- constructor; [|done]. intros Hk. destruct (Hnew _ Hk) as [Hk' _].
           apply Hk'. rewrite Hdom. apply elem_of_union. left. by apply elem_of_singleton.
        -- intros k [->|Hk]%elem_of_cons; [split; [done|by left]|].
           split; [by apply Hold|]. right. by apply Hnew.
        -- intros k [Hk|Hk]%elem_of_union; [by apply Hmono|].
           apply elem_of_list_to_set, elem_of_cons in Hk as [->|Hk].
           ++ apply Hsub, elem_of_union. left. rewrite Hdom.
              apply elem_of_union. left. by apply elem_of_singleton.
           ++ apply Hsub, elem_of_union. right. by apply elem_of_list_to_set.
    + subst d1. exists dnew. split; [done|]. split; [done|]. split.
      * intros k Hk. split; [by apply Hold|]. by apply Hnew.
      * intros k [Hk|Hk]%elem_of_union; [by apply Hmono|].
        apply Hsub, elem_of_union. by right.
Qed.

(** With a bucket for [CustomResource] present from the start, the buckets
    that exist are the initial ones and the default keys of the batch. *)
Lemma scheduleAll_dom ns crd w rs (d : list string) (m : gmap string (list resource)) d' m' :
  "CustomResource" ∈ dom m →
  scheduleAll ns crd w rs (d, m) = Ok (d', m') →
  dom m' = dom m ∪ list_to_set (defaultKeys crd rs).
Proof.
  revert d m. induction rs as [|r rs IH]; intros d m Hcr H.
  - simpl in H. simplify_eq. set_solver.
  - apply scheduleAll_cons_inv in H as (u0 & d1 & m1 & Hu & H & Hdom & _ & Hd1).
    apply IH in H; [|rewrite Hdom; apply elem_of_union; by right].
    rewrite H, Hdom, defaultKeys_cons. clear IH H Hd1 Hu.
    unfold bucketKey, defaultKey.
    destruct (GVK r) as [gvk|].
    + destruct (crd !! _); [|set_solver]. case_decide; set_solver.
    + set_solver.
Qed.

(** Without that assumption the only other bucket that can appear is
    [CustomResource] itself. *)
Lemma scheduleAll_dom_bounds ns crd w rs (d : list string) (m : gmap string (list resource)) d' m' :
  scheduleAll ns crd w rs (d, m) = Ok (d', m') →
  dom m ∪ list_to_set (defaultKeys crd rs) ⊆ dom m'
  ∧ dom m' ⊆ dom m ∪ list_to_set (defaultKeys crd rs) ∪ {["CustomResource"]}.
Proof.
  revert d m. induction rs as [|r rs IH]; intros d m H.
  - simpl in H. simplify_eq. set_solver.
  - apply scheduleAll_cons_inv in H as (u0 & d1 & m1 & Hu & H & Hdom & _ & Hd1).
    apply IH in H as [H1 H2]. rewrite Hdom in H1, H2. rewrite defaultKeys_cons.
    clear IH Hd1 Hu Hdom.
    unfold bucketKey, defaultKey in *.
    destruct (GVK r) as [gvk|].
    + destruct (crd !! _); [|set_solver]. case_decide; set_solver.
    + set_solver.
Qed.

(** Buckets only grow, and only by prepared resources of the batch. *)
Lemma scheduleAll_buckets ns crd w rs (d : list string) (m : gmap string (list resource)) d' m' :
  scheduleAll ns crd w rs (d, m) = Ok (d', m') →
  ∀ k, ∃ l, bucket m' k = bucket m k ++ l
    ∧ ∀ r, r ∈ l → ∃ r0 u0, r0 ∈ rs ∧ Obj r0 = Some u0 ∧ r = prepared ns w r0 u0.
Proof.
  revert d m. induction rs as [|r0 rs IH]; intros d m H k.
  - simpl in H. simplify_eq. exists []. rewrite app_nil_r. split; [done|].
    by intros r ?%elem_of_nil.
  - apply scheduleAll_cons_inv in H as (u0 & d1 & m1 & Hu & H & _ & Hb & _).
    destruct (IH _ _ H k) as (l & Hl & Hin). rewrite Hb in Hl.
    eexists. split; [by rewrite Hl, <- app_assoc|].
    intros r [Hr|Hr]%elem_of_app.
    + case_decide; [|by apply elem_of_nil in Hr].
      apply list_elem_of_singleton in Hr as ->. exists r0, u0. split; [by left|done].
    + destruct (Hin r Hr) as (r1 & u1 & ? & ? & ?). exists r1, u1. split; [by right|done].
Qed.

(** Every resource of the batch ends in the bucket chosen when it was met. *)
Lemma scheduleAll_placed ns crd w before r0 after st d' m' u0 :
  scheduleAll ns crd w (before ++ r0 :: after) st = Ok (d', m') →
  Obj r0 = Some u0 →
  ∃ d1 m1, scheduleAll ns crd w before st = Ok (d1, m1)
    ∧ prepared ns w r0 u0 ∈ bucket m' (bucketKey crd (dom m1) r0).
Proof.
  intros H Hu. rewrite scheduleAll_app in H.
  destruct (scheduleAll ns crd w before st) as [[d1 m1]|]; [|done]. simpl in H.
  exists d1, m1. split; [done|].
  apply scheduleAll_cons_inv in H as (u0' & d2 & m2 & Hu' & H & _ & Hb & _).
  rewrite Hu in Hu'. simplify_eq.
  destruct (scheduleAll_buckets _ _ _ _ _ _ _ _ H (bucketKey crd (dom m1) r0)) as (l & -> & _).
  rewrite Hb, decide_True by done. set_solver.
Qed.

Lemma scheduleAll_dom_new ns crd w rs (d : list string) (m : gmap string (list resource)) d' m' :
  "CustomResource" ∈ dom m →
  scheduleAll ns crd w rs (d, m) = Ok (d', m') →
  ∃ dnew, d' = d ++ dnew ∧ dom m' = dom m ∪ list_to_set dnew.
Proof.
  revert d m. induction rs as [|r rs IH]; intros d m Hcr H.
  - simpl in H. simplify_eq. exists []. rewrite app_nil_r. split; [done|].
    simpl. by rewrite (right_id_L ∅ (∪)).
  - apply scheduleAll_cons_inv in H as (u0 & d1 & m1 & Hu & H & Hdom & _ & Hd1).
    apply IH in H as (dnew & -> & Hd); [|rewrite Hdom; apply elem_of_union; by right].
    rewrite Hd, Hdom. clear IH Hd Hdom Hu.
    unfold bucketKey, defaultKey in *. destruct (GVK r) as [gvk|].
    + destruct (crd !! _).
      * subst d1. exists dnew. split; [done|]. case_decide; set_solver.
      * destruct (decide (Kind gvk ∈ dom m)); subst d1.
        -- exists dnew. split; [done|]. set_solver.
        -- exists (Kind gvk :: dnew). rewrite <- app_assoc. split; [done|]. set_solver.
    + destruct (decide ("" ∈ dom m)); subst d1.
      * exists dnew. split; [done|]. set_solver.
      * exists ("" :: dnew). rewrite <- app_assoc. split; [done|]. set_solver.
Qed.

(** The kinds discovered by a batch, as a set: the default keys of the batch
    that the table does not list. *)
Lemma scheduleAll_seen t ns crd w rs d' m' :
  "CustomResource" ∈ tableKinds t →
  scheduleAll ns crd w rs ([], initResourceKindOrderMap t) = Ok (d', m') →
  NoDup d' ∧ ∀ k, k ∈ d' ↔ (k ∉ tableKinds t) ∧ k ∈ defaultKeys crd rs.
Proof.
  intros Hcr H.
  assert (Hcr' : "CustomResource" ∈ dom (initResourceKindOrderMap t)).
  { rewrite init_dom. by apply elem_of_list_to_set. }
  destruct (scheduleAll_discovered _ _ _ _ _ _ _ _ H) as (dnew & -> & Hnd & Hnew & _).
  pose proof (scheduleAll_dom _ _ _ _ _ _ _ _ Hcr' H) as Hdom.
  destruct (scheduleAll_dom_new _ _ _ _ _ _ _ _ Hcr' H) as (dnew' & Heq & Hdom').
  simpl in Heq. subst dnew'. simpl. split; [done|]. intros k. split.
  - intros Hk. destruct (Hnew k Hk) as [Hk1 Hk2]. split; [|done].
    intros Hin. apply Hk1. rewrite init_dom. by apply elem_of_list_to_set.
  - intros [Hk1 Hk2].
    assert (k ∈ dom m') as Hin.
    { rewrite Hdom. apply elem_of_union. right. by apply elem_of_list_to_set. }
    rewrite Hdom', init_dom in Hin.
    apply elem_of_union in Hin as [Hin|Hin]; by apply elem_of_list_to_set in Hin.
Qed.

Lemma defaultKeys_perm crd rs rs' k :
  rs ≡ₚ rs' → k ∈ defaultKeys crd rs → k ∈ defaultKeys crd rs'.
Proof.
  intros Hp. unfold defaultKeys. rewrite !list_elem_of_omap.
  intros (r & Hr & Hk). exists r. split; [by rewrite <- Hp|done].
Qed.

(** C1 (amended): when the kind-order table lists the reserved key
    [CustomResource], as the default table does, the ordered kind sequence of
    a batch is [PreOrder ++ sorted seen ++ PostOrder], where [seen] holds,
    once each, the default keys of the batch that the table does not list,
    and every permutation of the batch yields the same sequence. *)
Theorem C1_ordered_kind_sequence t rs rs' ns crd w m kinds :
  "CustomResource" ∈ tableKinds t →
  rs ≡ₚ rs' →
  buildDeleteKindOrderedResources t rs ns crd w = Ok (m, kinds) →
  (∃ seen, NoDup seen
     ∧ (∀ k, k ∈ seen ↔ (k ∉ tableKinds t) ∧ k ∈ defaultKeys crd rs)
     ∧ Sorted string_le (sortStrings seen) ∧ sortStrings seen ≡ₚ seen
     ∧ kinds = PreOrder t ++ sortStrings seen ++ PostOrder t)
  ∧ orderedKinds (buildDeleteKindOrderedResources t rs' ns crd w) = Ok kinds.
Proof.
  intros Hcr Hp. unfold buildDeleteKindOrderedResources. intros H.
  destruct (scheduleAll ns crd w rs _) as [[d1 m1]|] eqn:E1; [|done].
  simpl in H. injection H as <- <-.
  destruct (scheduleAll_seen _ _ _ _ _ _ _ Hcr E1) as [Hnd1 Hin1].
  split.
  - exists d1. split; [done|]. split; [done|].
    split; [apply sortStrings_sorted|]. split; [apply sortStrings_perm|done].
  - assert (∃ st2, scheduleAll ns crd w rs' ([], initResourceKindOrderMap t) = Ok st2)
      as [[d2 m2] E2].
    { apply scheduleAll_Ok_iff. rewrite <- Hp.
      apply (scheduleAll_Ok_iff ns crd w rs ([], initResourceKindOrderMap t)). by eexists. }
    rewrite E2. simpl. unfold getOrderedKinds. do 3 f_equal.
    destruct (scheduleAll_seen _ _ _ _ _ _ _ Hcr E2) as [Hnd2 Hin2].
    apply sortStrings_perm_eq, NoDup_Permutation; try done.
    intros k. rewrite Hin1, Hin2. split; intros [? ?]; (split; [done|]).
    + apply (defaultKeys_perm crd rs' rs); [by symmetry|done].
    + by apply (defaultKeys_perm crd rs rs').
Qed.

(** C1, an instance: a claim, a widget of another group and an instance of
    the indexed widget CRD, scheduled in two orders against the default
    table. *)
Lemma C1_ordered_kind_sequence_witness :
  orderedKinds (buildDeleteKindOrderedResources defaultKindDeleteOrder
     [Fixtures.widget; Fixtures.otherWidget; Fixtures.claim] "demo" Fixtures.widgetIndex true)
  = Ok (kindsOf (buildDeleteKindOrderedResources defaultKindDeleteOrder
     [Fixtures.claim; Fixtures.otherWidget; Fixtures.widget] "demo" Fixtures.widgetIndex true)).
Proof.
  eapply (C1_ordered_kind_sequence defaultKindDeleteOrder
            [Fixtures.claim; Fixtures.otherWidget; Fixtures.widget]
            [Fixtures.widget; Fixtures.otherWidget; Fixtures.claim]).
  - by left.
  - apply (Permutation_rev [Fixtures.claim; Fixtures.otherWidget; Fixtures.widget]).
  - apply built_eta. vm_compute. reflexivity.
Defined.

(** C1 as stated fails for a table without the key [CustomResource]: an
    instance of an indexed CRD met first creates the [CustomResource] bucket,
    so a later resource whose literal kind is [CustomResource] is no longer
    recorded as newly seen; met in the other order it is. *)
Lemma C1_counterexample :
  [Fixtures.widget; Fixtures.literalCustomResource]
    ≡ₚ [Fixtures.literalCustomResource; Fixtures.widget]
  ∧ orderedKinds (buildDeleteKindOrderedResources Fixtures.smallTable
       [Fixtures.widget; Fixtures.literalCustomResource] "demo" Fixtures.widgetIndex true)
    = Ok ["Service"; "Pod"]
  ∧ orderedKinds (buildDeleteKindOrderedResources Fixtures.smallTable
       [Fixtures.literalCustomResource; Fixtures.widget] "demo" Fixtures.widgetIndex true)
    = Ok ["Service"; "CustomResource"; "Pod"].
Proof.
  split; [apply perm_swap|]. split; vm_compute; reflexivity.
Qed.

(** ** Wait flags and CRD instances *)

Lemma prepared_claim ns w r0 u0 :
  GetKind u0 = "PersistentVolumeClaim" → Wait (prepared ns w r0 u0) = false.
Proof. intros H. unfold prepared. simpl. by rewrite decide_True. Qed.

Lemma prepared_kind ns w r0 u0 u :
  Obj (prepared ns w r0 u0) = Some u → GetKind u = GetKind u0.
Proof. unfold prepared. simpl. case_decide; by intros [= <-]. Qed.

(** C5: in the delete map built from a batch, every resource whose object
    reports the kind [PersistentVolumeClaim] has [Wait = false], whatever
    wait flag the caller passed; and a claim of the batch is in the map. *)
Theorem C5_claims_never_wait t rs ns crd waitFlag m kinds r0 u0 :
  buildDeleteKindOrderedResources t rs ns crd waitFlag = Ok (m, kinds) →
  r0 ∈ rs → Obj r0 = Some u0 → GetKind u0 = "PersistentVolumeClaim" →
  (∃ k, prepared ns waitFlag r0 u0 ∈ bucket m k)
  ∧ Wait (prepared ns waitFlag r0 u0) = false
  ∧ ∀ k r u, r ∈ bucket m k → Obj r = Some u →
             GetKind u = "PersistentVolumeClaim" → Wait r = false.
Proof.
  unfold buildDeleteKindOrderedResources. intros H Hin Hu Hk.
  destruct (scheduleAll ns crd waitFlag rs _) as [[d1 m1]|] eqn:E1; [|done].
  simpl in H. injection H as <- <-. split; [|split].
  - apply list_elem_of_split in Hin as (before & after & ->).
    destruct (scheduleAll_placed _ _ _ _ _ _ _ _ _ _ E1 Hu) as (d0 & m0 & _ & Hp).
    by eexists.
  - by apply prepared_claim.
  - intros k r u Hr Hru Hku.
    destruct (scheduleAll_buckets _ _ _ _ _ _ _ _ E1 k) as (l & Hl & Hfrom).
    rewrite init_bucket in Hl. simpl in Hl. rewrite Hl in Hr.
    destruct (Hfrom r Hr) as (r1 & u1 & _ & _ & ->).
    apply prepared_claim. by rewrite <- (prepared_kind _ _ _ _ _ Hru).
Qed.

(** C5, an instance: a claim scheduled with [waitFlag = true]. *)
Lemma C5_claims_never_wait_witness :
  (∃ k, prepared "demo" true Fixtures.claim
          (Fixtures.object "" "v1" "PersistentVolumeClaim" "data" ∅ ∅)
        ∈ bucket (bucketsOf (buildDeleteKindOrderedResources defaultKindDeleteOrder
                    [Fixtures.widget; Fixtures.claim] "demo" Fixtures.widgetIndex true)) k)
  ∧ Wait (prepared "demo" true Fixtures.claim
            (Fixtures.object "" "v1" "PersistentVolumeClaim" "data" ∅ ∅)) = false.
Proof.
  assert (Hok : isOk (buildDeleteKindOrderedResources defaultKindDeleteOrder
                        [Fixtures.widget; Fixtures.claim] "demo" Fixtures.widgetIndex true)
                = true) by (vm_compute; reflexivity).
  destruct (C5_claims_never_wait defaultKindDeleteOrder
              [Fixtures.widget; Fixtures.claim] "demo" Fixtures.widgetIndex true _ _
              Fixtures.claim (Fixtures.object "" "v1" "PersistentVolumeClaim" "data" ∅ ∅)
              (built_eta _ Hok))
    as (H1 & H2 & _); [by right; left|reflexivity|reflexivity|].
  by split.
Defined.

Lemma bucketKey_indexed crd known r gvk :
  GVK r = Some gvk → inCrdIndex crd gvk →
  bucketKey crd known r = if decide (Kind gvk ∈ known) then Kind gvk else "CustomResource".
Proof.
  intros HG [b Hb]. unfold bucketKey, defaultKey. by rewrite HG, Hb.
Qed.

(** C6 (amended): an instance of an indexed CRD is appended to the bucket of
    its literal kind when that bucket exists at the moment the resource is
    met, that is when the table lists the kind or an earlier resource of the
    batch took the default branch under the same kind; otherwise it is
    appended to the [CustomResource] bucket.  No other bucket changes. *)
Theorem C6_crd_instance_bucket t before r0 after ns crd w m kinds gvk u0 :
  buildDeleteKindOrderedResources t (before ++ r0 :: after) ns crd w = Ok (m, kinds) →
  GVK r0 = Some gvk → Obj r0 = Some u0 → inCrdIndex crd gvk →
  let key := if decide (Kind gvk ∈ tableKinds t ∨ Kind gvk ∈ defaultKeys crd before)
             then Kind gvk else "CustomResource" in
  ∃ d1 m1 d2 m2,
    scheduleAll ns crd w before ([], initResourceKindOrderMap t) = Ok (d1, m1)
    ∧ scheduleOne ns crd w (d1, m1) r0 = Ok (d2, m2)
    ∧ (∀ k, bucket m2 k = bucket m1 k ++
              (if decide (k = key) then [prepared ns w r0 u0] else []))
    ∧ prepared ns w r0 u0 ∈ bucket m key.
Proof.
  intros H HG Hu Hidx key. unfold buildDeleteKindOrderedResources in H.
  destruct (scheduleAll ns crd w (before ++ r0 :: after) _) as [[d' m']|] eqn:E; [|done].
  simpl in H. injection H as <- <-.
  destruct (scheduleAll_placed _ _ _ _ _ _ _ _ _ _ E Hu) as (d1 & m1 & E1 & Hp).
  destruct (scheduleOne_spec ns crd w d1 m1 r0 u0 Hu) as (d2 & m2 & E2 & _ & Hb & _).
  assert (Hkey : bucketKey crd (dom m1) r0 = key).
  { rewrite (bucketKey_indexed _ _ _ _ HG Hidx). subst key.
    destruct (scheduleAll_dom_bounds _ _ _ _ _ _ _ _ E1) as [Hlo Hhi].
    rewrite init_dom in Hlo, Hhi. clear E E1 E2 Hb Hp.
    destruct (decide (Kind gvk ∈ dom m1)) as [Hin|Hin].
    - case_decide as Hc; [done|]. apply Hhi in Hin. set_solver.
    - rewrite decide_False; [done|]. intros [Hc|Hc]; apply Hin, Hlo; set_solver. }
  rewrite Hkey in Hb, Hp. by exists d1, m1, d2, m2.
Qed.

(** C6, an instance: with the default table a widget of the indexed CRD met
    before any other widget goes to the [CustomResource] bucket. *)
Lemma C6_crd_instance_bucket_witness :
  prepared "demo" true Fixtures.widget (Fixtures.object "example.com" "v1" "Widget" "w1" ∅ ∅)
  ∈ bucket (bucketsOf (buildDeleteKindOrderedResources defaultKindDeleteOrder
              ([Fixtures.claim] ++ Fixtures.widget :: [Fixtures.otherWidget])
              "demo" Fixtures.widgetIndex true)) "CustomResource".
Proof.
  assert (Hok : isOk (buildDeleteKindOrderedResources defaultKindDeleteOrder
                        ([Fixtures.claim] ++ Fixtures.widget :: [Fixtures.otherWidget])
                        "demo" Fixtures.widgetIndex true) = true)
    by (vm_compute; reflexivity).
  destruct (C6_crd_instance_bucket defaultKindDeleteOrder [Fixtures.claim] Fixtures.widget
              [Fixtures.otherWidget] "demo" Fixtures.widgetIndex true _ _
              {| Group := "example.com"; Version := "v1"; Kind := "Widget" |}
              (Fixtures.object "example.com" "v1" "Widget" "w1" ∅ ∅)
              (built_eta _ Hok) eq_refl eq_refl)
    as (d1 & m1 & d2 & m2 & _ & _ & _ & H); [by eexists|].
  exact H.
Defined.

(** C6 as stated fails: the default table has no [Widget] entry, yet the
    instance of the indexed widget CRD is bucketed under [Widget], because a
    widget of another group, met earlier, created that bucket. *)
Lemma C6_counterexample :
  inCrdIndex Fixtures.widgetIndex {| Group := "example.com"; Version := "v1"; Kind := "Widget" |}
  ∧ ("Widget" ∉ tableKinds defaultKindDeleteOrder)
  ∧ isOk (buildDeleteKindOrderedResources defaultKindDeleteOrder
            [Fixtures.otherWidget; Fixtures.widget] "demo" Fixtures.widgetIndex false) = true
  ∧ bucket (bucketsOf (buildDeleteKindOrderedResources defaultKindDeleteOrder
              [Fixtures.otherWidget; Fixtures.widget] "demo" Fixtures.widgetIndex false))
           "Widget" = [Fixtures.otherWidget; Fixtures.widget]
  ∧ bucket (bucketsOf (buildDeleteKindOrderedResources defaultKindDeleteOrder
              [Fixtures.otherWidget; Fixtures.widget] "demo" Fixtures.widgetIndex false))
           "CustomResource" = [].
Proof.
  split; [by eexists|]. split.
  - rewrite list_elem_of_In. vm_compute. intuition discriminate.
  - repeat split; vm_compute; reflexivity.
Qed.

(** ** Delete passes *)

Section DeletePasses.
Context {W : Type} `{!Cluster W}.

Lemma andThen_ret_None (m2 : M W (option error)) w : andThen (ret None) m2 w = m2 w.
Proof. unfold andThen, bind, ret. by destruct (m2 w) as [[b w2] t2]. Qed.

Lemma clearEach_cons namespace r u rest w :
  Obj r = Some u →
  clearEach namespace (r :: rest) w =
  match dynDelete (GVR r) namespace (GetName u) w with
  | (Some e, w1) => (Ok (Some e), w1, [deleteCall namespace r])
  | (None, w1) =>
      ((clearEach namespace rest w1).1.1, (clearEach namespace rest w1).1.2,
       deleteCall namespace r :: (clearEach namespace rest w1).2)
  end.
Proof.
  intros Hu. cbn [clearEach]. rewrite Hu. unfold bind, doDelete, deleteCall, nameOf.
  rewrite Hu. destruct (dynDelete _ _ _ w) as [[e|] w1]; [done|].
  by destruct (clearEach namespace rest w1) as [[b w2] t2].
Qed.

Lemma clearEach_app namespace l1 l2 w :
  clearEach namespace (l1 ++ l2) w
  = andThen (clearEach namespace l1) (clearEach namespace l2) w.
Proof.
  revert w. induction l1 as [|r l1 IH]; intros w.
  - symmetry. apply andThen_ret_None.
  - cbn [app]. destruct (Obj r) as [u|] eqn:Hu.
    + rewrite (clearEach_cons _ _ _ _ _ Hu). unfold andThen, bind at 1.
      rewrite (clearEach_cons _ _ _ _ _ Hu).
      destruct (dynDelete _ _ _ w) as [[e|] w1]; [done|].
      rewrite IH. unfold andThen, bind.
      destruct (clearEach namespace l1 w1) as [[[[e|]|] w2] t2]; simpl; try done.
      by destruct (clearEach namespace l2 w2) as [[b w3] t3].
    + unfold andThen, bind. cbn [clearEach]. by rewrite Hu.
Qed.

(** A delete pass visits the buckets in the order of the kind sequence. *)
Lemma clearNamespacedResources_flat namespace m kinds w :
  clearNamespacedResources namespace m kinds w = clearEach namespace (inOrder m kinds) w.
Proof.
  revert w. induction kinds as [|k kinds IH]; intros w; [done|].
  unfold inOrder. cbn [map List.concat]. rewrite clearEach_app.
  cbn [clearNamespacedResources]. unfold andThen, bind.
  destruct (clearEach namespace (bucket m k) w) as [[[[e|]|] w1] t1]; try done.
  by rewrite IH.
Qed.

Lemma clearEach_succeed namespace done rest w w1 :
  deletesSucceed namespace w done w1 →
  clearEach namespace (done ++ rest) w =
  ((clearEach namespace rest w1).1.1, (clearEach namespace rest w1).1.2,
   map (deleteCall namespace) done ++ (clearEach namespace rest w1).2).
Proof.
  induction 1 as [w|w w1 w2 r u rs Hu Hd Hrs IH].
  - cbn [app map]. by destruct (clearEach namespace rest w) as [[b w2] t2].
  - cbn [app map]. rewrite (clearEach_cons _ _ _ _ _ Hu), Hd, IH. done.
Qed.

Lemma deleteManifestResource_run (r : resource) targetNS w :
  (is_Some (GVK r) → is_Some (Obj r)) →
  deleteManifestResource r targetNS w
  = (Ok tt, (applierRemove (removeNamespace targetNS r) (Manifest r) (Wait r) w).2,
     [removeCall targetNS r]).
Proof.
  intros Hwf. unfold deleteManifestResource, removeCall, removeNamespace, bind, lift, doRemove.
  destruct (GVK r) as [gvk|].
  - destruct Hwf as [u ->]; [by eexists|]. simpl.
    by destruct (applierRemove _ _ _ w) as [reply w'].
  - simpl. by destruct (applierRemove _ _ _ w) as [reply w'].
Qed.

Lemma deleteEach_run rs targetNS w :
  Forall (fun r => is_Some (GVK r) → is_Some (Obj r)) rs →
  ∃ w', deleteEach rs targetNS w = (Ok tt, w', map (removeCall targetNS) rs).
Proof.
  intros Hwf. revert w. induction Hwf as [|r rs Hr Hrs IH]; intros w.
  - by eexists.
  - cbn [deleteEach]. unfold bind. rewrite (deleteManifestResource_run _ _ _ Hr).
    destruct (IH (applierRemove (removeNamespace targetNS r) (Manifest r) (Wait r) w).2)
      as [w' ->]. by eexists.
Qed.

Lemma deleteKinds_run kinds m targetNS w :
  Forall (fun r => is_Some (GVK r) → is_Some (Obj r)) (inOrder m kinds) →
  ∃ w', deleteKinds kinds m targetNS w = (Ok tt, w', map (removeCall targetNS) (inOrder m kinds)).
Proof.
  revert w. induction kinds as [|k kinds IH]; intros w Hwf.
  - by eexists.
  - unfold inOrder in Hwf. cbn [map List.concat] in Hwf.
    apply Forall_app in Hwf as [H1 H2].
    cbn [deleteKinds]. unfold bind.
    destruct (deleteEach_run _ targetNS w H1) as [w1 ->].
    destruct (IH w1 H2) as [w2 ->]. exists w2.
    unfold inOrder. cbn [map List.concat]. by rewrite map_app.
Qed.

(** C9: in a reconciliation delete pass the first delete the cluster
    refuses ends the pass: the pass returns that error and the trace holds
    the deletes up to and including the refused one, nothing after it.
    The manifest delete path, run over the same buckets, calls the applier
    for every resource whatever the applier answers. *)
Theorem C9_first_failure_aborts_pass namespace m kinds done r u rest e w w1 w2 :
  inOrder m kinds = done ++ r :: rest →
  deletesSucceed namespace w done w1 →
  Obj r = Some u →
  dynDelete (GVR r) namespace (GetName u) w1 = (Some e, w2) →
  Forall (fun r => is_Some (Obj r)) rest →
  clearNamespacedResources namespace m kinds w
    = (Ok (Some e), w2, map (deleteCall namespace) (done ++ [r]))
  ∧ ∀ targetNS w0,
      outcome (deleteKinds kinds m targetNS w0) = Ok tt
      ∧ trace (deleteKinds kinds m targetNS w0)
        = map (removeCall targetNS) (done ++ r :: rest).
Proof.
  intros Hflat Hdone Hu Hfail Hrest. split.
  - rewrite clearNamespacedResources_flat, Hflat.
    rewrite (clearEach_succeed _ _ _ _ _ Hdone), (clearEach_cons _ _ _ _ _ Hu), Hfail.
    cbn [fst snd]. by rewrite map_app.
  - intros targetNS w0.
    destruct (deleteKinds_run kinds m targetNS w0) as [w' Hrun].
    + rewrite Hflat. apply Forall_app. split; [|constructor].
      * clear -Hdone. induction Hdone; constructor; [by eexists|done].
      * by eexists.
      * eapply Forall_impl; [exact Hrest|]. naive_solver.
    + rewrite Hrun, Hflat. done.
Qed.
End DeletePasses.

(** ** Listing the live objects of a namespace *)

Section Listing.
Context {W : Type} `{!Cluster W} `{!SelectorLib} {go : Toolchain}.

(** When an object is selected for deletion. *)
Lemma itemVerdict_Selected appSlug isRestore sel u :
  itemVerdict appSlug isRestore sel u = Selected ↔
  mapGet (GetAnnotations u) "kots.io/app-slug" = appSlug
  ∧ GetDeletionTimestamp u = None
  ∧ (isRestore = true →
     GetLabels u !! "velero.io/exclude-from-backup" ≠ Some "true"
     ∧ ∀ s, sel = Some s →
         ∃ c, LabelSelectorAsSelector s = inl c ∧ Matches c (GetLabels u) = true).
Proof.
  unfold itemVerdict, restoreGate.
  destruct isRestore;
    [destruct (decide (GetLabels u !! "velero.io/exclude-from-backup" = Some "true"));
     [|destruct sel as [s|];
       [destruct (LabelSelectorAsSelector s) as [c|err] eqn:Hc;
        [destruct (Matches c (GetLabels u)) eqn:Hm|]|]]|];
    try destruct (decide (mapGet (GetAnnotations u) "kots.io/app-slug" = appSlug));
    try destruct (GetDeletionTimestamp u).
  all: try naive_solver.
  all: split; [done|]; intros (_ & _ & Hr); destruct (Hr eq_refl) as [_ Hs];
       destruct (Hs s eq_refl) as (c' & Hc' & Hm'); congruence.
Qed.

(** The selector is converted anew for every object, so its failure does
    not depend on the object: one selected object rules it out. *)
Lemma itemVerdict_no_failure appSlug isRestore sel u0 u err :
  itemVerdict appSlug isRestore sel u0 = Selected →
  itemVerdict appSlug isRestore sel u ≠ Failed err.
Proof.
  unfold itemVerdict, restoreGate. destruct isRestore.
  - destruct sel as [s|].
    + destruct (LabelSelectorAsSelector s) as [c|e].
      * intros _. repeat case_decide; try done;
          destruct (Matches c (GetLabels u)); try done;
          by destruct (GetDeletionTimestamp u).
      * by case_decide.
    + intros _. repeat case_decide; try done; by destruct (GetDeletionTimestamp u).
  - intros _. case_decide; [|done]. by destruct (GetDeletionTimestamp u).
Qed.

Lemma visitItems_cons appSlug isRestore sel gvr ranged u rest st :
  visitItems appSlug isRestore sel gvr ranged (u :: rest) st =
  match itemVerdict appSlug isRestore sel u with
  | Failed err => inr err
  | Skipped => visitItems appSlug isRestore sel gvr ranged rest st
  | Selected => visitItems appSlug isRestore sel gvr ranged rest
                  (addDefault st (GetKind u) (liveResource gvr ranged u))
  end.
Proof. reflexivity. Qed.

Lemma visitItems_grows appSlug isRestore sel gvr ranged items st st' :
  visitItems appSlug isRestore sel gvr ranged items st = inl st' →
  grows appSlug isRestore sel gvr ranged items st st'.
Proof.
  revert st. induction items as [|u items IH]; intros [d m] Hv.
  - simpl in Hv. injection Hv as <-. split; [done|]. split; [exists []; by rewrite app_nil_r|].
    split; [done|]. intros k. exists []. rewrite app_nil_r. split; [done|].
    split; [by intros r ?%elem_of_nil|by intros u ?%elem_of_nil].
  - rewrite visitItems_cons in Hv.
    destruct (itemVerdict appSlug isRestore sel u) eqn:Ev; [| |done].
    + destruct (IH _ Hv) as (Hd & Hp & Hs & Hb). split; [done|]. split; [done|].
      split; [done|]. intros k. destruct (Hb k) as (l & Hl & Hfrom & Hto).
      exists l. split; [done|]. split.
      * intros r Hr. destruct (Hfrom r Hr) as (u' & ? & ?). exists u'. split; [by right|done].
      * intros u' [->|Hin]%elem_of_cons Hsel Hk; [congruence|by apply Hto].
    + destruct (addDefault_spec d m (GetKind u) (liveResource gvr ranged u))
        as (d1 & m1 & E & Hdom1 & Hb1 & Hd1).
      rewrite E in Hv. destruct (IH _ Hv) as (Hd & [dnew Hp] & Hs & Hb).
      cbn [fst snd] in *. split; [|split; [|split]].
      * intros X HX. apply Hd. rewrite Hdom1, Hd1. clear -HX.
        case_decide; set_solver.
      * rewrite Hp, Hd1. case_decide; [by eexists|].
        rewrite <- app_assoc. by eexists.
      * etrans; [|exact Hs]. rewrite Hdom1. set_solver.
      * intros k. destruct (Hb k) as (l & Hl & Hfrom & Hto). rewrite Hb1 in Hl.
        eexists. split; [by rewrite Hl, <- app_assoc|]. split.
        -- intros r [Hr|Hr]%elem_of_app.
           ++ case_decide as Hk; [|by apply elem_of_nil in Hr].
              apply list_elem_of_singleton in Hr as ->. exists u.
              split; [by left|done].
           ++ destruct (Hfrom r Hr) as (u' & ? & ?). exists u'. split; [by right|done].
        -- intros u' [->|Hin]%elem_of_cons Hsel Hk.
           ++ apply elem_of_app. left. rewrite decide_True by done. by left.
           ++ apply elem_of_app. right. by apply Hto.
Qed.

Lemma visitItems_no_failure appSlug isRestore sel gvr ranged items st :
  (∀ u err, itemVerdict appSlug isRestore sel u ≠ Failed err) →
  ∃ st', visitItems appSlug isRestore sel gvr ranged items st = inl st'.
Proof.
  intros Hno. revert st. induction items as [|u items IH]; intros st; [by eexists|].
  rewrite visitItems_cons. destruct (itemVerdict appSlug isRestore sel u) eqn:Ev;
    [apply IH|apply IH|by destruct (Hno u err)].
Qed.
End Listing.

Section ListPasses.
Context {W : Type} `{!Cluster W} `{!SelectorLib} {go : Toolchain}.

Lemma listAll_cons gvr rest appSlug namespace isRestore sel st w :
  listAll (gvr :: rest) appSlug namespace isRestore sel st w =
  let reply := (dynList gvr namespace w).1 in
  let w1 := (dynList gvr namespace w).2 in
  let continue st1 :=
    ((listAll rest appSlug namespace isRestore sel st1 w1).1.1,
     (listAll rest appSlug namespace isRestore sel st1 w1).1.2,
     EvList gvr namespace :: (listAll rest appSlug namespace isRestore sel st1 w1).2) in
  match reply.1 with
  | None => continue st
  | Some items =>
      match visitItems appSlug isRestore sel gvr items items st with
      | inr err => (Ok (inr err), w1, [EvList gvr namespace])
      | inl st1 => continue st1
      end
  end.
Proof.
  cbn [listAll]. unfold bind, doList.
  destruct (dynList gvr namespace w) as [[items err] w1]. cbn [fst snd].
  destruct items as [items|].
  - destruct (visitItems appSlug isRestore sel gvr items items st) as [st1|e]; [|done].
    by destruct (listAll rest appSlug namespace isRestore sel st1 w1) as [[x w2] t2].
  - by destruct (listAll rest appSlug namespace isRestore sel st w1) as [[x w2] t2].
Qed.

(** Listing never panics. *)
Lemma listAll_returns gvrs appSlug namespace isRestore sel st w :
  ∃ x, outcome (listAll gvrs appSlug namespace isRestore sel st w) = Ok x.
Proof.
  revert st w. induction gvrs as [|gvr rest IH]; intros st w; [by eexists|].
  rewrite listAll_cons. cbv zeta.
  destruct ((dynList gvr namespace w).1.1) as [items|]; [|apply IH].
  destruct (visitItems appSlug isRestore sel gvr items items st); [apply IH|by eexists].
Qed.

(** A list pass that reports no error has listed every endpoint once, and
    the buckets hold, besides what they held before, selected objects only. *)
Lemma listAll_inl gvrs appSlug namespace isRestore sel st w st' w' t :
  listAll gvrs appSlug namespace isRestore sel st w = (Ok (inl st'), w', t) →
  t = map (fun gvr => EvList gvr namespace) gvrs
  ∧ (∀ X : gset string, dom st.2 ⊆ X ∪ list_to_set st.1 →
                         dom st'.2 ⊆ X ∪ list_to_set st'.1)
  ∧ (dom st.2 ⊆ dom st'.2)
  ∧ ∀ k, ∃ l, bucket st'.2 k = bucket st.2 k ++ l
      ∧ ∀ r, r ∈ l → ∃ gvr items u, gvr ∈ gvrs
                        ∧ itemVerdict appSlug isRestore sel u = Selected
                        ∧ r = liveResource gvr items u ∧ k = GetKind u
                        ∧ wasListed gvr namespace items u.
Proof.
  revert st w t. induction gvrs as [|gvr rest IH]; intros st w t Hrun.
  - cbn in Hrun. injection Hrun as <- <- <-. split; [done|]. split; [done|].
    split; [done|]. intros k. exists []. rewrite app_nil_r. split; [done|].
    by intros r ?%elem_of_nil.
  - rewrite listAll_cons in Hrun. cbv zeta in Hrun.
    destruct ((dynList gvr namespace w).1.1) as [items|] eqn:Hitems.
    + destruct (visitItems appSlug isRestore sel gvr items items st) as [st1|e] eqn:Ev; [|done].
      destruct (listAll rest appSlug namespace isRestore sel st1 _) as [[x w2] t2] eqn:El.
      cbn [fst snd] in Hrun. injection Hrun as -> -> <-.
      destruct (IH _ _ _ El) as (-> & Hd & Hs & Hb).
      destruct (visitItems_grows _ _ _ _ _ _ _ _ Ev) as (Hd1 & _ & Hs1 & Hb1).
      split; [done|]. split; [by intros X HX; apply Hd, Hd1|].
      split; [by etrans|]. intros k.
      destruct (Hb k) as (l & Hl & Hfrom). destruct (Hb1 k) as (l1 & Hl1 & Hfrom1 & _).
      exists (l1 ++ l). split; [by rewrite Hl, Hl1, <- app_assoc|].
      intros r [Hr|Hr]%elem_of_app.
      * destruct (Hfrom1 r Hr) as (u & Hu & ? & ? & ?). exists gvr, items, u.
        split; [by left|]. do 3 (split; [done|]). by exists w.
      * destruct (Hfrom r Hr) as (g & its & u & ? & ?). exists g, its, u.
        split; [by right|done].
    + destruct (listAll rest appSlug namespace isRestore sel st _) as [[x w2] t2] eqn:El.
      cbn [fst snd] in Hrun. injection Hrun as -> -> <-.
      destruct (IH _ _ _ El) as (-> & Hd & Hs & Hb).
      split; [done|]. split; [done|]. split; [done|]. intros k.
      destruct (Hb k) as (l & Hl & Hfrom). exists l. split; [done|].
      intros r Hr. destruct (Hfrom r Hr) as (g & its & u & ? & ?). exists g, its, u.
      split; [by right|done].
Qed.

(** The trace of a list pass holds list calls only. *)
Lemma listAll_trace gvrs appSlug namespace isRestore sel st w :
  Forall (fun e => isList e = true)
         (trace (listAll gvrs appSlug namespace isRestore sel st w)).
Proof.
  revert st w. induction gvrs as [|gvr rest IH]; intros st w; [constructor|].
  rewrite listAll_cons. cbv zeta.
  destruct ((dynList gvr namespace w).1.1) as [items|].
  - destruct (visitItems appSlug isRestore sel gvr items items st).
    + constructor; [done|apply IH].
    + by repeat constructor.
  - constructor; [done|apply IH].
Qed.

Lemma build_run gvrs appSlug namespace isRestore sel t w :
  buildDeleteKindOrderedNamespaceResources gvrs appSlug namespace isRestore sel t w =
  let run := listAll gvrs appSlug namespace isRestore sel ([], initResourceKindOrderMap t) w in
  match outcome run with
  | Ok (inl st) => (Ok (inl (st.2, getOrderedKinds t st.1)), final run, trace run)
  | Ok (inr err) => (Ok (inr err), final run, trace run)
  | Panic => (Panic, final run, trace run)
  end.
Proof.
  unfold buildDeleteKindOrderedNamespaceResources, bind, outcome, final, trace. cbv zeta.
  destruct (listAll gvrs appSlug namespace isRestore sel _ w) as [[[[[d m]|e]|] w1] t1];
    cbn; by rewrite ?app_nil_r.
Qed.

Lemma build_trace gvrs appSlug namespace isRestore sel t w :
  Forall (fun e => isList e = true)
         (trace (buildDeleteKindOrderedNamespaceResources gvrs appSlug namespace
                   isRestore sel t w)).
Proof.
  rewrite build_run. cbv zeta.
  pose proof (listAll_trace gvrs appSlug namespace isRestore sel
                ([], initResourceKindOrderMap t) w) as Hl.
  by destruct (outcome _) as [[[? ?]|?]|].
Qed.

(** What a successful list pass hands to the delete pass. *)
Lemma build_inl gvrs appSlug namespace isRestore sel t w m kinds w' tr :
  buildDeleteKindOrderedNamespaceResources gvrs appSlug namespace isRestore sel t w
    = (Ok (inl (m, kinds)), w', tr) →
  tr = map (fun gvr => EvList gvr namespace) gvrs
  ∧ (∀ k, k ∈ dom m → k ∈ kinds)
  ∧ ∀ k r, r ∈ bucket m k →
      ∃ gvr items u, gvr ∈ gvrs ∧ itemVerdict appSlug isRestore sel u = Selected
               ∧ r = liveResource gvr items u ∧ k = GetKind u
               ∧ wasListed gvr namespace items u.
Proof.
  rewrite build_run. cbv zeta.
  destruct (listAll gvrs appSlug namespace isRestore sel _ w) as [[[[[d1 m1]|e]|] w1] t1] eqn:El;
    cbn; intros Hb; try done.
  injection Hb as <- <- <- <-.
  destruct (listAll_inl _ _ _ _ _ _ _ _ _ _ El) as (-> & Hd & _ & Hbk). cbn [fst snd] in *.
  split; [done|]. split.
  - intros k Hk. apply (Hd (list_to_set (tableKinds t))) in Hk.
    + unfold getOrderedKinds, tableKinds in *.
      rewrite !elem_of_app, sortStrings_perm. clear -Hk. set_solver.
    + rewrite init_dom. set_solver.
  - intros k r Hr. destruct (Hbk k) as (l & Hl & Hfrom).
    rewrite init_bucket in Hl. rewrite Hl in Hr. by apply Hfrom.
Qed.

(** The delete map of a list pass keeps the buckets initialised from the
    table, so with a non-empty table the test [len(resourcesToDelete) == 0]
    of [clearNamespaces] never holds. *)
Lemma build_never_empty gvrs appSlug namespace isRestore sel t w m kinds w' tr :
  tableKinds t ≠ [] →
  buildDeleteKindOrderedNamespaceResources gvrs appSlug namespace isRestore sel t w
    = (Ok (inl (m, kinds)), w', tr) →
  size m ≠ 0.
Proof.
  intros Ht. rewrite build_run. cbv zeta.
  destruct (listAll gvrs appSlug namespace isRestore sel _ w) as [[[[[d1 m1]|e]|] w1] t1] eqn:El;
    cbn; intros Hb; try done.
  injection Hb as <- <- <- <-.
  destruct (listAll_inl _ _ _ _ _ _ _ _ _ _ El) as (_ & _ & Hs & _). cbn [fst snd] in Hs.
  rewrite init_dom in Hs. intros ->%map_size_empty_inv.
  destruct (tableKinds t) as [|k ks]; [done|].
  assert (k ∈ dom (∅ : gmap string (list resource))) as Hk
    by (apply Hs, elem_of_list_to_set; by left).
  by rewrite dom_empty_L in Hk.
Qed.
End ListPasses.

(** ** The retry loop *)

Section Retry.
Context {W : Type} `{!Cluster W} `{!SelectorLib} {go : Toolchain}.

(** One turn of the loop [for i := 60; i >= 0; i--]. *)
Lemma retryLoop_unfold i appSlug namespace isRestore sel t gvrs w :
  retryLoop i appSlug namespace isRestore sel t gvrs w =
  let runL := buildDeleteKindOrderedNamespaceResources gvrs appSlug namespace isRestore sel t w in
  match outcome runL with
  | Panic => (Panic, final runL, trace runL)
  | Ok (inr _) => (Ok Break, final runL, trace runL)
  | Ok (inl (m, kinds)) =>
      if decide (size m = 0) then (Ok Break, final runL, trace runL)
      else
        let runD := clearNamespacedResources namespace m kinds (final runL) in
        match outcome runD with
        | Panic => (Panic, final runD, trace runL ++ trace runD)
        | Ok None => (Ok Break, final runD, trace runL ++ trace runD)
        | Ok (Some _) =>
            match i with
            | O => (Ok (Return (failedToClear appSlug namespace)), final runD,
                    trace runL ++ trace runD)
            | S i' =>
                let runR := retryLoop i' appSlug namespace isRestore sel t gvrs
                                      (timeSleep 2 (final runD)) in
                (outcome runR, final runR,
                 trace runL ++ trace runD ++ EvSleep 2 :: trace runR)
            end
        end
  end.
Proof.
  destruct i as [|i']; cbn [retryLoop]; unfold bind at 1; cbv zeta;
    unfold outcome, final, trace;
    destruct (buildDeleteKindOrderedNamespaceResources gvrs appSlug namespace isRestore sel t w)
      as [[[[[m kinds]|e]|] w1] t1]; cbn [fst snd]; unfold ret; rewrite ?app_nil_r; try done.
  all: destruct (decide (size m = 0)); [by rewrite app_nil_r|].
  all: unfold bind at 1;
       destruct (clearNamespacedResources namespace m kinds w1) as [[[[e|]|] w2] t2];
       cbn [fst snd]; rewrite ?app_nil_r; try done.
  unfold bind, doSleep.
  by destruct (retryLoop i' appSlug namespace isRestore sel t gvrs (timeSleep 2 w2))
    as [[x w3] t3].
Qed.

Lemma clearEachNamespace_cons appSlug namespace rest isRestore sel t gvrs w :
  clearEachNamespace appSlug (namespace :: rest) isRestore sel t gvrs w =
  let runN := retryLoop 60 appSlug namespace isRestore sel t gvrs w in
  match outcome runN with
  | Panic => (Panic, final runN, trace runN)
  | Ok (Return err) => (Ok (Some err), final runN, trace runN)
  | Ok Break =>
      let runR := clearEachNamespace appSlug rest isRestore sel t gvrs (final runN) in
      (outcome runR, final runR, trace runN ++ trace runR)
  end.
Proof.
  cbn [clearEachNamespace]. unfold bind, outcome, final, trace. cbv zeta.
  destruct (retryLoop 60 appSlug namespace isRestore sel t gvrs w) as [[[[|err]|] w1] t1];
    cbn [fst snd]; unfold ret; rewrite ?app_nil_r; try done.
  by destruct (clearEachNamespace appSlug rest isRestore sel t gvrs w1) as [[x w2] t2].
Qed.

Lemma clearNamespaces_run appSlug namespaces isRestore sel t gvrs w :
  clearNamespaces appSlug namespaces isRestore sel t gvrs w =
  let runA := clearEachNamespace appSlug namespaces isRestore sel t (deletionGVRsOf gvrs) w in
  match outcome runA with
  | Panic => (Panic, final runA, trace runA)
  | Ok (Some e) => (Ok (Some e), final runA, trace runA)
  | Ok None =>
      match namespaces with
      | [] => (Ok None, final runA, trace runA)
      | _ :: _ => (Ok None, timeSleep 20 (final runA), trace runA ++ [EvSleep 20])
      end
  end.
Proof.
  unfold clearNamespaces, bind, outcome, final, trace. cbv zeta.
  destruct (clearEachNamespace appSlug namespaces isRestore sel t (deletionGVRsOf gvrs) w)
    as [[[[e|]|] w1] t1]; cbn [fst snd]; unfold ret; rewrite ?app_nil_r; try done.
  destruct namespaces as [|n ns]; cbn [List.length].
  - rewrite decide_False by lia. cbn. by rewrite app_nil_r.
  - rewrite decide_True by lia. done.
Qed.




End Retry.

(** ** Exhausting the retry budget *)

Section Exhaustion.
Context {W : Type} `{!Cluster W} `{!SelectorLib} {go : Toolchain}.

Variables (appSlug namespace : string) (isRestore : bool) (sel : option LabelSelector).
Variables (t : KindOrder) (deletionGVRs : list GroupVersionResource).

(** A condition of the cluster that no call of the reconciler changes:
    listing the endpoint [gvr0] keeps returning an object the reconciler
    selects, and the cluster refuses every delete. *)
Variable Inv : W → Prop.
Variable gvr0 : GroupVersionResource.
Hypothesis gvr0_listed : gvr0 ∈ deletionGVRs.
Hypothesis Inv_list : ∀ gvr w, Inv w → Inv (dynList gvr namespace w).2.
Hypothesis Inv_delete : ∀ gvr name w, Inv w → Inv (dynDelete gvr namespace name w).2.
Hypothesis Inv_sleep : ∀ s w, Inv w → Inv (timeSleep s w).
Hypothesis still_listed : ∀ w, Inv w →
  ∃ items u, (dynList gvr0 namespace w).1.1 = Some items ∧ u ∈ items
             ∧ itemVerdict appSlug isRestore sel u = Selected.
Hypothesis refused : ∀ gvr name w, Inv w →
  ∃ e, (dynDelete gvr namespace name w).1 = Some e.

Lemma listAll_stuck gvrs st w :
  Inv w →
  ∃ st' w' tr,
    listAll gvrs appSlug namespace isRestore sel st w = (Ok (inl st'), w', tr)
    ∧ Inv w'
    ∧ (gvr0 ∈ gvrs → ∃ items u, liveResource gvr0 items u ∈ bucket st'.2 (GetKind u)).
Proof.
  revert st w. induction gvrs as [|gvr rest IH]; intros st w Hw.
  - eexists _, _, _. split; [done|]. split; [done|]. by intros ?%elem_of_nil.
  - rewrite listAll_cons. cbv zeta.
    assert (Hno : ∀ u err, itemVerdict appSlug isRestore sel u ≠ Failed err).
    { intros u err. destruct (still_listed w Hw) as (items & u0 & _ & _ & Hsel).
      by apply (itemVerdict_no_failure _ _ _ u0). }
    pose proof (Inv_list gvr w Hw) as Hw1.
    destruct ((dynList gvr namespace w).1.1) as [items|] eqn:Hitems.
    + destruct (visitItems_no_failure appSlug isRestore sel gvr items items st Hno) as [st1 Ev].
      rewrite Ev. destruct (IH st1 _ Hw1) as (st' & w' & tr & El & Hw' & Hin).
      rewrite El. eexists _, _, _. split; [done|]. split; [done|].
      intros [<-|Hrest]%elem_of_cons; [|by apply Hin].
      destruct (still_listed w Hw) as (items' & u & Hitems' & Hu & Hsel).
      rewrite Hitems in Hitems'. injection Hitems' as <-.
      destruct (visitItems_grows _ _ _ _ _ _ _ _ Ev) as (_ & _ & _ & Hb).
      destruct (Hb (GetKind u)) as (l & Hl & _ & Hto).
      destruct (listAll_inl _ _ _ _ _ _ _ _ _ _ El) as (_ & _ & _ & Hb').
      destruct (Hb' (GetKind u)) as (l' & Hl' & _).
      exists items, u. rewrite Hl', Hl. apply elem_of_app. left. apply elem_of_app. right.
      by apply Hto.
    + destruct (IH st _ Hw1) as (st' & w' & tr & El & Hw' & Hin).
      rewrite El. eexists _, _, _. split; [done|]. split; [done|].
      intros [<-|Hrest]%elem_of_cons; [|by apply Hin].
      destruct (still_listed w Hw) as (items' & u & Hitems' & _). congruence.
Qed.

Lemma build_stuck w :
  Inv w →
  ∃ m kinds w' tr,
    buildDeleteKindOrderedNamespaceResources deletionGVRs appSlug namespace isRestore sel t w
      = (Ok (inl (m, kinds)), w', tr)
    ∧ Inv w' ∧ size m ≠ 0 ∧ inOrder m kinds ≠ []
    ∧ Forall (fun r => is_Some (Obj r)) (inOrder m kinds).
Proof.
  intros Hw.
  destruct (listAll_stuck deletionGVRs ([], initResourceKindOrderMap t) w Hw)
    as ([d m] & w' & tr & El & Hw' & Hin).
  destruct (Hin gvr0_listed) as (items & u & Hu). cbn [snd] in Hu.
  assert (Hb : buildDeleteKindOrderedNamespaceResources deletionGVRs appSlug namespace
                 isRestore sel t w = (Ok (inl (m, getOrderedKinds t d)), w', tr)).
  { rewrite build_run. cbv zeta. by rewrite El. }
  exists m, (getOrderedKinds t d), w', tr. split; [done|]. split; [done|].
  destruct (build_inl _ _ _ _ _ _ _ _ _ _ _ Hb) as (_ & Hk & Hfrom).
  assert (Hdom : GetKind u ∈ dom m).
  { apply elem_of_dom. unfold bucket in Hu. destruct (m !! GetKind u); [by eexists|].
    by apply elem_of_nil in Hu. }
  assert (Hflat : liveResource gvr0 items u ∈ inOrder m (getOrderedKinds t d)).
  { unfold inOrder. apply list_elem_of_In, in_concat. exists (bucket m (GetKind u)).
    split; [|by apply list_elem_of_In].
    apply in_map, list_elem_of_In. by apply Hk. }
  split; [|split].
  - intros ->%map_size_empty_inv. by rewrite dom_empty_L in Hdom.
  - intros Hnil. rewrite Hnil in Hflat. by apply elem_of_nil in Hflat.
  - apply Forall_forall. intros r Hr.
    unfold inOrder in Hr. apply list_elem_of_In, in_concat in Hr as (l & Hl & Hr).
    apply in_map_iff in Hl as (k & <- & _). apply list_elem_of_In in Hr.
    destruct (Hfrom k r Hr) as (g & its & u' & _ & _ & -> & _). by eexists.
Qed.

Lemma clearEach_refused rs w :
  Inv w → rs ≠ [] → Forall (fun r => is_Some (Obj r)) rs →
  ∃ e w' tr, clearEach namespace rs w = (Ok (Some e), w', tr) ∧ Inv w'.
Proof.
  intros Hw Hne Hobj. destruct rs as [|r rs]; [done|].
  apply Forall_cons in Hobj as [[u Hu] _].
  rewrite (clearEach_cons _ _ _ _ _ Hu).
  destruct (refused (GVR r) (GetName u) w Hw) as [e He].
  pose proof (Inv_delete (GVR r) (GetName u) w Hw) as Hw1.
  destruct (dynDelete (GVR r) namespace (GetName u) w) as [e' w1].
  cbn [fst snd] in *. subst e'. by eexists _, _, _.
Qed.

(** A cluster in that condition exhausts any budget. *)
Lemma stuck_exhausted i w :
  Inv w → exhausted appSlug namespace isRestore sel t deletionGVRs i w.
Proof.
  revert w. induction i as [|i IH]; intros w Hw.
  all: destruct (build_stuck w Hw) as (m & kinds & w1 & t1 & Hb & Hw1 & Hsz & Hne & Hobj).
  all: destruct (clearEach_refused _ w1 Hw1 Hne Hobj) as (e & w2 & t2 & Hc & Hw2).
  all: rewrite <- clearNamespacedResources_flat in Hc.
  - by eapply exhausted_last.
  - eapply exhausted_more; [done..|]. apply IH. by apply Inv_sleep.
Qed.
End Exhaustion.

Section ExhaustedBudget.
Context {W : Type} `{!Cluster W} `{!SelectorLib} {go : Toolchain}.

Lemma retryLoop_exhausted i appSlug namespace isRestore sel t gvrs w :
  exhausted appSlug namespace isRestore sel t gvrs i w →
  outcome (retryLoop i appSlug namespace isRestore sel t gvrs w)
  = Ok (Return (failedToClear appSlug namespace)).
Proof.
  induction 1 as [w m kinds w1 t1 e w2 t2 Hb Hsz Hc
                 |i w m kinds w1 t1 e w2 t2 Hb Hsz Hc _ IH].
  all: rewrite retryLoop_unfold; cbv zeta; rewrite Hb.
  all: cbn [outcome final trace fst snd]; rewrite decide_False by done.
  all: rewrite Hc; cbn [outcome final trace fst snd]; done.
Qed.

(** The error leaves the loop in no other way. *)
Lemma retryLoop_Return_inv i appSlug namespace isRestore sel t gvrs w err :
  outcome (retryLoop i appSlug namespace isRestore sel t gvrs w) = Ok (Return err) →
  exhausted appSlug namespace isRestore sel t gvrs i w
  ∧ err = failedToClear appSlug namespace.
Proof.
  revert w. induction i as [|i IH]; intros w.
  all: rewrite retryLoop_unfold; cbv zeta.
  all: destruct (buildDeleteKindOrderedNamespaceResources gvrs appSlug namespace
                   isRestore sel t w) as [[[[[m kinds]|e]|] w1] t1] eqn:Hb.
  all: cbn [outcome final trace fst snd]; try done.
  all: destruct (decide (size m = 0)); [done|].
  all: destruct (clearNamespacedResources namespace m kinds w1) as [[[[e|]|] w2] t2] eqn:Hc.
  all: cbn [outcome final trace fst snd]; try done.
  - intros [= <-]. split; [by eapply exhausted_last|done].
  - intros Hr. destruct (IH _ Hr) as [Hex ->]. split; [by eapply exhausted_more|done].
Qed.

End ExhaustedBudget.

(** ** What the reconciler deletes *)

Section OnlyOwned.
Context {W : Type} `{!Cluster W} `{!SelectorLib} {go : Toolchain}.

Lemma selected_owned appSlug isRestore sel u :
  itemVerdict appSlug isRestore sel u = Selected → ownedAndRestorable appSlug isRestore sel u.
Proof.
  intros (Ha & _ & Hr)%itemVerdict_Selected. split; [done|]. split; [|done].
  intros Hne. unfold mapGet in Ha.
  destruct (GetAnnotations u !! "kots.io/app-slug") as [v|]; simpl in Ha; by subst.
Qed.

Lemma pass_eta (x : result (gmap string (list resource) * KindSortOrder + error)
                    * W * list Event) :
  passOk x = true → x = (Ok (inl (passBuckets x, passKinds x)), final x, trace x).
Proof.
  unfold passOk, passBuckets, passKinds, outcome, final, trace.
  by destruct x as [[[[[m kinds]|e]|] w] tr].
Qed.

Lemma clearEach_trace namespace rs w :
  Forall (fun e => ∃ r, r ∈ rs ∧ e = deleteCall namespace r)
         (trace (clearEach namespace rs w)).
Proof.
  revert w. induction rs as [|r rs IH]; intros w; [constructor|].
  destruct (Obj r) as [u|] eqn:Hu.
  - rewrite (clearEach_cons _ _ _ _ _ Hu).
    destruct (dynDelete (GVR r) namespace (GetName u) w) as [[e|] w1].
    + constructor; [|constructor]. exists r. split; [by left|done].
    + constructor; [exists r; split; [by left|done]|].
      eapply Forall_impl; [apply IH|]. intros e (r' & ? & ?). exists r'. split; [by right|done].
  - cbn [clearEach]. rewrite Hu. constructor.
Qed.

Lemma retryLoop_trace i appSlug namespace isRestore sel t gvrs w :
  Forall (harmless appSlug isRestore sel)
         (trace (retryLoop i appSlug namespace isRestore sel t gvrs w)).
Proof.
  revert w. induction i as [|i IH]; intros w.
  all: rewrite retryLoop_unfold; cbv zeta.
  all: destruct (buildDeleteKindOrderedNamespaceResources gvrs appSlug namespace
                   isRestore sel t w) as [[[[[m kinds]|e]|] w1] t1] eqn:Hb.
  all: assert (Ht1 : Forall (harmless appSlug isRestore sel) t1)
         by (pose proof (build_trace gvrs appSlug namespace isRestore sel t w) as Hl;
             rewrite Hb in Hl; eapply Forall_impl; [exact Hl|]; by intros [] ?).
  all: cbn [outcome final trace fst snd]; try done.
  all: destruct (decide (size m = 0)); [done|].
  all: assert (Ht2 : Forall (harmless appSlug isRestore sel)
                       (trace (clearNamespacedResources namespace m kinds w1)))
         by (rewrite clearNamespacedResources_flat;
             eapply Forall_impl; [apply clearEach_trace|];
             intros ev (r & Hr & ->);
             unfold inOrder in Hr; apply list_elem_of_In, in_concat in Hr as (l & Hl & Hr);
             apply in_map_iff in Hl as (k & <- & _); apply list_elem_of_In in Hr;
             destruct (build_inl _ _ _ _ _ _ _ _ _ _ _ Hb) as (_ & _ & Hfrom);
             destruct (Hfrom k r Hr) as (g & its & u & _ & Hsel & -> & _ & Hwas);
             by exists its, u).
  all: destruct (clearNamespacedResources namespace m kinds w1) as [[[[err|]|] w2] t2];
       cbn [outcome final trace fst snd] in *.
  all: try (apply Forall_app; by split).
  apply Forall_app. split; [done|]. apply Forall_app. split; [done|].
  constructor; [done|]. apply IH.
Qed.

Lemma clearEachNamespace_trace appSlug namespaces isRestore sel t gvrs w :
  Forall (harmless appSlug isRestore sel)
         (trace (clearEachNamespace appSlug namespaces isRestore sel t gvrs w)).
Proof.
  revert w. induction namespaces as [|namespace rest IH]; intros w; [constructor|].
  rewrite clearEachNamespace_cons. cbv zeta.
  pose proof (retryLoop_trace 60 appSlug namespace isRestore sel t gvrs w) as Hn.
  destruct (retryLoop 60 appSlug namespace isRestore sel t gvrs w) as [[[[|err]|] w1] t1];
    cbn [outcome final trace fst snd] in *; try done.
  apply Forall_app. split; [done|apply IH].
Qed.

Lemma clearNamespaces_trace appSlug namespaces isRestore sel t gvrs w :
  Forall (harmless appSlug isRestore sel)
         (trace (clearNamespaces appSlug namespaces isRestore sel t gvrs w)).
Proof.
  rewrite clearNamespaces_run. cbv zeta.
  pose proof (clearEachNamespace_trace appSlug namespaces isRestore sel t
                (deletionGVRsOf gvrs) w) as Ha.
  destruct (clearEachNamespace appSlug namespaces isRestore sel t (deletionGVRsOf gvrs) w)
    as [[[[e|]|] w1] t1]; cbn [outcome final trace fst snd] in *; try done.
  destruct namespaces; [done|]. cbn [trace snd]. apply Forall_app. split; [done|].
  by repeat constructor.
Qed.

(** Every resource a list pass puts in the delete set was built for a
    listed object that passes the selection tests: its [kots.io/app-slug]
    annotation reads as the target slug and, in restore mode, it is not
    excluded from backup and matches the restore selector when one is
    given. *)
Lemma delete_set_selected appSlug namespace isRestore sel t gvrs w m kinds w' tr k r :
  buildDeleteKindOrderedNamespaceResources gvrs appSlug namespace
    isRestore sel t w = (Ok (inl (m, kinds)), w', tr) →
  r ∈ bucket m k →
  ∃ gvr items u, r = liveResource gvr items u ∧ k = GetKind u
                 ∧ wasListed gvr namespace items u
                 ∧ ownedAndRestorable appSlug isRestore sel u.
Proof.
  intros Hb Hr. destruct (build_inl _ _ _ _ _ _ _ _ _ _ _ Hb) as (_ & _ & Hfrom).
  destruct (Hfrom k r Hr) as (g & its & u & _ & Hsel & -> & -> & Hwas).
  exists g, its, u. do 3 (split; [done|]). by apply selected_owned.
Qed.

(** Every delete of a reconciliation is issued for such an object, on the
    endpoint and in the namespace it was listed in; the name in the call is
    the name of the object the resource points at. *)
Lemma deletes_selected appSlug namespaces isRestore sel t gvrs w gvr ns name :
  EvDelete gvr ns name ∈ trace (clearNamespaces appSlug namespaces isRestore sel t gvrs w) →
  ∃ items u, name = GetName (pointee items u) ∧ wasListed gvr ns items u
             ∧ ownedAndRestorable appSlug isRestore sel u.
Proof.
  intros Hin.
  pose proof (clearNamespaces_trace appSlug namespaces isRestore sel t gvrs w) as Ht.
  rewrite Forall_forall in Ht. destruct (Ht _ Hin) as (its & u & -> & Hsel & Hwas).
  exists its, u. do 2 (split; [done|]). by apply selected_owned.
Qed.

(** With a range variable per iteration and a target slug that is not
    empty, the objects deleted carry the annotation with the target slug. *)
Lemma deletes_annotated appSlug namespaces isRestore sel t gvrs w gvr ns name :
  rangeVariables = PerIteration → appSlug ≠ "" →
  EvDelete gvr ns name ∈ trace (clearNamespaces appSlug namespaces isRestore sel t gvrs w) →
  ∃ items u, name = GetName u ∧ wasListed gvr ns items u
             ∧ GetAnnotations u !! "kots.io/app-slug" = Some appSlug.
Proof.
  intros Hgo Hslug Hin.
  destruct (deletes_selected _ _ _ _ _ _ _ _ _ _ Hin) as (its & u & -> & Hwas & _ & Hann & _).
  exists its, u. unfold pointee. rewrite Hgo. auto.
Qed.
End OnlyOwned.

(** ** The calls of a retry loop stay in its namespace *)

Section Confinement.
Context {W : Type} `{!Cluster W} `{!SelectorLib} {go : Toolchain}.

Lemma within_weaken gvr gvrs namespace e : within gvrs namespace e → within (gvr :: gvrs) namespace e.
Proof. destruct e; simpl; try done; intros [? ?]; split; auto; by right. Qed.

Lemma listAll_within gvrs appSlug namespace isRestore sel st w :
  Forall (within gvrs namespace) (trace (listAll gvrs appSlug namespace isRestore sel st w)).
Proof.
  revert st w. induction gvrs as [|gvr rest IH]; intros st w; [constructor|].
  rewrite listAll_cons. cbv zeta.
  assert (Hhd : within (gvr :: rest) namespace (EvList gvr namespace)) by (split; [by left|done]).
  assert (Htl : ∀ st1 w1, Forall (within (gvr :: rest) namespace)
                  (trace (listAll rest appSlug namespace isRestore sel st1 w1))).
  { intros st1 w1. eapply Forall_impl; [apply IH|]. apply within_weaken. }
  destruct ((dynList gvr namespace w).1.1) as [items|].
  - destruct (visitItems appSlug isRestore sel gvr items items st).
    + constructor; [done|apply Htl].
    + by repeat constructor.
  - constructor; [done|apply Htl].
Qed.

Lemma build_within gvrs appSlug namespace isRestore sel t w :
  Forall (within gvrs namespace)
         (trace (buildDeleteKindOrderedNamespaceResources gvrs appSlug namespace
                   isRestore sel t w)).
Proof.
  rewrite build_run. cbv zeta.
  pose proof (listAll_within gvrs appSlug namespace isRestore sel
                ([], initResourceKindOrderMap t) w) as Hl.
  by destruct (outcome _) as [[?|?]|].
Qed.

Lemma inOrder_bucket m kinds r : r ∈ inOrder m kinds → ∃ k, r ∈ bucket m k.
Proof.
  unfold inOrder. intros Hr. apply list_elem_of_In, in_concat in Hr as (l & Hl & Hr).
  apply in_map_iff in Hl as (k & <- & _). apply list_elem_of_In in Hr. eauto.
Qed.

(** The delete pass that follows a list pass stays on the endpoints listed
    and does not panic. *)
Lemma clear_after_build gvrs appSlug namespace isRestore sel t w m kinds w1 t1 :
  buildDeleteKindOrderedNamespaceResources gvrs appSlug namespace isRestore sel t w
    = (Ok (inl (m, kinds)), w1, t1) →
  Forall (within gvrs namespace) (trace (clearNamespacedResources namespace m kinds w1))
  ∧ ∃ err, outcome (clearNamespacedResources namespace m kinds w1) = Ok err.
Proof.
  intros Hb. destruct (build_inl _ _ _ _ _ _ _ _ _ _ _ Hb) as (_ & _ & Hfrom).
  rewrite clearNamespacedResources_flat.
  assert (Hall : Forall (fun r => ∃ gvr items u, gvr ∈ gvrs ∧ r = liveResource gvr items u)
                        (inOrder m kinds)).
  { rewrite Forall_forall. intros r Hr. apply inOrder_bucket in Hr as (k & Hr).
    destruct (Hfrom k r Hr) as (g & its & u & ? & _ & ? & _). eauto. }
  clear Hb Hfrom. revert w1.
  induction Hall as [|r rs (g & its & u & Hg & ->) _ IH]; intros w1.
  - split; [constructor | by eexists].
  - rewrite (clearEach_cons _ _ (pointee its u)) by done.
    destruct (dynDelete _ namespace (GetName (pointee its u)) w1) as [[e|] w2].
    + split; [by repeat constructor | by eexists].
    + destruct (IH w2) as [Ht Ho]. cbn [outcome trace fst snd] in *. split; [|done].
      constructor; [by split | done].
Qed.

Lemma retryLoop_within i appSlug namespace isRestore sel t gvrs w :
  Forall (within gvrs namespace) (trace (retryLoop i appSlug namespace isRestore sel t gvrs w))
  ∧ (outcome (retryLoop i appSlug namespace isRestore sel t gvrs w) = Ok Break
     ∨ outcome (retryLoop i appSlug namespace isRestore sel t gvrs w)
       = Ok (Return (failedToClear appSlug namespace))).
Proof.
  revert w. induction i as [|i IH]; intros w.
  all: rewrite retryLoop_unfold; cbv zeta.
  all: pose proof (build_within gvrs appSlug namespace isRestore sel t w) as Ht1.
  all: pose proof (build_run gvrs appSlug namespace isRestore sel t w) as Hrun.
  all: destruct (listAll_returns gvrs appSlug namespace isRestore sel
                   ([], initResourceKindOrderMap t) w) as (x & Hx).
  all: cbv zeta in Hrun; rewrite Hx in Hrun.
  all: destruct (buildDeleteKindOrderedNamespaceResources gvrs appSlug namespace
                   isRestore sel t w) as [[[[[m kinds]|e]|] w1] t1] eqn:Hb.
  all: cbn [outcome final trace fst snd] in *; try (split; [done | by left]).
  all: try (by destruct x as [?|?]).
  all: destruct (decide (size m = 0)); [split; [done | by left]|].
  all: destruct (clear_after_build _ _ _ _ _ _ _ _ _ _ _ Hb) as [Ht2 [err Herr]].
  all: destruct (clearNamespacedResources namespace m kinds w1) as [[[[e|]|] w2] t2];
       cbn [outcome final trace fst snd] in *; try discriminate.
  all: try (split; [apply Forall_app; by split | by (left + right)]).
  destruct (IH (timeSleep 2 w2)) as [Ht3 Ho3]. split; [|done].
  apply Forall_app. split; [done|]. apply Forall_app. split; [done|].
  constructor; [done|apply Ht3].
Qed.
End Confinement.

(** ** The size of the retry budget *)

Lemma count_app (f : Event → bool) (t1 t2 : list Event) :
  List.length (List.filter f (t1 ++ t2))
  = (List.length (List.filter f t1) + List.length (List.filter f t2))%nat.
Proof. by rewrite List.filter_app, List.length_app. Qed.

Lemma count_none (f : Event → bool) (t : list Event) :
  Forall (fun e => f e = false) t → List.length (List.filter f t) = 0%nat.
Proof. induction 1 as [|e t He _ IH]; [done|]. cbn. by rewrite He. Qed.

Lemma count_le (f : Event → bool) (t : list Event) :
  (List.length (List.filter f t) ≤ List.length t)%nat.
Proof. induction t as [|e t IH]; [done|]. cbn. destruct (f e); cbn; lia. Qed.

Section Budget.
Context {W : Type} `{!Cluster W} `{!SelectorLib} {go : Toolchain}.

Lemma listAll_trace_length gvrs appSlug namespace isRestore sel st w :
  (List.length (trace (listAll gvrs appSlug namespace isRestore sel st w))
   ≤ List.length gvrs)%nat.
Proof.
  revert st w. induction gvrs as [|gvr rest IH]; intros st w; [done|].
  rewrite listAll_cons. cbv zeta.
  destruct ((dynList gvr namespace w).1.1) as [items|].
  - destruct (visitItems appSlug isRestore sel gvr items items st) as [st1|e].
    + cbn. specialize (IH st1 (dynList gvr namespace w).2). unfold trace in IH. lia.
    + cbn. lia.
  - cbn. specialize (IH st (dynList gvr namespace w).2). unfold trace in IH. lia.
Qed.

Lemma build_counts gvrs appSlug namespace isRestore sel t w s :
  (countLists (trace (buildDeleteKindOrderedNamespaceResources gvrs appSlug namespace
                        isRestore sel t w)) ≤ List.length gvrs)%nat
  ∧ countSleeps s (trace (buildDeleteKindOrderedNamespaceResources gvrs appSlug namespace
                            isRestore sel t w)) = 0%nat.
Proof.
  split.
  - unfold countLists. etrans; [apply count_le|].
    rewrite build_run. cbv zeta.
    pose proof (listAll_trace_length gvrs appSlug namespace isRestore sel
                  ([], initResourceKindOrderMap t) w) as Hl.
    by destruct (outcome _) as [[[? ?]|?]|].
  - apply count_none. eapply Forall_impl; [apply build_trace|]. by intros [] ?.
Qed.

Lemma clear_counts namespace m kinds w s :
  countLists (trace (clearNamespacedResources namespace m kinds w)) = 0%nat
  ∧ countSleeps s (trace (clearNamespacedResources namespace m kinds w)) = 0%nat.
Proof.
  rewrite clearNamespacedResources_flat.
  split; apply count_none; (eapply Forall_impl; [apply clearEach_trace|]);
    by intros e (r & _ & ->).
Qed.

(** Entered with counter [i], the loop makes at most [i + 1] list passes
    and sleeps at most [i] times, two seconds each; it never takes the grace
    sleep itself. *)
Lemma retryLoop_budget i appSlug namespace isRestore sel t gvrs w :
  (countLists (trace (retryLoop i appSlug namespace isRestore sel t gvrs w))
   ≤ S i * List.length gvrs)%nat
  ∧ (countSleeps 2 (trace (retryLoop i appSlug namespace isRestore sel t gvrs w)) ≤ i)%nat
  ∧ countSleeps 20 (trace (retryLoop i appSlug namespace isRestore sel t gvrs w)) = 0%nat.
Proof.
  revert w. induction i as [|i IH]; intros w.
  all: rewrite retryLoop_unfold; cbv zeta.
  all: destruct (build_counts gvrs appSlug namespace isRestore sel t w 2) as [HL HS2].
  all: destruct (build_counts gvrs appSlug namespace isRestore sel t w 20) as [_ HS20].
  all: destruct (buildDeleteKindOrderedNamespaceResources gvrs appSlug namespace
                   isRestore sel t w) as [[[[[m kinds]|e]|] w1] t1].
  all: cbn [outcome final trace fst snd] in *; try lia.
  all: destruct (decide (size m = 0)); cbn [trace snd]; [lia|].
  all: destruct (clear_counts namespace m kinds w1 2) as [DL DS2].
  all: destruct (clear_counts namespace m kinds w1 20) as [_ DS20].
  all: destruct (clearNamespacedResources namespace m kinds w1) as [[[[err|]|] w2] t2].
  all: cbn [outcome final trace fst snd] in *.
  all: unfold countLists, countSleeps in *; rewrite ?count_app; try lia.
  destruct (IH (timeSleep 2 w2)) as (IL & IS2 & IS20).
  cbn [List.filter isList isSleep Z.eqb Pos.eqb List.length]. lia.
Qed.

Lemma clearEachNamespace_no_grace appSlug namespaces isRestore sel t gvrs w :
  countSleeps 20 (trace (clearEachNamespace appSlug namespaces isRestore sel t gvrs w)) = 0%nat.
Proof.
  revert w. induction namespaces as [|namespace rest IH]; intros w; [done|].
  rewrite clearEachNamespace_cons. cbv zeta.
  destruct (retryLoop_budget 60 appSlug namespace isRestore sel t gvrs w) as (_ & _ & Hn).
  destruct (retryLoop 60 appSlug namespace isRestore sel t gvrs w) as [[[[|err]|] w1] t1];
    cbn [outcome final trace fst snd] in *; try done.
  unfold countSleeps in *. rewrite count_app, Hn. apply IH.
Qed.






End Budget.

(** ** A restore selector that does not convert *)

Section SelectorFailure.
Context {W : Type} `{!Cluster W} `{!SelectorLib} {go : Toolchain}.

Lemma visitItems_selector_error appSlug s e gvr ranged items st u :
  LabelSelectorAsSelector s = inr e →
  u ∈ items →
  GetLabels u !! "velero.io/exclude-from-backup" ≠ Some "true" →
  visitItems appSlug true (Some s) gvr ranged items st
  = inr (wrapError e "failed to convert label selector to a selector").
Proof.
  intros Hc Hin Hx. induction items as [|u' items IH]; [by apply elem_of_nil in Hin|].
  rewrite visitItems_cons. unfold itemVerdict, restoreGate. rewrite Hc.
  destruct (decide (GetLabels u' !! "velero.io/exclude-from-backup" = Some "true")) as [Hx'|Hx'].
  - apply IH. apply elem_of_cons in Hin as [->|Hin]; done.
  - done.
Qed.

(** C7 (amended): when the restore selector does not convert, the list
    pass stops at the first endpoint that returns an object not excluded
    from backup and returns the wrapped conversion error; the reconciler
    does not return that error: it leaves the namespace without deleting
    or retrying and, after the grace sleep, returns nil. *)
Theorem C7_selector_error_not_returned appSlug namespace s e t gvrs gvr rest
    items listErr u w w1 :
  LabelSelectorAsSelector s = inr e →
  deletionGVRsOf gvrs = gvr :: rest →
  dynList gvr namespace w = ((Some items, listErr), w1) →
  u ∈ items →
  GetLabels u !! "velero.io/exclude-from-backup" ≠ Some "true" →
  buildDeleteKindOrderedNamespaceResources (gvr :: rest) appSlug namespace true (Some s) t w
    = (Ok (inr (wrapError e "failed to convert label selector to a selector")),
       w1, [EvList gvr namespace])
  ∧ clearNamespaces appSlug [namespace] true (Some s) t gvrs w
    = (Ok None, timeSleep 20 w1, [EvList gvr namespace; EvSleep 20]).
Proof.
  intros Hc Hg Hl Hin Hx.
  assert (Hb : buildDeleteKindOrderedNamespaceResources (gvr :: rest) appSlug namespace
                 true (Some s) t w
               = (Ok (inr (wrapError e "failed to convert label selector to a selector")),
                  w1, [EvList gvr namespace])).
  { rewrite build_run. cbv zeta. rewrite listAll_cons. cbv zeta. rewrite Hl. cbn [fst snd].
    by rewrite (visitItems_selector_error _ _ _ _ _ _ _ _ Hc Hin Hx). }
  split; [done|].
  rewrite clearNamespaces_run. cbv zeta. rewrite clearEachNamespace_cons. cbv zeta.
  rewrite retryLoop_unfold. cbv zeta. rewrite Hg, Hb. reflexivity.
Qed.
End SelectorFailure.

(** ** Manifests that do not decode *)

Lemma buildCrdGVKMapFrom_nil_gvk acc rs r :
  r ∈ rs → GVK r = None → buildCrdGVKMapFrom acc rs = Panic.
Proof.
  intros Hin Hg. revert acc. induction rs as [|r' rs IH]; intros acc.
  - by apply elem_of_nil in Hin.
  - cbn [buildCrdGVKMapFrom]. apply elem_of_cons in Hin as [<-|Hin]; [by rewrite Hg|].
    destruct (GVK r') as [gvk|]; [|done].
    case_decide; [|by apply IH].
    destruct (Obj r') as [u|]; [|done]. destruct (objCRD u); by apply IH.
Qed.

Section DecodeFailure.
Context {W : Type} `{!Cluster W} `{!DecoderLib}.

Lemma decode_error_no_gvk manifest obj gvk err :
  decodeToUnstructured manifest = Ok (obj, gvk, Some err) → obj = None ∧ gvk = None.
Proof.
  unfold decodeToUnstructured. destruct (yamlDecode manifest) as [raw|e]; [|by intros [= <- <- _]].
  destruct (serializerDecode raw) as [[o g] e].
  destruct (toUnstructured o) as [[u|e']|]; cbn; [discriminate | by intros [= <- <- _] | discriminate].
Qed.

Lemma decodeManifests_cons manifest rest :
  decodeManifests (manifest :: rest) =
  match decodeToUnstructured manifest with
  | Panic => Panic
  | Ok decoded =>
      match decodeManifests rest with
      | Panic => Panic
      | Ok resources =>
          Ok ({| Wait := false; Manifest := manifest; GVR := emptyGVR;
                 GVK := decoded.1.2; Obj := decoded.1.1 |} :: resources)
      end
  end.
Proof.
  cbn [decodeManifests]. destruct (decodeToUnstructured manifest) as [[[obj gvk] e]|]; [|done].
  cbn. by destruct (decodeManifests rest).
Qed.

(** A batch with a manifest that does not yield a GVK: decoding it panics,
    or building the CRD index over it does. *)
Lemma decodeManifests_without_gvk manifests manifest :
  manifest ∈ manifests → withoutGVK manifest →
  rbind (decodeManifests manifests) buildCrdGVKMap = Panic.
Proof.
  intros Hin Hno. induction manifests as [|m rest IH]; [by apply elem_of_nil in Hin|].
  rewrite decodeManifests_cons.
  destruct (decodeToUnstructured m) as [[[obj gvk] e]|] eqn:Hm; [|done].
  destruct (decodeManifests rest) as [rs|] eqn:Hrest; [|done]. cbn [rbind fst snd].
  apply elem_of_cons in Hin as [-> | Hin].
  - destruct Hno as [Hp | (obj' & e' & Hd)]; [congruence|].
    rewrite Hm in Hd. injection Hd as _ -> _. done.
  - specialize (IH Hin). cbn [rbind] in IH. unfold buildCrdGVKMap in *. cbn [buildCrdGVKMapFrom GVK].
    destruct gvk as [gvk|]; [|done].
    assert (Hany : ∀ acc, buildCrdGVKMapFrom acc rs = Panic).
    { clear -IH. revert IH. generalize (∅ : gmap string bool) as acc0.
      induction rs as [|r rs IHrs]; intros acc0 Hp acc; [discriminate|].
      cbn [buildCrdGVKMapFrom] in *. destruct (GVK r) as [g|]; [|done].
      destruct (decide _); [|by eapply IHrs].
      destruct (Obj r) as [u|]; [|done]. destruct (objCRD u); by eapply IHrs. }
    destruct (decide _); [|apply Hany]. cbn [Obj].
    destruct obj as [u|]; [|done]. destruct (objCRD u); apply Hany.
Qed.

(** The delete pipeline on such a batch panics before any delete. *)
Lemma deleteManifestResources_without_gvk manifests manifest targetNS t waitFlag w :
  manifest ∈ manifests → withoutGVK manifest →
  deleteManifestResources manifests targetNS t waitFlag w = (Panic, w, []).
Proof.
  intros Hin Hno. pose proof (decodeManifests_without_gvk _ _ Hin Hno) as Hp.
  unfold deleteManifestResources, bind.
  destruct (decodeManifests manifests) as [rs|]; [|done]. cbn [rbind] in Hp.
  cbn [lift ret]. by rewrite Hp.
Qed.
End DecodeFailure.

(** ** The scenarios, run on the example cluster *)

Lemma run_eta {W A} (x : result A * W * list Event) r :
  outcome x = r → x = (r, final x, trace x).
Proof. intros <-. by destruct x as [[? ?] ?]. Qed.

(** There is no third way to scope range variables. *)
Lemma underBothScopings_all (P : Toolchain → Prop) : underBothScopings P ↔ ∀ go, P go.
Proof.
  split; [|intros Hall; split; apply Hall].
  intros [Hloop Hiter] [[]]; [exact Hloop | exact Hiter].
Qed.



Lemma stuck_delete gvr name :
  dynDelete gvr "demo" name Fixtures.stuck = (Some "forbidden", Fixtures.stuck)
  ∨ dynDelete gvr "demo" name Fixtures.stuck = (Some "not found", Fixtures.stuck).
Proof.
  cbn [dynDelete Fixtures.testCluster].
  destruct (decide (name ∈ Fixtures.refused Fixtures.stuck)) as [Hr|Hr]; [by left|].
  destruct (decide (name ∈ GetName <$> Fixtures.listed gvr "demo" Fixtures.stuck)) as [Hl|Hl];
    [|by right].
  exfalso. apply Hr. unfold Fixtures.listed in Hl. cbn [Fixtures.objects Fixtures.stuck] in Hl.
  rewrite filter_cons in Hl. destruct (decide _) in Hl.
  - cbn in Hl. apply list_elem_of_singleton in Hl as ->. by left.
  - by apply elem_of_nil in Hl.
Qed.

(** Scenario C: the pod [web] stays listed and the API server refuses to
    delete it; the budget of 61 attempts is exhausted. *)
Lemma stuck_budget_exhausted (go : Toolchain) :
  exhausted "my-app" "demo" false None defaultKindDeleteOrder
    (deletionGVRsOf Fixtures.gvrsOfCluster) 60 Fixtures.stuck.
Proof.
  apply (stuck_exhausted "my-app" "demo" false None defaultKindDeleteOrder
           (deletionGVRsOf Fixtures.gvrsOfCluster)
           (fun w => w = Fixtures.stuck) Fixtures.podsGVR).
  - vm_compute. by left.
  - intros gvr w ->. cbn [dynList Fixtures.testCluster]. by case_decide.
  - intros gvr name w ->. by destruct (stuck_delete gvr name) as [-> | ->].
  - by intros s w ->.
  - intros w ->. exists [Fixtures.pod "web"], (Fixtures.pod "web").
    split; [vm_compute; reflexivity|]. split; [by left|vm_compute; reflexivity].
  - intros gvr name w ->. destruct (stuck_delete gvr name) as [-> | ->]; by eexists.
  - reflexivity.
Qed.



(** A namespace without owned objects: the delete map holds the empty
    buckets of the table, the delete pass has nothing to do and ends without
    error, and the reconciler returns nil after one list pass. *)
Lemma empty_namespace_is_success :
  underBothScopings (fun go =>
    clearNamespaces "my-app" ["empty"] false None defaultKindDeleteOrder
      Fixtures.gvrsOfCluster Fixtures.threeOwned
    = (Ok None, Fixtures.threeOwned,
       [EvList Fixtures.podsGVR "empty"; EvList Fixtures.configMapsGVR "empty"; EvSleep 20])).
Proof. split; vm_compute; reflexivity. Qed.

(** C7 as stated fails: with a restore selector that does not convert, the
    reconciler lists the pods, gives up on the namespace and returns nil. *)
Lemma C7_counterexample :
  LabelSelectorAsSelector Scenarios.nearSelector
    = inr "Near is not a valid label selector operator"
  ∧ underBothScopings (fun go =>
      clearNamespaces "my-app" ["demo"] true (Some Scenarios.nearSelector)
        defaultKindDeleteOrder Fixtures.gvrsOfCluster Fixtures.threeOwned
      = (Ok None, Fixtures.threeOwned, [EvList Fixtures.podsGVR "demo"; EvSleep 20])).
Proof.
  split; [reflexivity|]. split; vm_compute; reflexivity.
Qed.

(** C7, an instance: the same selector, through the general statement. *)
Lemma C7_selector_error_not_returned_witness :
  underBothScopings (fun go =>
    buildDeleteKindOrderedNamespaceResources [Fixtures.podsGVR; Fixtures.configMapsGVR]
      "my-app" "demo" true (Some Scenarios.nearSelector) defaultKindDeleteOrder
      Fixtures.threeOwned
    = (Ok (inr (wrapError "Near is not a valid label selector operator"
                          "failed to convert label selector to a selector")),
       Fixtures.threeOwned, [EvList Fixtures.podsGVR "demo"])
    ∧ clearNamespaces "my-app" ["demo"] true (Some Scenarios.nearSelector)
        defaultKindDeleteOrder Fixtures.gvrsOfCluster Fixtures.threeOwned
      = (Ok None, timeSleep 20 Fixtures.threeOwned,
         [EvList Fixtures.podsGVR "demo"; EvSleep 20])).
Proof.
  split; cbv beta.
  all: apply (C7_selector_error_not_returned "my-app" "demo" Scenarios.nearSelector
                "Near is not a valid label selector operator" defaultKindDeleteOrder
                Fixtures.gvrsOfCluster Fixtures.podsGVR [Fixtures.configMapsGVR]
                [Fixtures.pod "web"; Fixtures.pod "worker"] None (Fixtures.pod "web")
                Fixtures.threeOwned Fixtures.threeOwned);
       [ reflexivity | vm_compute; reflexivity | vm_compute; reflexivity | by left
       | vm_compute; discriminate ].
Defined.

(** C9, an instance: the config map cannot be deleted, so the secret that
    follows it in the kind sequence is not attempted; the manifest delete
    path run over the same buckets calls the applier three times. *)
Lemma C9_first_failure_aborts_pass_witness :
  underBothScopings (fun go =>
    clearNamespacedResources "demo" (passBuckets (Scenarios.pickyPass go))
      (passKinds (Scenarios.pickyPass go)) Fixtures.picky
    = (Ok (Some "forbidden"), Fixtures.without Fixtures.podsGVR "demo" "web" Fixtures.picky,
       map (deleteCall "demo")
           ([liveResource Fixtures.podsGVR [Fixtures.pod "web"] (Fixtures.pod "web")]
            ++ [liveResource Fixtures.configMapsGVR [Fixtures.configMap "settings"]
                  (Fixtures.configMap "settings")]))
    ∧ ∀ targetNS (w0 : Fixtures.TestCluster),
        outcome (deleteKinds (passKinds (Scenarios.pickyPass go))
                   (passBuckets (Scenarios.pickyPass go)) targetNS w0) = Ok tt
        ∧ trace (deleteKinds (passKinds (Scenarios.pickyPass go))
                   (passBuckets (Scenarios.pickyPass go)) targetNS w0)
          = map (removeCall targetNS)
                ([liveResource Fixtures.podsGVR [Fixtures.pod "web"] (Fixtures.pod "web")]
                 ++ liveResource Fixtures.configMapsGVR [Fixtures.configMap "settings"]
                      (Fixtures.configMap "settings")
                 :: [liveResource Fixtures.secretsGVR [Fixtures.secret "token"]
                       (Fixtures.secret "token")])).
Proof.
  split; cbv beta.
  all: match goal with |- context [Scenarios.pickyPass ?go] =>
         apply (C9_first_failure_aborts_pass "demo" (passBuckets (Scenarios.pickyPass go))
                  (passKinds (Scenarios.pickyPass go))
                  [liveResource (go := go) Fixtures.podsGVR [Fixtures.pod "web"]
                     (Fixtures.pod "web")]
                  (liveResource (go := go) Fixtures.configMapsGVR
                     [Fixtures.configMap "settings"] (Fixtures.configMap "settings"))
                  (Fixtures.configMap "settings")
                  [liveResource (go := go) Fixtures.secretsGVR [Fixtures.secret "token"]
                     (Fixtures.secret "token")]
                  "forbidden" Fixtures.picky
                  (Fixtures.without Fixtures.podsGVR "demo" "web" Fixtures.picky)
                  (Fixtures.without Fixtures.podsGVR "demo" "web" Fixtures.picky));
         [ vm_compute; reflexivity
         | apply (deletes_cons "demo" Fixtures.picky
                    (Fixtures.without Fixtures.podsGVR "demo" "web" Fixtures.picky)
                    (Fixtures.without Fixtures.podsGVR "demo" "web" Fixtures.picky)
                    (liveResource (go := go) Fixtures.podsGVR [Fixtures.pod "web"]
                       (Fixtures.pod "web"))
                    (Fixtures.pod "web") []);
           [reflexivity | vm_compute; reflexivity | apply deletes_nil]
         | reflexivity
         | vm_compute; reflexivity
         | repeat constructor; by eexists ]
       end.
Defined.

(** C10 fails on the code in two ways.  With the empty string as target
    slug, a pod without any annotation is selected, because a missing
    annotation reads as the empty string, and it is deleted, under either
    scoping of range variables.  With one range variable per loop, every
    resource of an endpoint points at the last item listed there: with the
    pods [web] (owned by [my-app]), [theirs] and [plain] listed in this order,
    reconciling [my-app] issues its one delete for [plain], the pod without
    the annotation, and leaves [web] in the namespace. *)
Theorem C10_unannotated_object_is_deleted :
  GetAnnotations Fixtures.plain = ∅
  ∧ underBothScopings (fun go =>
      clearNamespaces "" ["demo"] false None defaultKindDeleteOrder
        Fixtures.gvrsOfCluster Fixtures.unowned
      = (Ok None,
         {| Fixtures.objects := []; Fixtures.refused := []; Fixtures.finalized := [];
            Fixtures.unlistable := []; Fixtures.unremovable := [] |},
         [EvList Fixtures.podsGVR "demo"; EvList Fixtures.configMapsGVR "demo";
          EvDelete Fixtures.podsGVR "demo" "plain"; EvSleep 20]))
  ∧ bucket (passBuckets (Scenarios.mixedPass Fixtures.perLoop)) "Pod"
    = [{| Wait := false; Manifest := ""; GVR := Fixtures.podsGVR;
          GVK := Some {| Group := ""; Version := "v1"; Kind := "Pod" |};
          Obj := Some Fixtures.plain |}]
  ∧ trace (clearNamespaces (go := Fixtures.perLoop) "my-app" ["demo"] false None
             defaultKindDeleteOrder Fixtures.gvrsOfCluster Fixtures.mixed)
    = [EvList Fixtures.podsGVR "demo"; EvList Fixtures.configMapsGVR "demo";
       EvDelete Fixtures.podsGVR "demo" "plain"; EvSleep 20]
  ∧ Fixtures.listed Fixtures.podsGVR "demo"
      (final (clearNamespaces (go := Fixtures.perLoop) "my-app" ["demo"] false None
                defaultKindDeleteOrder Fixtures.gvrsOfCluster Fixtures.mixed))
    = [Fixtures.pod "web"; Fixtures.object "" "v1" "Pod" "theirs" (Fixtures.ownedBy "other-app") ∅]
  ∧ trace (clearNamespaces (go := Fixtures.perIteration) "my-app" ["demo"] false None
             defaultKindDeleteOrder Fixtures.gvrsOfCluster Fixtures.mixed)
    = [EvList Fixtures.podsGVR "demo"; EvList Fixtures.configMapsGVR "demo";
       EvDelete Fixtures.podsGVR "demo" "web"; EvSleep 20].
Proof.
  split; [reflexivity|]. split; [split; vm_compute; reflexivity|].
  repeat split; vm_compute; reflexivity.
Qed.

(** C4 fails on a batch with one document that is not YAML.  The document
    is kept as a resource without GVK and without object, but the pipeline
    then panics on the nil GVK while building the CRD index; the scheduler
    would panic on the nil object as well.  The applier is never called, not
    even for the document that did decode. *)
Theorem C4_undecodable_manifest_panics :
  decodeManifests ["{not yaml"]
    = Ok [{| Wait := false; Manifest := "{not yaml"; GVR := emptyGVR; GVK := None; Obj := None |}]
  ∧ rbind (decodeManifests ["pod.yaml"; "{not yaml"]) buildCrdGVKMap = Panic
  ∧ rbind (decodeManifests ["pod.yaml"; "{not yaml"])
          (fun resources => buildDeleteKindOrderedResources defaultKindDeleteOrder
                              resources "demo" ∅ true) = Panic
  ∧ deleteManifestResources ["pod.yaml"; "{not yaml"] "demo" defaultKindDeleteOrder true
      Fixtures.threeOwned
    = (Panic, Fixtures.threeOwned, [])
  ∧ trace (deleteManifestResources ["pod.yaml"] "demo" defaultKindDeleteOrder true
             Fixtures.threeOwned)
    = [EvRemove "demo" "pod.yaml" true].
Proof.
  split; [reflexivity|]. split; [vm_compute; reflexivity|]. split; [vm_compute; reflexivity|].
  split.
  - apply (deleteManifestResources_without_gvk _ "{not yaml"); [by right; left|].
    right. by eexists _, _.
  - vm_compute. reflexivity.
Qed.

(** The error of the serializer is not read: a document that is YAML but
    has no kind reaches [ToUnstructured] as a nil object, and decoding does not
    return. *)
Lemma unread_serializer_error_panics :
  serializerDecode "kindless.yaml" = (None, None, Some "Object 'Kind' is missing")
  ∧ decodeToUnstructured "kindless.yaml" = Panic
  ∧ deleteManifestResources ["pod.yaml"; "kindless.yaml"] "demo" defaultKindDeleteOrder true
      Fixtures.threeOwned
    = (Panic, Fixtures.threeOwned, []).
Proof.
  split; [reflexivity|]. split; [reflexivity|].
  apply (deleteManifestResources_without_gvk _ "kindless.yaml"); [by right; left|by left].
Qed.


(** * Further properties *)

(** ** Every resource is visited once *)

Lemma inOrder_cons m k ks : inOrder m (k :: ks) = bucket m k ++ inOrder m ks.
Proof. reflexivity. Qed.

Lemma inOrder_app m ks1 ks2 : inOrder m (ks1 ++ ks2) = inOrder m ks1 ++ inOrder m ks2.
Proof. unfold inOrder. by rewrite map_app, concat_app. Qed.

Lemma inOrder_elem_of m ks r : r ∈ inOrder m ks ↔ ∃ k, k ∈ ks ∧ r ∈ bucket m k.
Proof.
  induction ks as [|k ks IH].
  - split; [intros Hin; inversion Hin | intros (k & Hk & _); inversion Hk].
  - rewrite inOrder_cons, elem_of_app, IH. split.
    + intros [Hin | (k' & Hk' & Hin)]; [exists k | exists k']; split; auto; constructor; auto.
    + intros (k' & Hk' & Hin). apply elem_of_cons in Hk' as [-> | Hk']; [by left | right; eauto].
Qed.

Lemma inOrder_unchanged (m m' : gmap string (list resource)) ks :
  (∀ k, k ∈ ks → bucket m' k = bucket m k) → inOrder m' ks = inOrder m ks.
Proof.
  induction ks as [|k ks IH]; intros Hsame; [done|].
  rewrite !inOrder_cons, Hsame, IH; [done | | constructor].
  intros k' Hk'. apply Hsame. by constructor.
Qed.

Lemma inOrder_step (m m' : gmap string (list resource)) ks k r :
  NoDup ks → k ∈ ks →
  (∀ k', bucket m' k' = bucket m k' ++ (if decide (k' = k) then [r] else [])) →
  inOrder m' ks ≡ₚ inOrder m ks ++ [r].
Proof.
  intros Hnd Hk Hb. induction ks as [|k0 ks IH]; [inversion Hk|].
  apply NoDup_cons in Hnd as [Hk0 Hnd].
  rewrite !inOrder_cons, Hb. destruct (decide (k0 = k)) as [->|Hne].
  - rewrite (inOrder_unchanged m m' ks).
    + rewrite <- !app_assoc. apply Permutation_app_head, Permutation_app_comm.
    + intros k' Hk'. rewrite Hb, decide_False, app_nil_r; [done|].
      intros ->. contradiction.
  - apply elem_of_cons in Hk as [Hk | Hk]; [congruence|].
    rewrite app_nil_r, <- app_assoc. apply Permutation_app_head, IH; auto.
Qed.

Lemma scheduleAll_inOrder ns crd w rs ks (d : list string) (m : gmap string (list resource)) d' m' :
  scheduleAll ns crd w rs (d, m) = Ok (d', m') →
  NoDup ks → dom m' ⊆ list_to_set ks →
  inOrder m' ks ≡ₚ inOrder m ks ++ (preparedOf ns w <$> rs).
Proof.
  revert d m. induction rs as [|r rs IH]; intros d m Hrun Hnd Hdom.
  - simpl in Hrun. injection Hrun as <- <-. by rewrite app_nil_r.
  - apply scheduleAll_cons_inv in Hrun as (u0 & d1 & m1 & Hobj & Hrest & Hdom1 & Hb1 & _).
    rewrite (IH _ _ Hrest Hnd Hdom).
    assert (Hk : bucketKey crd (dom m) r ∈ ks).
    { apply scheduleAll_discovered in Hrest as (dnew & _ & _ & _ & Hsub).
      assert (bucketKey crd (dom m) r ∈ dom m1) as Hin by (rewrite Hdom1; set_solver).
      clear -Hin Hsub Hdom. apply (elem_of_list_to_set (C := gset string)). set_solver. }
    rewrite (inOrder_step m m1 ks _ _ Hnd Hk Hb1).
    rewrite fmap_cons, <- app_assoc. simpl.
    unfold preparedOf at 2. by rewrite Hobj.
Qed.

Lemma getOrderedKinds_NoDup t d :
  NoDup (tableKinds t) → NoDup d → (∀ k, k ∈ d → k ∉ tableKinds t) →
  NoDup (getOrderedKinds t d).
Proof.
  intros Ht Hd Hdis. unfold getOrderedKinds.
  apply (NoDup_Permutation_proper (PreOrder t ++ PostOrder t ++ d)).
  { apply Permutation_app_head. rewrite sortStrings_perm. apply Permutation_app_comm. }
  rewrite app_assoc. apply NoDup_app. split; [done|]. split; [|done].
  intros k Hk Hkd. by apply (Hdis k).
Qed.

Lemma inOrder_init t ks : inOrder (initResourceKindOrderMap t) ks = [].
Proof.
  induction ks as [|k ks IH]; [done|]. by rewrite inOrder_cons, init_bucket, IH.
Qed.

Lemma scheduleAll_visit t rs ns crd w d' m' :
  NoDup (tableKinds t) →
  "CustomResource" ∈ tableKinds t →
  scheduleAll ns crd w rs ([], initResourceKindOrderMap t) = Ok (d', m') →
  inOrder m' (getOrderedKinds t d') ≡ₚ preparedOf ns w <$> rs.
Proof.
  intros Hnd Hcr Hall.
  pose proof (scheduleAll_seen t ns crd w rs d' m' Hcr Hall) as [Hd Hseen].
  assert (Hcr' : "CustomResource" ∈ dom (initResourceKindOrderMap t)).
  { rewrite init_dom. by apply elem_of_list_to_set. }
  pose proof (scheduleAll_dom_new ns crd w rs [] _ d' m' Hcr' Hall) as (dnew & Hdn & Hdom).
  simpl in Hdn. subst dnew.
  rewrite (scheduleAll_inOrder ns crd w rs (getOrderedKinds t d') [] _ d' m' Hall).
  - by rewrite inOrder_init.
  - apply getOrderedKinds_NoDup; auto. intros k Hk. by apply Hseen in Hk as [? _].
  - rewrite Hdom, init_dom. intros k Hk. apply elem_of_list_to_set.
    unfold getOrderedKinds. rewrite !elem_of_app, sortStrings_perm.
    apply elem_of_union in Hk as [Hk | Hk]; apply elem_of_list_to_set in Hk.
    + unfold tableKinds in Hk. apply elem_of_app in Hk. tauto.
    + tauto.
Qed.

(** X1: with a table that lists every kind once, [CustomResource] among
    them, a delete pass over the scheduled batch visits every resource of the
    batch exactly once. *)
Theorem scheduled_batch_is_visited_once t rs ns crd w m kinds :
  NoDup (tableKinds t) →
  "CustomResource" ∈ tableKinds t →
  buildDeleteKindOrderedResources t rs ns crd w = Ok (m, kinds) →
  inOrder m kinds ≡ₚ preparedOf ns w <$> rs.
Proof.
  intros Hnd Hcr Hrun. unfold buildDeleteKindOrderedResources in Hrun.
  destruct (scheduleAll ns crd w rs ([], initResourceKindOrderMap t)) as [[d' m']|] eqn:Hall;
    [|discriminate].
  simpl in Hrun. injection Hrun as <- <-. by apply (scheduleAll_visit t rs ns crd w).
Qed.

(** ** Order inside a bucket and between the pre- and post-order kinds *)

Lemma scheduleAll_sublist ns crd w rs (d : list string) (m : gmap string (list resource)) d' m' k :
  scheduleAll ns crd w rs (d, m) = Ok (d', m') →
  ∃ l, bucket m' k = bucket m k ++ l ∧ l `sublist_of` (preparedOf ns w <$> rs).
Proof.
  revert d m. induction rs as [|r rs IH]; intros d m Hrun.
  - simpl in Hrun. injection Hrun as <- <-. exists []. by rewrite app_nil_r.
  - apply scheduleAll_cons_inv in Hrun as (u0 & d1 & m1 & Hobj & Hrest & _ & Hb1 & _).
    destruct (IH _ _ Hrest) as (l & Hl & Hsub).
    rewrite Hl, Hb1, <- app_assoc. eexists. split; [done|].
    rewrite fmap_cons. unfold preparedOf at 1. rewrite Hobj.
    destruct (decide _); simpl; [by apply sublist_skip | by apply sublist_cons].
Qed.

(** X2: inside a bucket the resources keep the order they have in the batch. *)
Theorem bucket_keeps_batch_order t rs ns crd w m kinds k :
  buildDeleteKindOrderedResources t rs ns crd w = Ok (m, kinds) →
  bucket m k `sublist_of` (preparedOf ns w <$> rs).
Proof.
  intros Hrun. unfold buildDeleteKindOrderedResources in Hrun.
  destruct (scheduleAll ns crd w rs ([], initResourceKindOrderMap t)) as [[d' m']|] eqn:Hall;
    [|discriminate].
  simpl in Hrun. injection Hrun as <- <-.
  destruct (scheduleAll_sublist _ _ _ _ _ _ _ _ k Hall) as (l & Hl & Hsub).
  by rewrite Hl, init_bucket.
Qed.

Lemma before_in_app {A} (l1 l2 : list A) x y :
  x ∈ l1 → y ∈ l2 → ∃ a b c, l1 ++ l2 = a ++ x :: b ++ y :: c.
Proof.
  intros (a & b1 & ->)%list_elem_of_split (b2 & c & ->)%list_elem_of_split.
  exists a, (b1 ++ b2), c. by rewrite <- !app_assoc.
Qed.

(** X3: a delete pass reaches the resources of a pre-order kind before those
    of any other kind, and the resources of a post-order kind after those of
    any other kind. *)
Theorem pre_order_first_post_order_last t rs ns crd w m kinds k1 k2 r1 r2 :
  buildDeleteKindOrderedResources t rs ns crd w = Ok (m, kinds) →
  k1 ∈ kinds → k2 ∈ kinds →
  r1 ∈ bucket m k1 → r2 ∈ bucket m k2 →
  (k1 ∈ PreOrder t ∧ k2 ∉ PreOrder t) ∨ (k2 ∈ PostOrder t ∧ k1 ∉ PostOrder t) →
  ∃ l1 l2 l3, inOrder m kinds = l1 ++ r1 :: l2 ++ r2 :: l3.
Proof.
  intros Hrun Hk1 Hk2 Hr1 Hr2 Hcase. unfold buildDeleteKindOrderedResources in Hrun.
  destruct (scheduleAll ns crd w rs ([], initResourceKindOrderMap t)) as [[d' m']|] eqn:Hall;
    [|discriminate].
  simpl in Hrun. injection Hrun as <- <-. unfold getOrderedKinds in *.
  destruct Hcase as [[Hpre Hnpre] | [Hpost Hnpost]].
  - rewrite inOrder_app. apply before_in_app.
    + apply inOrder_elem_of. eauto.
    + apply inOrder_elem_of. exists k2. split; [|done].
      apply elem_of_app in Hk2 as [?|?]; [contradiction | done].
  - rewrite app_assoc, inOrder_app. apply before_in_app.
    + apply inOrder_elem_of. exists k1. split; [|done].
      rewrite app_assoc in Hk1. apply elem_of_app in Hk1 as [?|?]; [done | contradiction].
    + apply inOrder_elem_of. eauto.
Qed.

(** ** A table without the [CustomResource] entry *)

(** X4: when neither the table nor the batch provides a bucket for the key
    [CustomResource] or for the kind of an indexed CRD instance, the
    instance is stored under [CustomResource], a key that is not in the
    ordered kind sequence: no delete pass reaches it. *)
Theorem crd_instance_unreachable_without_table_entry t rs ns crd w m kinds r0 u0 gvk :
  buildDeleteKindOrderedResources t rs ns crd w = Ok (m, kinds) →
  ("CustomResource" ∉ tableKinds t) → ("CustomResource" ∉ defaultKeys crd rs) →
  r0 ∈ rs → GVK r0 = Some gvk → Obj r0 = Some u0 → inCrdIndex crd gvk →
  (Kind gvk ∉ tableKinds t) → (Kind gvk ∉ defaultKeys crd rs) →
  prepared ns w r0 u0 ∈ bucket m "CustomResource"
  ∧ ("CustomResource" ∉ kinds).
Proof.
  intros Hrun Hcrt Hcrd Hin Hgvk Hobj Hidx Hkt Hkd.
  unfold buildDeleteKindOrderedResources in Hrun.
  destruct (scheduleAll ns crd w rs ([], initResourceKindOrderMap t)) as [[d' m']|] eqn:Hall;
    [|discriminate].
  simpl in Hrun. injection Hrun as <- <-.
  assert (Hnk : "CustomResource" ∉ getOrderedKinds t d').
  { unfold getOrderedKinds. rewrite !elem_of_app, sortStrings_perm.
    apply scheduleAll_discovered in Hall as (dnew & Hd & _ & Hnew & _). simpl in Hd. subst dnew.
    intros [Hp | [Hd | Hp]].
    - apply Hcrt. unfold tableKinds. apply elem_of_app. tauto.
    - by apply Hnew in Hd as [_ ?].
    - apply Hcrt. unfold tableKinds. apply elem_of_app. tauto. }
  split; [|done].
  apply list_elem_of_split in Hin as (before & after & ->).
  destruct (scheduleAll_placed _ _ _ _ _ _ _ _ _ _ Hall Hobj) as (d1 & m1 & Hbefore & Hplaced).
  rewrite (bucketKey_indexed _ _ _ _ Hgvk Hidx) in Hplaced.
  destruct (decide (Kind gvk ∈ dom m1)) as [Hdom|]; [|done].
  apply scheduleAll_dom_bounds in Hbefore as [_ Hub].
  apply Hub in Hdom. rewrite init_dom in Hdom.
  apply elem_of_union in Hdom as [Hdom | Hdom].
  - apply elem_of_union in Hdom as [Hdom | Hdom]; apply elem_of_list_to_set in Hdom.
    + contradiction.
    + exfalso. apply Hkd. unfold defaultKeys in *. rewrite omap_app.
      apply elem_of_app. by left.
  - apply elem_of_singleton in Hdom. by rewrite <- Hdom.
Qed.

(** ** The manifest delete path, end to end *)

Section ManifestPath.
Context {W : Type} `{!Cluster W} `{!DecoderLib}.

Lemma decodeManifests_full targetNS waitFlag manifests :
  Forall decodesFully manifests →
  ∃ resources, decodeManifests manifests = Ok resources
    ∧ Forall (fun r => is_Some (GVK r) ∧ is_Some (Obj r)) resources
    ∧ (fun r => removeCall targetNS (preparedOf targetNS waitFlag r)) <$> resources
      = expectedRemoval targetNS waitFlag <$> manifests.
Proof.
  induction 1 as [|manifest rest (u & gvk & Hdec) _ (rs & Hrs & Hall & Hrem)]; [by eexists|].
  rewrite decodeManifests_cons, Hdec, Hrs. eexists. split; [done|]. split.
  - constructor; [|done]. cbn. eauto.
  - rewrite !fmap_cons, Hrem. f_equal.
    unfold expectedRemoval, preparedOf, removeCall, removeNamespace, prepared. rewrite Hdec. simpl.
    by destruct (decide (GetNamespace u = "")).
Qed.

Lemma buildCrdGVKMapFrom_total acc rs :
  Forall (fun r => is_Some (GVK r) ∧ is_Some (Obj r)) rs →
  ∃ crd, buildCrdGVKMapFrom acc rs = Ok crd.
Proof.
  intros Hall. revert acc. induction Hall as [|r rs [[gvk Hgvk] [u Hobj]] _ IH]; intros acc.
  - by eexists.
  - simpl. rewrite Hgvk, Hobj. destruct (decide _); [destruct (objCRD u)|]; apply IH.
Qed.

Lemma deleteKinds_empty kinds (m : gmap string (list resource)) targetNS (w : W) :
  (∀ k, bucket m k = []) → deleteKinds kinds m targetNS w = (Ok tt, w, []).
Proof.
  intros Hempty. induction kinds as [|k kinds IH]; [done|].
  simpl. unfold bind. rewrite Hempty. simpl. by rewrite IH.
Qed.

(** X5: a batch of manifests that all decode is removed manifest by
    manifest: the run does not panic, whatever [kubectl delete] reports, and
    the calls made are, up to their order, one removal per manifest. *)
Theorem every_manifest_is_removed_once manifests targetNS t waitFlag (w : W) :
  NoDup (tableKinds t) →
  "CustomResource" ∈ tableKinds t →
  Forall decodesFully manifests →
  outcome (deleteManifestResources manifests targetNS t waitFlag w) = Ok tt
  ∧ trace (deleteManifestResources manifests targetNS t waitFlag w)
    ≡ₚ expectedRemoval targetNS waitFlag <$> manifests.
Proof.
  intros Hnd Hcr Hdec.
  destruct (decodeManifests_full targetNS waitFlag _ Hdec) as (rs & Hrs & Hfull & Hrem).
  unfold deleteManifestResources. rewrite Hrs.
  destruct (buildCrdGVKMapFrom_total ∅ _ Hfull) as (crd & Hcrd).
  unfold buildCrdGVKMap.
  assert (Hobjs : Forall (fun r => is_Some (Obj r)) rs).
  { eapply Forall_impl; [exact Hfull|]. by intros r [_ ?]. }
  destruct (proj2 (scheduleAll_Ok_iff targetNS crd waitFlag _
              ([], initResourceKindOrderMap t)) Hobjs) as ([d m] & Hall).
  assert (Hbuilt : buildDeleteKindOrderedResources t rs targetNS crd
                     waitFlag = Ok (m, getOrderedKinds t d)).
  { unfold buildDeleteKindOrderedResources. by rewrite Hall. }
  unfold bind, lift, ret. cbn beta iota. rewrite Hcrd. cbn beta iota.
  rewrite Hbuilt. cbn beta iota. cbn [fst snd].
  pose proof (scheduleAll_visit _ _ _ _ _ _ _ Hnd Hcr Hall) as Hperm.
  destruct (deleteKinds_run (getOrderedKinds t d) m targetNS w) as (w' & Hrun).
  { rewrite Forall_forall. intros r Hr _. rewrite Hperm in Hr.
    apply list_elem_of_fmap in Hr as (r0 & -> & Hr0).
    rewrite Forall_forall in Hobjs. destruct (Hobjs _ Hr0) as [u Hu].
    unfold preparedOf. rewrite Hu. simpl. eauto. }
  rewrite Hrun. cbn [outcome trace fst snd]. split; [done|]. simpl.
  by rewrite Hperm, <- Hrem, <- list_fmap_compose.
Qed.

(** X6: with no manifest to delete nothing is called. *)
Theorem no_manifests_no_calls targetNS t waitFlag (w : W) :
  deleteManifestResources [] targetNS t waitFlag w = (Ok tt, w, []).
Proof.
  unfold deleteManifestResources, bind, lift, ret.
  cbn [decodeManifests buildCrdGVKMap buildCrdGVKMapFrom].
  unfold buildDeleteKindOrderedResources. cbn [scheduleAll rbind fst snd].
  rewrite deleteKinds_empty; [done|]. apply init_bucket.
Qed.

End ManifestPath.

(** ** The CRD index *)

Lemma addCrdVersions_lookup crd (acc : gmap string bool) key :
  addCrdVersions crd acc !! key =
  if decide (key ∈ buildGVKKey (crdGroup crd) (crdNamesKind crd) <$> crdVersions crd)
  then Some true else acc !! key.
Proof.
  unfold addCrdVersions. generalize (crdVersions crd) as vs. intros vs. revert acc.
  induction vs as [|v vs IH]; intros acc.
  - cbn [foldl fmap list_fmap]. rewrite decide_False; [done|]. apply not_elem_of_nil.
  - cbn [foldl]. rewrite IH, fmap_cons.
    destruct (decide (key ∈ buildGVKKey (crdGroup crd) (crdNamesKind crd) <$> vs)) as [Hin|Hnin].
    + rewrite decide_True; [done|]. by right.
    + destruct (decide (key = buildGVKKey (crdGroup crd) (crdNamesKind crd) v)) as [->|Hne].
      * rewrite lookup_insert_eq, decide_True; [done|]. by left.
      * rewrite lookup_insert_ne by done. rewrite decide_False; [done|].
        intros [?|?]%elem_of_cons; contradiction.
Qed.

Lemma declaredBy_cons r rs key :
  declaredBy (r :: rs) key ↔
  (∃ gvk u crd version, GVK r = Some gvk ∧ Kind gvk = "CustomResourceDefinition"
     ∧ Obj r = Some u ∧ objCRD u = inl crd ∧ version ∈ crdVersions crd
     ∧ key = buildGVKKey (crdGroup crd) (crdNamesKind crd) version)
  ∨ declaredBy rs key.
Proof.
  unfold declaredBy. split.
  - intros (r' & gvk & u & crd & v & Hin & H). apply elem_of_cons in Hin as [-> | Hin].
    + left. by exists gvk, u, crd, v.
    + right. by exists r', gvk, u, crd, v.
  - intros [(gvk & u & crd & v & H) | (r' & gvk & u & crd & v & Hin & H)].
    + exists r, gvk, u, crd, v. split; [by left | done].
    + exists r', gvk, u, crd, v. split; [by right | done].
Qed.

Lemma buildCrdGVKMapFrom_cons_inv acc r rs idx :
  buildCrdGVKMapFrom acc (r :: rs) = Ok idx →
  ∃ gvk, GVK r = Some gvk
    ∧ ((Kind gvk = "CustomResourceDefinition"
        ∧ ∃ u, Obj r = Some u
            ∧ ((∃ crd, objCRD u = inl crd
                       ∧ buildCrdGVKMapFrom (addCrdVersions crd acc) rs = Ok idx)
               ∨ (∃ e, objCRD u = inr e ∧ buildCrdGVKMapFrom acc rs = Ok idx)))
       ∨ (Kind gvk ≠ "CustomResourceDefinition" ∧ buildCrdGVKMapFrom acc rs = Ok idx)).
Proof.
  simpl. destruct (GVK r) as [gvk|]; [|discriminate]. intros Hrun. exists gvk. split; [done|].
  destruct (decide (Kind gvk = "CustomResourceDefinition")); [left | by right].
  split; [done|]. destruct (Obj r) as [u|]; [|discriminate]. exists u. split; [done|].
  destruct (objCRD u) as [crd|cerr]; [left | right]; eauto.
Qed.

Lemma buildCrdGVKMapFrom_sound acc rs idx key b :
  buildCrdGVKMapFrom acc rs = Ok idx →
  idx !! key = Some b → acc !! key = Some b ∨ (declaredBy rs key ∧ b = true).
Proof.
  revert acc. induction rs as [|r rs IH]; intros acc Hrun Hl.
  - simpl in Hrun. injection Hrun as <-. by left.
  - apply buildCrdGVKMapFrom_cons_inv in Hrun
      as (gvk & Hgvk & [(Hkind & u & Hobj & [(crd & Hcrd & Hrest) | (e & Hcrd & Hrest)])
                        | (Hkind & Hrest)]).
    + destruct (IH _ Hrest Hl) as [Hacc | [Hd ->]].
      * rewrite addCrdVersions_lookup in Hacc. destruct (decide _) as [Hin|]; [|by left].
        injection Hacc as <-. right. split; [|done].
        apply list_elem_of_fmap in Hin as (v & -> & Hv).
        apply declaredBy_cons. left. by exists gvk, u, crd, v.
      * right. split; [|done]. apply declaredBy_cons. by right.
    + destruct (IH _ Hrest Hl) as [Hacc | [Hd ->]]; [by left|].
      right. split; [|done]. apply declaredBy_cons. by right.
    + destruct (IH _ Hrest Hl) as [Hacc | [Hd ->]]; [by left|].
      right. split; [|done]. apply declaredBy_cons. by right.
Qed.

Lemma buildCrdGVKMapFrom_complete acc rs idx key :
  buildCrdGVKMapFrom acc rs = Ok idx →
  declaredBy rs key ∨ acc !! key = Some true → idx !! key = Some true.
Proof.
  revert acc. induction rs as [|r rs IH]; intros acc Hrun Hcase.
  - simpl in Hrun. injection Hrun as <-.
    destruct Hcase as [(r & ? & ? & ? & ? & Hin & _) | ?]; [inversion Hin | done].
  - rewrite declaredBy_cons in Hcase.
    apply buildCrdGVKMapFrom_cons_inv in Hrun
      as (gvk & Hgvk & [(Hkind & u & Hobj & [(crd & Hcrd & Hrest) | (e & Hcrd & Hrest)])
                        | (Hkind & Hrest)]).
    + apply (IH _ Hrest). rewrite addCrdVersions_lookup.
      destruct Hcase as [[(gvk0 & u0 & crd0 & v & Hg & Hk & Hu & Hc & Hv & ->) | Hd] | Hacc].
      * right. assert (u0 = u) as -> by congruence. assert (crd0 = crd) as -> by congruence.
        rewrite decide_True; [done|]. apply list_elem_of_fmap. eauto.
      * by left.
      * right. by destruct (decide _).
    + apply (IH _ Hrest).
      destruct Hcase as [[(gvk0 & u0 & crd0 & v & Hg & Hk & Hu & Hc & _) | Hd] | Hacc]; auto.
      congruence.
    + apply (IH _ Hrest).
      destruct Hcase as [[(gvk0 & u0 & crd0 & v & Hg & Hk & _) | Hd] | Hacc]; auto.
      congruence.
Qed.

(** X7: the CRD index holds exactly the keys declared by the CRDs of the
    batch that convert, each with the value [true]; a CRD that does not
    convert adds nothing and does not stop the loop. *)
Theorem crd_index_holds_declared_keys rs idx key :
  buildCrdGVKMap rs = Ok idx →
  (is_Some (idx !! key) ↔ declaredBy rs key)
  ∧ (∀ b, idx !! key = Some b → b = true).
Proof.
  intros Hrun. unfold buildCrdGVKMap in Hrun. split; [split|].
  - intros [b Hb]. destruct (buildCrdGVKMapFrom_sound _ _ _ _ _ Hrun Hb) as [Hacc | [Hd _]];
      [by rewrite lookup_empty in Hacc | done].
  - intros Hd. exists true. apply (buildCrdGVKMapFrom_complete _ _ _ _ Hrun). by left.
  - intros b Hb. destruct (buildCrdGVKMapFrom_sound _ _ _ _ _ Hrun Hb) as [Hacc | [_ ->]];
      [by rewrite lookup_empty in Hacc | done].
Qed.

Lemma buildCrdGVKMapFrom_panics acc rs :
  buildCrdGVKMapFrom acc rs = Panic ↔ Exists undecoded rs.
Proof.
  revert acc. induction rs as [|r rs IH]; intros acc.
  - simpl. split; [discriminate | intros H; inversion H].
  - rewrite Exists_cons. unfold undecoded at 1. simpl.
    destruct (GVK r) as [gvk|]; [|tauto].
    destruct (decide (Kind gvk = "CustomResourceDefinition")) as [Hk|Hk].
    + destruct (Obj r) as [u|]; [|tauto].
      destruct (objCRD u); rewrite IH; split; auto; intros [[_ ?]|?]; auto; discriminate.
    + rewrite IH. tauto.
Qed.

(** X8: building the CRD index panics exactly when the batch holds a
    resource without a GVK or a CRD without a decoded object. *)
Theorem crd_index_panics_on_undecoded rs :
  buildCrdGVKMap rs = Panic ↔ Exists undecoded rs.
Proof. apply buildCrdGVKMapFrom_panics. Qed.

(** ** Keys of the CRD index *)

Lemma append_slash_inj (s1 s2 t1 t2 : string) :
  hasSlash s1 = false → hasSlash s2 = false →
  s1 +:+ "/" +:+ t1 = s2 +:+ "/" +:+ t2 → s1 = s2 ∧ t1 = t2.
Proof.
  revert s2. induction s1 as [|a s1 IH]; intros [|b s2] H1 H2 Heq; simpl in *.
  - injection Heq as Heq. by subst.
  - injection Heq as Hb _. subst b. by rewrite Ascii.eqb_refl in H2.
  - injection Heq as Ha _. subst a. by rewrite Ascii.eqb_refl in H1.
  - injection Heq as Ha Heq. subst b.
    destruct (Ascii.eqb a "/"); [discriminate|].
    destruct (IH _ H1 H2 Heq) as [-> ->]. done.
Qed.

(** X9: for groups and kinds without a slash, the index key determines the
    group, the kind and the version it was built from. *)
Theorem buildGVKKey_injective g1 k1 v1 g2 k2 v2 :
  hasSlash g1 = false → hasSlash k1 = false →
  hasSlash g2 = false → hasSlash k2 = false →
  buildGVKKey g1 k1 v1 = buildGVKKey g2 k2 v2 →
  g1 = g2 ∧ k1 = k2 ∧ v1 = v2.
Proof.
  intros Hg1 Hk1 Hg2 Hk2 Heq. unfold buildGVKKey in Heq.
  apply append_slash_inj in Heq as [-> Heq]; [|done..].
  apply append_slash_inj in Heq as [-> ->]; done.
Qed.

(** ** What a reconciliation touches *)

Section ReconcileMore.
Context {W : Type} `{!Cluster W} `{!SelectorLib} {go : Toolchain}.

Lemma clearEachNamespace_within appSlug namespaces isRestore sel t gvrs w :
  Forall (fun e => ∃ namespace, namespace ∈ namespaces ∧ within gvrs namespace e)
         (trace (clearEachNamespace appSlug namespaces isRestore sel t gvrs w))
  ∧ (outcome (clearEachNamespace appSlug namespaces isRestore sel t gvrs w) = Ok None
     ∨ ∃ namespace, namespace ∈ namespaces
         ∧ outcome (clearEachNamespace appSlug namespaces isRestore sel t gvrs w)
           = Ok (Some (failedToClear appSlug namespace))).
Proof.
  revert w. induction namespaces as [|namespace rest IH]; intros w.
  { split; [constructor | by left]. }
  rewrite clearEachNamespace_cons. cbv zeta.
  destruct (retryLoop_within 60 appSlug namespace isRestore sel t gvrs w) as [Ht Ho].
  assert (Ht' : Forall (fun e => ∃ ns, ns ∈ namespace :: rest ∧ within gvrs ns e)
                  (trace (retryLoop 60 appSlug namespace isRestore sel t gvrs w))).
  { eapply Forall_impl; [exact Ht|]. intros e He. exists namespace. split; [by left|done]. }
  destruct Ho as [Ho | Ho]; rewrite Ho.
  - destruct (IH (final (retryLoop 60 appSlug namespace isRestore sel t gvrs w))) as [Hr Hor].
    cbn [outcome final trace fst snd]. split.
    + apply Forall_app. split; [done|]. eapply Forall_impl; [exact Hr|].
      intros e (ns & Hns & He). exists ns. split; [by right|done].
    + destruct Hor as [? | (ns & Hns & ?)]; [by left|]. right. exists ns. split; [by right|done].
  - cbn [outcome final trace fst snd]. split; [done|]. right. exists namespace.
    split; [by left|done].
Qed.

(** X10: a reconciliation only lists and deletes on endpoints that are not
    skipped, only in the namespaces to clear, sleeps 2 or 20 seconds, and
    never calls the applier. *)
Theorem reconciliation_is_confined appSlug namespaces isRestore sel t gvrs w :
  Forall (confined gvrs namespaces)
         (trace (clearNamespaces appSlug namespaces isRestore sel t gvrs w)).
Proof.
  rewrite clearNamespaces_run. cbv zeta.
  destruct (clearEachNamespace_within appSlug namespaces isRestore sel t
              (deletionGVRsOf gvrs) w) as [Ht _].
  assert (Ht' : Forall (confined gvrs namespaces)
                  (trace (clearEachNamespace appSlug namespaces isRestore sel t
                            (deletionGVRsOf gvrs) w))).
  { eapply Forall_impl; [exact Ht|]. intros e (ns & Hns & He).
    destruct e as [g n|g n name|s|]; simpl in *; [| |by left|done].
    all: destruct He as [Hg ->]; unfold deletionGVRsOf in Hg;
         apply list_elem_of_filter in Hg as [? ?]; done. }
  destruct (outcome _) as [[e|]|]; cbn [trace snd]; try done.
  destruct namespaces; [done|]. cbn [trace snd]. apply Forall_app. split; [done|].
  constructor; [by right | constructor].
Qed.

(** X11: a reconciliation does not panic, and the only error it returns is
    the exhausted budget of one of the namespaces to clear. *)
Theorem reconciliation_returns_nil_or_budget_error appSlug namespaces isRestore sel t gvrs w :
  outcome (clearNamespaces appSlug namespaces isRestore sel t gvrs w) = Ok None
  ∨ ∃ namespace, namespace ∈ namespaces
      ∧ outcome (clearNamespaces appSlug namespaces isRestore sel t gvrs w)
        = Ok (Some (failedToClear appSlug namespace)).
Proof.
  rewrite clearNamespaces_run. cbv zeta.
  destruct (clearEachNamespace_within appSlug namespaces isRestore sel t
              (deletionGVRsOf gvrs) w) as [_ [Ho | (ns & Hns & Ho)]]; rewrite Ho.
  - left. by destruct namespaces.
  - right. by exists ns.
Qed.

(** X12: when the budget of a namespace is exhausted the reconciliation stops
    there: the calls made are those of the retry loop of that namespace, so
    the namespaces after it are neither listed nor cleaned, and there is no
    grace sleep. *)
Theorem exhausted_namespace_stops_reconciliation appSlug namespace others isRestore sel t gvrs w :
  exhausted appSlug namespace isRestore sel t (deletionGVRsOf gvrs) 60 w →
  clearNamespaces appSlug (namespace :: others) isRestore sel t gvrs w
  = (Ok (Some (failedToClear appSlug namespace)),
     final (retryLoop 60 appSlug namespace isRestore sel t (deletionGVRsOf gvrs) w),
     trace (retryLoop 60 appSlug namespace isRestore sel t (deletionGVRsOf gvrs) w))
  ∧ Forall (within (deletionGVRsOf gvrs) namespace)
           (trace (clearNamespaces appSlug (namespace :: others) isRestore sel t gvrs w)).
Proof.
  intros Hex. apply retryLoop_exhausted in Hex.
  assert (Heq : clearNamespaces appSlug (namespace :: others) isRestore sel t gvrs w
    = (Ok (Some (failedToClear appSlug namespace)),
       final (retryLoop 60 appSlug namespace isRestore sel t (deletionGVRsOf gvrs) w),
       trace (retryLoop 60 appSlug namespace isRestore sel t (deletionGVRsOf gvrs) w))).
  { rewrite clearNamespaces_run. cbv zeta. rewrite clearEachNamespace_cons. cbv zeta.
    by rewrite Hex. }
  split; [done|]. rewrite Heq. cbn [trace snd]. apply retryLoop_within.
Qed.

(** ** List passes *)

Lemma itemVerdict_convertible appSlug isRestore sel :
  (∀ s, isRestore = true → sel = Some s → ∃ c, LabelSelectorAsSelector s = inl c) →
  ∀ u err, itemVerdict appSlug isRestore sel u ≠ Failed err.
Proof.
  intros Hconv u err. unfold itemVerdict, restoreGate.
  destruct isRestore; [|by repeat case_match].
  destruct (decide _); [done|]. destruct sel as [s|]; [|by repeat case_match].
  destruct (Hconv s eq_refl eq_refl) as (c & ->). by repeat case_match.
Qed.

Lemma listAll_total gvrs appSlug namespace isRestore sel st w :
  (∀ u err, itemVerdict appSlug isRestore sel u ≠ Failed err) →
  ∃ st' w', listAll gvrs appSlug namespace isRestore sel st w
            = (Ok (inl st'), w', map (fun gvr => EvList gvr namespace) gvrs).
Proof.
  intros Hnf. revert st w. induction gvrs as [|gvr rest IH]; intros st w; [by eexists _, _|].
  rewrite listAll_cons. cbv zeta.
  destruct ((dynList gvr namespace w).1.1) as [items|].
  - destruct (visitItems_no_failure appSlug isRestore sel gvr items items st Hnf) as (st1 & ->).
    destruct (IH st1 (dynList gvr namespace w).2) as (st' & w' & ->). by eexists _, _.
  - destruct (IH st (dynList gvr namespace w).2) as (st' & w' & ->). by eexists _, _.
Qed.

(** X13: unless the restore selector fails to convert, a list pass reports
    no error and lists every endpoint once, in order, whether or not an
    endpoint can be listed. *)
Theorem list_pass_lists_every_endpoint gvrs appSlug namespace isRestore sel t w :
  (∀ s, isRestore = true → sel = Some s → ∃ c, LabelSelectorAsSelector s = inl c) →
  ∃ m kinds w',
    buildDeleteKindOrderedNamespaceResources gvrs appSlug namespace isRestore sel t w
    = (Ok (inl (m, kinds)), w', map (fun gvr => EvList gvr namespace) gvrs).
Proof.
  intros Hconv. rewrite build_run. cbv zeta.
  destruct (listAll_total gvrs appSlug namespace isRestore sel ([], initResourceKindOrderMap t) w
              (itemVerdict_convertible appSlug isRestore sel Hconv)) as ([d m] & w' & ->).
  cbn [outcome final trace fst snd]. by eexists _, _, _.
Qed.

Lemma listAll_exact gvrs appSlug namespace isRestore sel st w st' w' tr :
  listAll gvrs appSlug namespace isRestore sel st w = (Ok (inl st'), w', tr) →
  ∀ k, ∃ l, bucket st'.2 k = bucket st.2 k ++ l
    ∧ ∀ r, r ∈ l ↔ ∃ gvr items u, (gvr, items) ∈ repliesOf gvrs namespace w ∧ u ∈ items
                     ∧ itemVerdict appSlug isRestore sel u = Selected
                     ∧ r = liveResource gvr items u ∧ k = GetKind u.
Proof.
  revert st w tr. induction gvrs as [|gvr rest IH]; intros st w tr Hrun k.
  - cbn in Hrun. injection Hrun as <- <- <-. exists []. rewrite app_nil_r. split; [done|].
    intros r. split; [by intros ?%elem_of_nil|]. by intros (g & items & u & ?%elem_of_nil & _).
  - rewrite listAll_cons in Hrun. cbv zeta in Hrun. cbn [repliesOf].
    destruct ((dynList gvr namespace w).1.1) as [items|] eqn:Hitems.
    + destruct (visitItems appSlug isRestore sel gvr items items st) as [st1|e] eqn:Ev; [|done].
      destruct (listAll rest appSlug namespace isRestore sel st1 _) as [[x w2] t2] eqn:El.
      cbn [fst snd] in Hrun. injection Hrun as -> -> <-.
      destruct (IH _ _ _ El k) as (l & Hl & Hiff).
      destruct (visitItems_grows _ _ _ _ _ _ _ _ Ev) as (_ & _ & _ & Hb1).
      destruct (Hb1 k) as (l1 & Hl1 & Hfrom1 & Hto1).
      exists (l1 ++ l). split; [by rewrite Hl, Hl1, <- app_assoc|].
      intros r. rewrite elem_of_app, Hiff. split.
      * intros [Hr | (g & its & u & Hin & Hrest)].
        -- destruct (Hfrom1 r Hr) as (u & Hu & ? & ? & ?). exists gvr, items, u.
           split; [by left|done].
        -- exists g, its, u. split; [by right|done].
      * intros (g & its & u & Hin & Hu & Hsel & -> & ->).
        apply elem_of_cons in Hin as [Heq | Hin].
        -- injection Heq as -> ->. left. by apply Hto1.
        -- right. by exists g, its, u.
    + destruct (listAll rest appSlug namespace isRestore sel st _) as [[x w2] t2] eqn:El.
      cbn [fst snd] in Hrun. injection Hrun as -> -> <-.
      apply (IH _ _ _ El k).
Qed.

(** X14: the delete set of a list pass holds exactly the resources built
    for the objects the pass listed and selected, each in the bucket of the
    kind of its object, and every bucket that is not empty is in the ordered
    kind sequence.  The resource of an object carries the endpoint it was
    listed on and its GVK; its pointer designates the object itself or the
    last item of the same reply, as the toolchain scopes range variables. *)
Theorem delete_set_is_what_was_listed_and_selected gvrs appSlug namespace isRestore sel t
    w m kinds w' tr :
  buildDeleteKindOrderedNamespaceResources gvrs appSlug namespace isRestore sel t w
    = (Ok (inl (m, kinds)), w', tr) →
  (∀ k r, r ∈ bucket m k ↔
     ∃ gvr items u, (gvr, items) ∈ repliesOf gvrs namespace w ∧ u ∈ items
       ∧ itemVerdict appSlug isRestore sel u = Selected
       ∧ r = liveResource gvr items u ∧ k = GetKind u)
  ∧ ∀ k, bucket m k ≠ [] → k ∈ kinds.
Proof.
  intros Hb. destruct (build_inl _ _ _ _ _ _ _ _ _ _ _ Hb) as (_ & Hkinds & _).
  split.
  - rewrite build_run in Hb. cbv zeta in Hb.
    destruct (listAll gvrs appSlug namespace isRestore sel ([], initResourceKindOrderMap t) w)
      as [[[[[d m0]|e]|] w1] t1] eqn:Hl; cbn [outcome final trace fst snd] in Hb; try done.
    injection Hb as -> _ _ _. intros k r.
    destruct (listAll_exact _ _ _ _ _ _ _ _ _ _ Hl k) as (l & Hbk & Hiff).
    cbn [snd] in Hbk. by rewrite Hbk, init_bucket.
  - intros k Hne. apply Hkinds. apply elem_of_dom. unfold bucket in Hne.
    destruct (m !! k); [done|]. by destruct Hne.
Qed.

(** ** A namespace without selected objects *)

Lemma visitItems_skipped appSlug isRestore sel gvr ranged items st :
  Forall (fun u => itemVerdict appSlug isRestore sel u = Skipped) items →
  visitItems appSlug isRestore sel gvr ranged items st = inl st.
Proof.
  induction 1 as [|u items Hu _ IH]; [done|]. by rewrite visitItems_cons, Hu.
Qed.

Lemma listAll_nothing (Inv : W → Prop) gvrs appSlug namespace isRestore sel st w :
  (∀ gvr w, Inv w → Inv (dynList gvr namespace w).2) →
  (∀ gvr w items u, Inv w → (dynList gvr namespace w).1.1 = Some items → u ∈ items →
                    itemVerdict appSlug isRestore sel u = Skipped) →
  Inv w →
  ∃ w', Inv w' ∧ listAll gvrs appSlug namespace isRestore sel st w
        = (Ok (inl st), w', map (fun gvr => EvList gvr namespace) gvrs).
Proof.
  intros Hstep Hnone. revert w. induction gvrs as [|gvr rest IH]; intros w Hw; [by eexists|].
  rewrite listAll_cons. cbv zeta.
  destruct (IH (dynList gvr namespace w).2 (Hstep _ _ Hw)) as (w' & Hw' & Heq).
  destruct ((dynList gvr namespace w).1.1) as [items|] eqn:Hitems.
  - rewrite visitItems_skipped.
    + rewrite Heq. by eexists.
    + rewrite Forall_forall. intros u Hu. by apply (Hnone gvr w items).
  - rewrite Heq. by eexists.
Qed.

Lemma retryLoop_nothing (Inv : W → Prop) i appSlug namespace isRestore sel t gvrs w :
  (∀ gvr w, Inv w → Inv (dynList gvr namespace w).2) →
  (∀ gvr w items u, Inv w → (dynList gvr namespace w).1.1 = Some items → u ∈ items →
                    itemVerdict appSlug isRestore sel u = Skipped) →
  Inv w →
  ∃ w', Inv w' ∧ retryLoop i appSlug namespace isRestore sel t gvrs w
        = (Ok Break, w', map (fun gvr => EvList gvr namespace) gvrs).
Proof.
  intros Hstep Hnone Hw. rewrite retryLoop_unfold. cbv zeta. rewrite build_run. cbv zeta.
  destruct (listAll_nothing Inv gvrs appSlug namespace isRestore sel
              ([], initResourceKindOrderMap t) w Hstep Hnone Hw) as (w' & Hw' & ->).
  cbn [outcome final trace fst snd]. destruct (decide _); [by eexists|].
  rewrite clearNamespacedResources_flat.
  assert (inOrder (initResourceKindOrderMap t) (getOrderedKinds t []) = []) as ->.
  { generalize (getOrderedKinds t []). intros ks.
    induction ks as [|k ks IH]; [done|]. unfold inOrder in *. simpl.
    by rewrite init_bucket, IH. }
  cbn. rewrite app_nil_r. by eexists.
Qed.

(** X15: when no object listed in the namespaces to clear is selected, the
    reconciliation lists every endpoint once per namespace, deletes nothing
    and returns nil after the grace sleep.  [Inv] is a condition of the
    cluster that list calls preserve. *)
Theorem nothing_selected_nothing_deleted (Inv : W → Prop) appSlug namespaces isRestore sel
    t gvrs w :
  (∀ namespace gvr w, Inv w → Inv (dynList gvr namespace w).2) →
  (∀ namespace gvr w items u, namespace ∈ namespaces → Inv w →
     (dynList gvr namespace w).1.1 = Some items → u ∈ items →
     itemVerdict appSlug isRestore sel u = Skipped) →
  Inv w →
  outcome (clearNamespaces appSlug namespaces isRestore sel t gvrs w) = Ok None
  ∧ trace (clearNamespaces appSlug namespaces isRestore sel t gvrs w)
    = (namespaces ≫= fun namespace =>
         (fun gvr => EvList gvr namespace) <$> deletionGVRsOf gvrs)
      ++ match namespaces with [] => [] | _ :: _ => [EvSleep 20] end.
Proof.
  intros Hstep Hnone Hw. rewrite clearNamespaces_run. cbv zeta.
  assert (Hall : ∃ w', clearEachNamespace appSlug namespaces isRestore sel t
                         (deletionGVRsOf gvrs) w
            = (Ok None, w', namespaces ≫= fun namespace =>
                 (fun gvr => EvList gvr namespace) <$> deletionGVRsOf gvrs)).
  { revert w Hw. induction namespaces as [|namespace rest IH]; intros w Hw; [by eexists|].
    rewrite clearEachNamespace_cons. cbv zeta.
    destruct (retryLoop_nothing Inv 60 appSlug namespace isRestore sel t
                (deletionGVRsOf gvrs) w) as (w1 & Hw1 & ->); [apply Hstep | | done |].
    { intros gvr w0 items u. apply Hnone. by left. }
    cbn [outcome final trace fst snd].
    destruct (IH (fun ns gvr w0 items u Hns => Hnone ns gvr w0 items u
                    (proj2 (elem_of_cons _ _ _) (or_intror Hns))) w1 Hw1) as (w2 & ->).
    cbn [outcome final trace fst snd]. by eexists. }
  destruct Hall as (w' & ->). cbn [outcome final trace fst snd].
  destruct namespaces; [|done]. by rewrite app_nil_r.
Qed.
End ReconcileMore.

(** ** Volume claims *)

Section ClaimsProperties.
Context {C : Type} `{!Clientset C}.

Lemma deleteClaims_cons namespace pvc rest c :
  deleteClaims namespace (pvc :: rest) c =
  let reply := claimsDelete namespace pvc 0 "Background" c in
  let run := deleteClaims namespace rest reply.2 in
  match reply.1 with
  | Some e =>
      if IsNotFound e then (run.1.1, run.1.2, deleteClaimCall namespace pvc :: run.2)
      else (Some (wrapError e ("failed to delete pvc " +:+ pvc)), reply.2,
            [deleteClaimCall namespace pvc])
  | None => (run.1.1, run.1.2, deleteClaimCall namespace pvc :: run.2)
  end.
Proof.
  cbn [deleteClaims]. destruct (claimsDelete namespace pvc 0 "Background" c) as [err c1].
  cbn [fst snd]. destruct (deleteClaims namespace rest c1) as [[r c2] calls].
  by destruct err as [e|]; [destruct (IsNotFound e)|].
Qed.

Lemma deleteClaims_gone namespace pvcs c c' :
  claimsGone namespace c pvcs c' →
  deleteClaims namespace pvcs c = (None, c', deleteClaimCall namespace <$> pvcs).
Proof.
  induction 1 as [|c c1 c2 pvc rest err Hdel Htol _ IH]; [done|].
  rewrite deleteClaims_cons. cbv zeta. rewrite Hdel. cbn [fst snd]. rewrite IH.
  destruct err as [e|]; [|done]. by rewrite (Htol e eq_refl).
Qed.

Lemma deleteClaims_error namespace pvcs c err c' calls :
  deleteClaims namespace pvcs c = (Some err, c', calls) →
  ∃ done pvc rest c0 e,
    pvcs = done ++ pvc :: rest
    ∧ calls = deleteClaimCall namespace <$> (done ++ [pvc])
    ∧ claimsDelete namespace pvc 0 "Background" c0 = (Some e, c')
    ∧ IsNotFound e = false
    ∧ err = wrapError e ("failed to delete pvc " +:+ pvc).
Proof.
  revert c calls. induction pvcs as [|pvc rest IH]; intros c calls Hrun; [discriminate|].
  rewrite deleteClaims_cons in Hrun. cbv zeta in Hrun.
  destruct (claimsDelete namespace pvc 0 "Background" c) as [reply c1] eqn:Hdel.
  cbn [fst snd] in Hrun.
  assert (Hcont : (deleteClaims namespace rest c1).1.1 = Some err →
                  (deleteClaims namespace rest c1).1.2 = c' →
                  deleteClaimCall namespace pvc :: (deleteClaims namespace rest c1).2 = calls →
                  ∃ done pvc0 rest0 c0 e,
                    pvc :: rest = done ++ pvc0 :: rest0
                    ∧ calls = deleteClaimCall namespace <$> (done ++ [pvc0])
                    ∧ claimsDelete namespace pvc0 0 "Background" c0 = (Some e, c')
                    ∧ IsNotFound e = false
                    ∧ err = wrapError e ("failed to delete pvc " +:+ pvc0)).
  { destruct (deleteClaims namespace rest c1) as [[r c2] calls2] eqn:Hrest. cbn [fst snd].
    intros -> -> <-.
    destruct (IH _ _ Hrest) as (done & pvc0 & rest0 & c0 & e & -> & -> & ? & ? & ?).
    by exists (pvc :: done), pvc0, rest0, c0, e. }
  destruct reply as [e|].
  - destruct (IsNotFound e) eqn:Hnf.
    + injection Hrun as ? ? ?. by apply Hcont.
    + injection Hrun as <- <- <-. by exists [], pvc, rest, c, e.
  - injection Hrun as ? ? ?. by apply Hcont.
Qed.

(** X16: [deletePVCs] panics exactly when it is given a selector whose
    [MatchLabels] map is nil, and it has then made no call. *)
Theorem deletePVCs_panics_on_nil_match_labels namespace appLabelSelector appslug c :
  (pvcOutcome (deletePVCs namespace appLabelSelector appslug c) = Panic
   ↔ ∃ s, appLabelSelector = Some s ∧ selMatchLabels s = None)
  ∧ (pvcOutcome (deletePVCs namespace appLabelSelector appslug c) = Panic →
     pvcCalls (deletePVCs namespace appLabelSelector appslug c) = []).
Proof.
  unfold deletePVCs. destruct appLabelSelector as [[[labels|] exprs]|]; cbn [selMatchLabels].
  2: { split; [|done]. split; [by eexists|done]. }
  all: destruct (podsList _ _ c) as [[pods|e] c1].
  all: try destruct (decide _).
  all: try destruct (deleteClaims _ _ c1) as [[r c2] calls].
  all: cbn; split; [|done]; split; try done.
  all: by intros (s & Hs & Hl); try (injection Hs as <-).
Qed.

(** X17: the pods are listed in the given namespace with the caller's
    selector extended by the app-slug label, replacing any value the
    selector had for it; the caller's own selector carries the label
    afterwards, and a nil selector stays nil. *)
Theorem deletePVCs_lists_pods_of_the_app namespace appLabelSelector appslug c :
  pvcOutcome (deletePVCs namespace appLabelSelector appslug c) ≠ Panic →
  head (pvcCalls (deletePVCs namespace appLabelSelector appslug c))
    = Some (CallListPods namespace (getLabelSelector (appSelector appLabelSelector appslug)))
  ∧ pvcSelector (deletePVCs namespace appLabelSelector appslug c)
    = (fun _ => appSelector appLabelSelector appslug) <$> appLabelSelector.
Proof.
  unfold deletePVCs, appSelector.
  destruct appLabelSelector as [[[labels|] exprs]|]; cbn [selMatchLabels selMatchExpressions].
  2: { intros Hp. by destruct Hp. }
  all: rewrite ?insert_empty.
  all: destruct (podsList _ _ c) as [[pods|e] c1].
  all: try destruct (decide _).
  all: try destruct (deleteClaims _ _ c1) as [[r c2] calls].
  all: by cbn.
Qed.

(** X18: when every delete succeeds or fails because the claim is not
    found, the claims mounted by the listed pods are deleted one by one, in
    the order of the pods and of their volumes, a claim mounted twice being
    deleted twice, with no grace period and background propagation; the
    result is nil. *)
Theorem deletePVCs_deletes_mounted_claims namespace appLabelSelector appslug c pods c1 c2 :
  (∀ s, appLabelSelector = Some s → is_Some (selMatchLabels s)) →
  podsList namespace (getLabelSelector (appSelector appLabelSelector appslug)) c = (inl pods, c1) →
  claimsGone namespace c1 (claimsOf pods) c2 →
  deletePVCs namespace appLabelSelector appslug c
  = (Ok None, (fun _ => appSelector appLabelSelector appslug) <$> appLabelSelector, c2,
     CallListPods namespace (getLabelSelector (appSelector appLabelSelector appslug))
     :: (deleteClaimCall namespace <$> claimsOf pods)).
Proof.
  intros Hsel Hlist Hgone. unfold deletePVCs. unfold appSelector in *.
  destruct appLabelSelector as [[[labels|] exprs]|]; cbn [selMatchLabels selMatchExpressions] in *.
  2: { by destruct (Hsel _ eq_refl). }
  all: rewrite ?insert_empty; cbn [default from_option id] in *; rewrite Hlist.
  all: destruct (decide _) as [Hlen|Hlen].
  all: try (apply nil_length_inv in Hlen; rewrite Hlen in *; by inversion Hgone).
  all: by rewrite (deleteClaims_gone _ _ _ _ Hgone).
Qed.

(** X19: [deletePVCs] returns an error in two cases only.  Either the list of
    pods failed, and nothing was deleted; or the delete of a mounted claim
    failed with an error other than not-found, and the claims after it were
    not attempted. *)
Theorem deletePVCs_errors namespace appLabelSelector appslug c err :
  pvcOutcome (deletePVCs namespace appLabelSelector appslug c) = Ok (Some err) →
  let list := CallListPods namespace (getLabelSelector (appSelector appLabelSelector appslug)) in
  (∃ e c1, podsList namespace (getLabelSelector (appSelector appLabelSelector appslug)) c
           = (inr e, c1)
      ∧ err = wrapError e "failed to get list of app pods"
      ∧ pvcCalls (deletePVCs namespace appLabelSelector appslug c) = [list])
  ∨ (∃ pods c1 done pvc rest c0 c2 e,
       podsList namespace (getLabelSelector (appSelector appLabelSelector appslug)) c
         = (inl pods, c1)
       ∧ claimsOf pods = done ++ pvc :: rest
       ∧ claimsDelete namespace pvc 0 "Background" c0 = (Some e, c2)
       ∧ IsNotFound e = false
       ∧ err = wrapError e ("failed to delete pvc " +:+ pvc)
       ∧ pvcCalls (deletePVCs namespace appLabelSelector appslug c)
         = list :: (deleteClaimCall namespace <$> (done ++ [pvc]))).
Proof.
  unfold deletePVCs, appSelector.
  destruct appLabelSelector as [[[labels|] exprs]|]; cbn [selMatchLabels selMatchExpressions].
  2: { discriminate. }
  all: rewrite ?insert_empty; cbn [default from_option id].
  all: destruct (podsList _ _ c) as [[pods|e] c1].
  all: try (intros Herr; injection Herr as <-; left; by exists e, c1).
  all: destruct (decide _); [discriminate|].
  all: destruct (deleteClaims _ _ c1) as [[r c2] calls] eqn:Hrun.
  all: intros Herr; injection Herr as ->; right.
  all: destruct (deleteClaims_error _ _ _ _ _ _ Hrun)
         as (done & pvc & rest & c0 & e & Hsplit & -> & Hdel & Hnf & ->).
  all: by exists pods, c1, done, pvc, rest, c0, c2, e.
Qed.

End ClaimsProperties.

(** ** Grouping *)

Section Grouping.
Variable key : Types.Resource → string.

Lemma group_lookup rs (acc : gmap string Types.Resources) k :
  foldl (groupStep key) acc rs !! k =
  match filter (fun r => key r = k) rs with
  | [] => acc !! k
  | l => Some (default [] (acc !! k) ++ l)
  end.
Proof.
  revert acc. induction rs as [|r rs IH]; intros acc; [done|].
  cbn [foldl]. rewrite IH. unfold groupStep.
  destruct (decide (key r = k)) as [Hk|Hk].
  - rewrite filter_cons_True by done. rewrite Hk, lookup_insert_eq. unfold default at 1 2.
    cbn [from_option id]. destruct (filter _ rs) as [|r' l']; [done|]. by rewrite <- app_assoc.
  - rewrite filter_cons_False by done. by rewrite lookup_insert_ne.
Qed.

Lemma group_spec rs k l :
  foldl (groupStep key) ∅ rs !! k = Some l ↔ l = filter (fun r => key r = k) rs ∧ l ≠ [].
Proof.
  rewrite group_lookup, lookup_empty. cbn [default].
  destruct (filter _ rs) as [|r l']; cbn [app].
  - split; [discriminate | by intros [-> ?]].
  - split; [by intros [= <-] | by intros [-> _]].
Qed.

Lemma group_bucket rs k :
  default [] (foldl (groupStep key) ∅ rs !! k) = filter (fun r => key r = k) rs.
Proof.
  rewrite group_lookup, lookup_empty. by destruct (filter _ rs).
Qed.
End Grouping.

(** X20: [GroupByKind] splits the resources by kind, the empty kind for a
    resource without a GVK: every group holds the resources of its kind in
    their order, and no group is empty. *)
Theorem GroupByKind_partitions (rs : Types.Resources) kind l :
  Types.GroupByKind rs !! kind = Some l ↔ l = filter (fun r => kindOf r = kind) rs ∧ l ≠ [].
Proof. apply (group_spec kindOf). Qed.

(** X21: [GroupByDeletionWeight] and [GroupByCreationWeight] split the
    resources by the value of the weight annotation, every group in the
    order of the resources and none empty. *)
Theorem GroupByWeight_partitions (rs : Types.Resources) weight l :
  (Types.GroupByDeletionWeight rs !! weight = Some l
   ↔ l = filter (fun r => weightOf "kots.io/deletion-weight" r = weight) rs ∧ l ≠ [])
  ∧ (Types.GroupByCreationWeight rs !! weight = Some l
     ↔ l = filter (fun r => weightOf "kots.io/creation-weight" r = weight) rs ∧ l ≠ []).
Proof.
  split.
  - apply (group_spec (weightOf "kots.io/deletion-weight")).
  - apply (group_spec (weightOf "kots.io/creation-weight")).
Qed.

(** X22: the default weight ["0"] is given to a resource without an object or
    without annotations only: a resource that has annotations, none of them
    the deletion weight, is grouped under the empty weight. *)
Theorem annotated_resource_without_weight_is_not_weight_0 (rs : Types.Resources) r u annotations :
  r ∈ rs →
  Types.Object r = Some u →
  Types.GetAnnotations u = Some annotations →
  annotations !! "kots.io/deletion-weight" = None →
  r ∈ default [] (Types.GroupByDeletionWeight rs !! "")
  ∧ r ∉ default [] (Types.GroupByDeletionWeight rs !! "0").
Proof.
  intros Hin Hobj Hann Hnone.
  assert (Hw : weightOf "kots.io/deletion-weight" r = "").
  { unfold weightOf, mapGet. by rewrite Hobj, Hann, Hnone. }
  pose proof (group_bucket (weightOf "kots.io/deletion-weight") rs) as Hl.
  change (foldl _ ∅ rs) with (Types.GroupByDeletionWeight rs) in Hl.
  rewrite !Hl, !list_elem_of_filter, Hw. split; [done|]. by intros [? _].
Qed.

(** ** Removing duplicates *)

Section DedupProperties.
Context {T : Type}.
Variable jsonMarshal : T → string + error.

Lemma dedupLoop_kept objs seen out :
  dedupLoop jsonMarshal objs seen out = out ++ kept jsonMarshal seen objs.
Proof.
  revert seen out. induction objs as [|o rest IH]; intros seen out; cbn.
  - by rewrite app_nil_r.
  - destruct (jsonMarshal o) as [key|e]; [destruct (seen !! key)|]; rewrite IH;
      by rewrite <- ?app_assoc.
Qed.

Lemma Dedup_kept objs : Dedup jsonMarshal objs = kept jsonMarshal ∅ objs.
Proof.
  unfold Dedup. destruct (decide _) as [Hlen|_].
  - apply nil_length_inv in Hlen. by subst.
  - by rewrite dedupLoop_kept.
Qed.

Lemma kept_sublist seen objs : kept jsonMarshal seen objs `sublist_of` objs.
Proof.
  revert seen. induction objs as [|o rest IH]; intros seen; cbn; [constructor|].
  destruct (jsonMarshal o) as [key|e]; [destruct (seen !! key)|].
  - by apply sublist_cons.
  - by apply sublist_skip.
  - by apply sublist_skip.
Qed.

Lemma kept_encodings seen objs :
  NoDup (omap (encoding jsonMarshal) (kept jsonMarshal seen objs))
  ∧ (∀ key, key ∈ omap (encoding jsonMarshal) (kept jsonMarshal seen objs) ↔
            key ∈ omap (encoding jsonMarshal) objs ∧ seen !! key = None).
Proof.
  revert seen. induction objs as [|o rest IH]; intros seen; cbn.
  { split; [constructor|]. intros key. split; [by intros ?%elem_of_nil|].
    by intros [?%elem_of_nil _]. }
  unfold encoding at 1 3 5. destruct (jsonMarshal o) as [key|e] eqn:Hm.
  - destruct (seen !! key) as [b|] eqn:Hseen.
    + destruct (IH seen) as [Hnd Hiff]. split; [done|]. intros k. rewrite Hiff.
      rewrite elem_of_cons. split; [tauto|]. intros [[-> | ?] Hk]; [congruence | done].
    + destruct (IH (<[key := true]> seen)) as [Hnd Hiff]. cbn. unfold encoding at 1 3.
      rewrite Hm. split.
      * constructor; [|done]. rewrite Hiff, lookup_insert_eq. by intros [_ ?].
      * intros k. rewrite !elem_of_cons, Hiff. destruct (decide (k = key)) as [->|Hne].
        -- tauto.
        -- rewrite lookup_insert_ne by done. tauto.
  - cbn. unfold encoding at 1 3. rewrite Hm. apply IH.
Qed.

Lemma kept_unencodable seen objs o :
  o ∈ objs → encoding jsonMarshal o = None → o ∈ kept jsonMarshal seen objs.
Proof.
  revert seen. induction objs as [|o' rest IH]; intros seen Hin Henc;
    [by apply elem_of_nil in Hin|].
  cbn. apply elem_of_cons in Hin as [<- | Hin].
  - unfold encoding in Henc. destruct (jsonMarshal o); [discriminate | by left].
  - destruct (jsonMarshal o') as [key|e]; [destruct (seen !! key)|].
    + by apply IH.
    + right. by apply IH.
    + right. by apply IH.
Qed.

Lemma kept_fixed seen objs :
  NoDup (omap (encoding jsonMarshal) objs) →
  (∀ key, key ∈ omap (encoding jsonMarshal) objs → seen !! key = None) →
  kept jsonMarshal seen objs = objs.
Proof.
  revert seen. induction objs as [|o rest IH]; intros seen Hnd Hfresh; [done|].
  cbn in *. unfold encoding in Hnd, Hfresh. destruct (jsonMarshal o) as [key|e] eqn:Hm.
  - apply NoDup_cons in Hnd as [Hnin Hnd]. rewrite (Hfresh key) by (by left).
    f_equal. apply IH; [done|]. intros k Hk. rewrite lookup_insert_ne.
    + apply Hfresh. by right.
    + intros <-. contradiction.
  - f_equal. by apply IH.
Qed.

Lemma kept_first seen l1 o l2 key :
  encoding jsonMarshal o = Some key → key ∉ omap (encoding jsonMarshal) l1 →
  seen !! key = None →
  o ∈ kept jsonMarshal seen (l1 ++ o :: l2).
Proof.
  intros Henc. revert seen. induction l1 as [|o' l1 IH]; intros seen Hnin Hseen; cbn.
  - unfold encoding in Henc. destruct (jsonMarshal o); [|discriminate].
    injection Henc as ->. rewrite Hseen. by left.
  - cbn in Hnin. unfold encoding in Hnin. destruct (jsonMarshal o') as [key'|e].
    + apply not_elem_of_cons in Hnin as [Hne Hnin]. destruct (seen !! key').
      * by apply IH.
      * right. apply IH; [done|]. by rewrite lookup_insert_ne.
    + right. by apply IH.
Qed.

(** X23: [Dedup] keeps the first object of every encoding and every object
    that cannot be encoded, in their order: the result is a subsequence of
    the input, its encodings are distinct and are those of the input, the
    first object with a given encoding is in it, and so is every object
    without an encoding. *)
Theorem Dedup_keeps_one_object_per_encoding objs :
  Dedup jsonMarshal objs `sublist_of` objs
  ∧ NoDup (omap (encoding jsonMarshal) (Dedup jsonMarshal objs))
  ∧ (∀ key, key ∈ omap (encoding jsonMarshal) (Dedup jsonMarshal objs)
            ↔ key ∈ omap (encoding jsonMarshal) objs)
  ∧ (∀ l1 o l2 key, objs = l1 ++ o :: l2 → encoding jsonMarshal o = Some key →
       key ∉ omap (encoding jsonMarshal) l1 → o ∈ Dedup jsonMarshal objs)
  ∧ (∀ o, o ∈ objs → encoding jsonMarshal o = None → o ∈ Dedup jsonMarshal objs).
Proof.
  rewrite Dedup_kept. destruct (kept_encodings ∅ objs) as [Hnd Hiff].
  split; [apply kept_sublist|]. split; [done|]. split; [|split].
  - intros key. rewrite Hiff, lookup_empty. tauto.
  - intros l1 o l2 key -> Henc Hnin. by apply (kept_first _ _ _ _ key).
  - intros o. apply kept_unencodable.
Qed.

(** X24: removing duplicates a second time changes nothing. *)
Theorem Dedup_idempotent objs :
  Dedup jsonMarshal (Dedup jsonMarshal objs) = Dedup jsonMarshal objs.
Proof.
  rewrite !Dedup_kept. destruct (kept_encodings ∅ objs) as [Hnd _].
  by apply kept_fixed.
Qed.

End DedupProperties.

(** ** Retrying until a pass settles *)

Section ProgressProperties.
Context {W : Type} `{!Cluster W} `{!SelectorLib} {go : Toolchain}.

Lemma retryLoop_settles i appSlug namespace isRestore sel t gvrs w :
  settles appSlug namespace isRestore sel t gvrs w →
  outcome (retryLoop i appSlug namespace isRestore sel t gvrs w) = Ok Break
  ∧ countSleeps 2 (trace (retryLoop i appSlug namespace isRestore sel t gvrs w)) = 0%nat.
Proof.
  unfold settles. intros Hs. rewrite retryLoop_unfold. cbv zeta.
  pose proof (build_counts gvrs appSlug namespace isRestore sel t w 2) as [_ Hc1].
  destruct (buildDeleteKindOrderedNamespaceResources gvrs appSlug namespace isRestore sel t w)
    as [[[[[m kinds]|e]|] w1] t1]; cbn [outcome final trace fst snd] in *; try done.
  destruct (decide (size m = 0)) as [|Hne]; [done|].
  destruct Hs as [? | Hs]; [done|].
  pose proof (clear_counts namespace m kinds w1 2) as [_ Hc2].
  destruct (clearNamespacedResources namespace m kinds w1) as [[r w2] t2].
  cbn [outcome final trace fst snd] in *. subst r. cbn [outcome final trace fst snd].
  split; [done|]. unfold countSleeps in *. rewrite count_app. lia.
Qed.

Lemma retryLoop_retries i k appSlug namespace isRestore sel t gvrs w w' :
  failsFor appSlug namespace isRestore sel t gvrs k w w' →
  settles appSlug namespace isRestore sel t gvrs w' →
  (k ≤ i)%nat →
  outcome (retryLoop i appSlug namespace isRestore sel t gvrs w) = Ok Break
  ∧ countSleeps 2 (trace (retryLoop i appSlug namespace isRestore sel t gvrs w)) = k.
Proof.
  intros Hf Hs. revert i.
  induction Hf as [w | k w m kinds w1 t1 e w2 t2 w' Hb Hne Hc _ IH]; intros i Hk.
  - by apply retryLoop_settles.
  - destruct i as [|i]; [lia|]. rewrite retryLoop_unfold. cbv zeta.
    pose proof (build_counts gvrs appSlug namespace isRestore sel t w 2) as [_ Hc1].
    pose proof (clear_counts namespace m kinds w1 2) as [_ Hc2].
    rewrite Hb in *. cbn [outcome final trace fst snd] in *.
    rewrite decide_False by done. rewrite Hc in *. cbn [outcome final trace fst snd] in *.
    destruct (IH Hs i) as [Ho Hn]; [lia|]. split; [done|].
    unfold countSleeps in *. rewrite !count_app. cbn [List.filter isSleep].
    rewrite Z.eqb_refl. cbn [List.length]. lia.
Qed.

(** X25: a namespace whose delete pass fails [k] times in a row, [k] at most
    60, before an attempt ends the loop is cleared without error: the
    reconciliation sleeps 2 seconds once per failed pass, then 20 seconds,
    and returns nil. *)
Theorem reconciliation_retries_until_a_pass_settles k appSlug namespace isRestore sel t gvrs
    w w' :
  failsFor appSlug namespace isRestore sel t (deletionGVRsOf gvrs) k w w' →
  settles appSlug namespace isRestore sel t (deletionGVRsOf gvrs) w' →
  (k ≤ 60)%nat →
  outcome (clearNamespaces appSlug [namespace] isRestore sel t gvrs w) = Ok None
  ∧ countSleeps 2 (trace (clearNamespaces appSlug [namespace] isRestore sel t gvrs w)) = k
  ∧ countSleeps 20 (trace (clearNamespaces appSlug [namespace] isRestore sel t gvrs w)) = 1%nat.
Proof.
  intros Hf Hs Hk.
  destruct (retryLoop_retries 60 k _ _ _ _ _ _ _ _ Hf Hs Hk) as [Ho Hn].
  pose proof (retryLoop_budget 60 appSlug namespace isRestore sel t (deletionGVRsOf gvrs) w)
    as (_ & _ & Hg).
  rewrite clearNamespaces_run. cbv zeta. rewrite clearEachNamespace_cons. cbv zeta.
  rewrite Ho. cbn [clearEachNamespace ret outcome final trace fst snd].
  rewrite app_nil_r. split; [done|]. unfold countSleeps in *. rewrite !count_app.
  cbn [List.filter isSleep]. change (20 =? 2)%Z with false. change (20 =? 20)%Z with true.
  cbn [List.length]. split; lia.
Qed.
End ProgressProperties.

(** ** A manifest without a GVK *)

Section AllOrNothing.
Context {W : Type} `{!Cluster W} `{!DecoderLib}.

(** X26: a batch in which one manifest decodes without a GVK, as every
    manifest does that fails to decode, or makes the decoder panic, is not
    deleted at all: the run panics before the applier is called, also for
    the manifests that did decode. *)
Theorem manifest_without_gvk_aborts_the_batch manifests manifest targetNS t waitFlag (w : W) :
  manifest ∈ manifests →
  withoutGVK manifest →
  deleteManifestResources manifests targetNS t waitFlag w = (Panic, w, []).
Proof. apply deleteManifestResources_without_gvk. Qed.
End AllOrNothing.

(** ** The further properties on the examples *)

Lemma index_eta (x : result (gmap string bool)) : isOk x = true → x = Ok (indexOf x).
Proof. destruct x; [done|discriminate]. Qed.

Lemma defaultKindDeleteOrder_kinds :
  NoDup (tableKinds defaultKindDeleteOrder) ∧ "CustomResource" ∈ tableKinds defaultKindDeleteOrder.
Proof.
  split; [|by left]. apply (bool_decide_unpack _). vm_compute. reflexivity.
Qed.

Lemma scheduled_batch_is_visited_once_witness :
  inOrder (bucketsOf (buildDeleteKindOrderedResources defaultKindDeleteOrder
             [Fixtures.widget; Fixtures.otherWidget; Fixtures.claim] "demo"
             Fixtures.widgetIndex true))
          (kindsOf (buildDeleteKindOrderedResources defaultKindDeleteOrder
             [Fixtures.widget; Fixtures.otherWidget; Fixtures.claim] "demo"
             Fixtures.widgetIndex true))
  ≡ₚ preparedOf "demo" true <$> [Fixtures.widget; Fixtures.otherWidget; Fixtures.claim].
Proof.
  apply (scheduled_batch_is_visited_once defaultKindDeleteOrder _ "demo"
           Fixtures.widgetIndex true).
  - apply defaultKindDeleteOrder_kinds.
  - apply defaultKindDeleteOrder_kinds.
  - apply built_eta. vm_compute. reflexivity.
Defined.

Lemma bucket_keeps_batch_order_witness :
  bucket (bucketsOf (buildDeleteKindOrderedResources defaultKindDeleteOrder
            [Fixtures.otherWidget; Fixtures.claim; Fixtures.widget] "demo" ∅ true)) "Widget"
  `sublist_of` (preparedOf "demo" true
                  <$> [Fixtures.otherWidget; Fixtures.claim; Fixtures.widget]).
Proof.
  apply (bucket_keeps_batch_order defaultKindDeleteOrder _ "demo" ∅ true _
           (kindsOf (buildDeleteKindOrderedResources defaultKindDeleteOrder
              [Fixtures.otherWidget; Fixtures.claim; Fixtures.widget] "demo" ∅ true))).
  apply built_eta. vm_compute. reflexivity.
Defined.

Lemma pre_order_first_post_order_last_witness :
  ∃ l1 l2 l3,
    inOrder (bucketsOf (buildDeleteKindOrderedResources defaultKindDeleteOrder
               [Fixtures.claim; Fixtures.widget] "demo" Fixtures.widgetIndex true))
            (kindsOf (buildDeleteKindOrderedResources defaultKindDeleteOrder
               [Fixtures.claim; Fixtures.widget] "demo" Fixtures.widgetIndex true))
    = l1 ++ preparedOf "demo" true Fixtures.widget
         :: l2 ++ preparedOf "demo" true Fixtures.claim :: l3.
Proof.
  apply (pre_order_first_post_order_last defaultKindDeleteOrder
           [Fixtures.claim; Fixtures.widget] "demo" Fixtures.widgetIndex true _ _
           "CustomResource" "PersistentVolumeClaim").
  - apply built_eta. vm_compute. reflexivity.
  - apply list_elem_of_In. vm_compute. by left.
  - apply list_elem_of_In. vm_compute. tauto.
  - apply list_elem_of_In. vm_compute. by left.
  - apply list_elem_of_In. vm_compute. by left.
  - left. split; [by left|]. rewrite list_elem_of_In. vm_compute. intuition discriminate.
Defined.

Lemma crd_instance_unreachable_without_table_entry_witness :
  prepared "demo" true Fixtures.widget (Fixtures.object "example.com" "v1" "Widget" "w1" ∅ ∅)
  ∈ bucket (bucketsOf (buildDeleteKindOrderedResources Fixtures.smallTable
              [Fixtures.claim; Fixtures.widget] "demo" Fixtures.widgetIndex true))
           "CustomResource"
  ∧ ("CustomResource" ∉ kindsOf (buildDeleteKindOrderedResources Fixtures.smallTable
                                  [Fixtures.claim; Fixtures.widget] "demo"
                                  Fixtures.widgetIndex true)).
Proof.
  apply (crd_instance_unreachable_without_table_entry Fixtures.smallTable
           [Fixtures.claim; Fixtures.widget] "demo" Fixtures.widgetIndex true _ _
           Fixtures.widget (Fixtures.object "example.com" "v1" "Widget" "w1" ∅ ∅)
           {| Group := "example.com"; Version := "v1"; Kind := "Widget" |}).
  - apply built_eta. vm_compute. reflexivity.
  - rewrite list_elem_of_In. vm_compute. intuition discriminate.
  - rewrite list_elem_of_In. vm_compute. intuition discriminate.
  - by right; left.
  - reflexivity.
  - reflexivity.
  - by eexists.
  - rewrite list_elem_of_In. vm_compute. intuition discriminate.
  - rewrite list_elem_of_In. vm_compute. intuition discriminate.
Defined.

Lemma every_manifest_is_removed_once_witness :
  outcome (deleteManifestResources ["pod.yaml"; "pvc.yaml"] "target" defaultKindDeleteOrder true
             Fixtures.threeOwned) = Ok tt
  ∧ trace (deleteManifestResources ["pod.yaml"; "pvc.yaml"] "target" defaultKindDeleteOrder true
             Fixtures.threeOwned)
    ≡ₚ expectedRemoval "target" true <$> ["pod.yaml"; "pvc.yaml"].
Proof.
  apply every_manifest_is_removed_once.
  - apply defaultKindDeleteOrder_kinds.
  - apply defaultKindDeleteOrder_kinds.
  - repeat constructor; eexists _, _; vm_compute; reflexivity.
Defined.

Lemma crd_index_holds_declared_keys_witness :
  (is_Some (indexOf (buildCrdGVKMap [Samples.widgetDefinition; Samples.brokenDefinition;
                                     Fixtures.widget]) !! "example.com/Widget/v1beta1")
   ↔ declaredBy [Samples.widgetDefinition; Samples.brokenDefinition; Fixtures.widget]
                "example.com/Widget/v1beta1")
  ∧ (∀ b, indexOf (buildCrdGVKMap [Samples.widgetDefinition; Samples.brokenDefinition;
                                   Fixtures.widget]) !! "example.com/Widget/v1beta1" = Some b →
          b = true).
Proof.
  apply crd_index_holds_declared_keys. apply index_eta. vm_compute. reflexivity.
Defined.

Lemma buildGVKKey_injective_witness :
  "example.com" = "example.com" ∧ "Widget" = "Widget" ∧ "v1" = "v1".
Proof.
  apply (buildGVKKey_injective "example.com" "Widget" "v1" "example.com" "Widget" "v1");
    reflexivity.
Defined.

Lemma exhausted_namespace_stops_reconciliation_witness :
  underBothScopings (fun go =>
    clearNamespaces "my-app" ["demo"; "staging"] false None defaultKindDeleteOrder
      Fixtures.gvrsOfCluster Fixtures.stuck
    = (Ok (Some (failedToClear "my-app" "demo")),
       final (retryLoop 60 "my-app" "demo" false None defaultKindDeleteOrder
                (deletionGVRsOf Fixtures.gvrsOfCluster) Fixtures.stuck),
       trace (retryLoop 60 "my-app" "demo" false None defaultKindDeleteOrder
                (deletionGVRsOf Fixtures.gvrsOfCluster) Fixtures.stuck))
    ∧ Forall (within (deletionGVRsOf Fixtures.gvrsOfCluster) "demo")
             (trace (clearNamespaces "my-app" ["demo"; "staging"] false None
                       defaultKindDeleteOrder Fixtures.gvrsOfCluster Fixtures.stuck))).
Proof.
  split; cbv beta.
  all: apply exhausted_namespace_stops_reconciliation; apply stuck_budget_exhausted.
Defined.

Lemma list_pass_lists_every_endpoint_witness :
  underBothScopings (fun go =>
    ∃ m kinds w',
      buildDeleteKindOrderedNamespaceResources [Fixtures.podsGVR; Fixtures.configMapsGVR]
        "my-app" "demo" true (Some (Fixtures.MatchLabels ∅)) defaultKindDeleteOrder
        Fixtures.threeOwned
      = (Ok (inl (m, kinds)), w',
         map (fun gvr => EvList gvr "demo") [Fixtures.podsGVR; Fixtures.configMapsGVR])).
Proof.
  split; cbv beta.
  all: apply list_pass_lists_every_endpoint; intros s _ [= <-]; eexists; reflexivity.
Defined.

Lemma delete_set_is_what_was_listed_and_selected_witness :
  underBothScopings (fun go =>
    (∀ k r, r ∈ bucket (passBuckets (Scenarios.mixedPass go)) k ↔
       ∃ gvr items u,
         (gvr, items) ∈ repliesOf (deletionGVRsOf Fixtures.gvrsOfCluster) "demo" Fixtures.mixed
         ∧ u ∈ items ∧ itemVerdict "my-app" false None u = Selected
         ∧ r = liveResource gvr items u ∧ k = GetKind u)
    ∧ ∀ k, bucket (passBuckets (Scenarios.mixedPass go)) k ≠ [] →
           k ∈ passKinds (Scenarios.mixedPass go)).
Proof.
  split; cbv beta.
  all: match goal with |- context [Scenarios.mixedPass ?go] =>
         apply (delete_set_is_what_was_listed_and_selected (go := go)
                  (deletionGVRsOf Fixtures.gvrsOfCluster) "my-app" "demo" false None
                  defaultKindDeleteOrder Fixtures.mixed _ _
                  (final (Scenarios.mixedPass go)) (trace (Scenarios.mixedPass go)));
         apply (pass_eta (Scenarios.mixedPass go)); vm_compute; reflexivity
       end.
Defined.

Lemma mixed_has_nothing_of_absent_app gvr items u :
  (dynList gvr "demo" Fixtures.mixed).1.1 = Some items → u ∈ items →
  itemVerdict "absent-app" false None u = Skipped.
Proof.
  cbn -[Fixtures.listed]. destruct (decide _); [discriminate|]. intros [= <-] Hu.
  unfold Fixtures.listed in Hu. apply list_elem_of_fmap in Hu as ([g o] & -> & Ho).
  apply list_elem_of_filter in Ho as [_ Ho]. cbn in Ho.
  repeat (apply elem_of_cons in Ho as [[= -> ->] | Ho]; [vm_compute; reflexivity|]).
  by apply elem_of_nil in Ho.
Qed.

Lemma nothing_selected_nothing_deleted_witness :
  underBothScopings (fun go =>
    outcome (clearNamespaces "absent-app" ["demo"] false None defaultKindDeleteOrder
               Fixtures.gvrsOfCluster Fixtures.mixed) = Ok None
    ∧ trace (clearNamespaces "absent-app" ["demo"] false None defaultKindDeleteOrder
               Fixtures.gvrsOfCluster Fixtures.mixed)
      = (["demo"] ≫= fun namespace =>
           (fun gvr => EvList gvr namespace) <$> deletionGVRsOf Fixtures.gvrsOfCluster)
        ++ [EvSleep 20]).
Proof.
  split; cbv beta.
  all: apply (nothing_selected_nothing_deleted (fun w => w = Fixtures.mixed));
       [ intros namespace gvr w ->; cbn; by destruct (decide _)
       | intros namespace gvr w items u [-> | Hns]%elem_of_cons;
           [|by apply elem_of_nil in Hns];
         intros ->; apply mixed_has_nothing_of_absent_app
       | reflexivity ].
Defined.

Lemma deletePVCs_lists_pods_of_the_app_witness :
  head (pvcCalls (deletePVCs "demo" None "my-app" Samples.healthyClient))
    = Some (CallListPods "demo" (getLabelSelector (appSelector None "my-app")))
  ∧ pvcSelector (deletePVCs "demo" None "my-app" Samples.healthyClient)
    = None.
Proof.
  apply (deletePVCs_lists_pods_of_the_app "demo" None "my-app" Samples.healthyClient).
  vm_compute. discriminate.
Defined.

Lemma deletePVCs_deletes_mounted_claims_witness :
  deletePVCs "demo" None "my-app" Samples.healthyClient
  = (Ok None, None,
     {| Samples.clientPods := Samples.appPods; Samples.clientClaims := ["pgdata"];
        Samples.protectedClaims := []; Samples.podsUnavailable := false |},
     CallListPods "demo" (getLabelSelector (appSelector None "my-app"))
     :: (deleteClaimCall "demo" <$> ["data"; "data"; "cache"])).
Proof.
  apply (deletePVCs_deletes_mounted_claims "demo" None "my-app" Samples.healthyClient
           [ {| podName := "web";
                podVolumes := [Samples.configVolume "settings";
                               Samples.claimVolume "data" "data"] |};
             {| podName := "worker";
                podVolumes := [Samples.claimVolume "data" "data";
                               Samples.claimVolume "cache" "cache"] |} ]
           Samples.healthyClient).
  - discriminate.
  - vm_compute. reflexivity.
  - repeat (eapply gone_cons; [vm_compute; reflexivity | by intros e [= <-] | ]).
    apply gone_nil.
Defined.

Lemma deletePVCs_errors_witness :
  let list := CallListPods "demo" (getLabelSelector (appSelector None "my-app")) in
  (∃ e c1, podsList "demo" (getLabelSelector (appSelector None "my-app")) Samples.guardedClient
           = (inr e, c1)
      ∧ wrapError "forbidden" "failed to delete pvc cache"
        = wrapError e "failed to get list of app pods"
      ∧ pvcCalls (deletePVCs "demo" None "my-app" Samples.guardedClient) = [list])
  ∨ (∃ pods c1 done pvc rest c0 c2 e,
       podsList "demo" (getLabelSelector (appSelector None "my-app")) Samples.guardedClient
         = (inl pods, c1)
       ∧ claimsOf pods = done ++ pvc :: rest
       ∧ claimsDelete "demo" pvc 0 "Background" c0 = (Some e, c2)
       ∧ IsNotFound e = false
       ∧ wrapError "forbidden" "failed to delete pvc cache"
         = wrapError e ("failed to delete pvc " +:+ pvc)
       ∧ pvcCalls (deletePVCs "demo" None "my-app" Samples.guardedClient)
         = list :: (deleteClaimCall "demo" <$> (done ++ [pvc]))).
Proof.
  apply (deletePVCs_errors "demo" None "my-app" Samples.guardedClient).
  vm_compute. reflexivity.
Defined.

Lemma annotated_resource_without_weight_is_not_weight_0_witness :
  Samples.weighted "job.yaml" (Some {[ "helm.sh/hook" := "pre-delete" ]})
  ∈ default [] (Types.GroupByDeletionWeight
                  [Samples.weighted "svc.yaml" None;
                   Samples.weighted "job.yaml" (Some {[ "helm.sh/hook" := "pre-delete" ]})]
                !! "")
  ∧ Samples.weighted "job.yaml" (Some {[ "helm.sh/hook" := "pre-delete" ]})
    ∉ default [] (Types.GroupByDeletionWeight
                    [Samples.weighted "svc.yaml" None;
                     Samples.weighted "job.yaml" (Some {[ "helm.sh/hook" := "pre-delete" ]})]
                  !! "0").
Proof.
  apply (annotated_resource_without_weight_is_not_weight_0 _ _
           {| Types.GetAnnotations := Some {[ "helm.sh/hook" := "pre-delete" ]} |}
           {[ "helm.sh/hook" := "pre-delete" ]}).
  - by right; left.
  - reflexivity.
  - reflexivity.
  - vm_compute. reflexivity.
Defined.

Lemma reconciliation_retries_until_a_pass_settles_witness :
  underBothScopings (fun go =>
    outcome (clearNamespaces "my-app" ["demo"] false None defaultKindDeleteOrder
               Fixtures.gvrsOfCluster Samples.listedTwice) = Ok None
    ∧ countSleeps 2 (trace (clearNamespaces "my-app" ["demo"] false None defaultKindDeleteOrder
                              Fixtures.gvrsOfCluster Samples.listedTwice)) = 1%nat
    ∧ countSleeps 20 (trace (clearNamespaces "my-app" ["demo"] false None
                               defaultKindDeleteOrder Fixtures.gvrsOfCluster
                               Samples.listedTwice)) = 1%nat).
Proof.
  split; cbv beta.
  all: match goal with |- context [clearNamespaces (go := ?go)] =>
         pose (pass := buildDeleteKindOrderedNamespaceResources (go := go)
                         (deletionGVRsOf Fixtures.gvrsOfCluster) "my-app" "demo" false None
                         defaultKindDeleteOrder Samples.listedTwice);
         pose (deletes := clearNamespacedResources "demo" (passBuckets pass) (passKinds pass)
                            (final pass));
         apply (reconciliation_retries_until_a_pass_settles (go := go) 1 "my-app" "demo"
                  false None defaultKindDeleteOrder Fixtures.gvrsOfCluster Samples.listedTwice
                  (timeSleep 2 (final deletes)));
         [ eapply (failsFor_S _ _ _ _ _ _ 0 Samples.listedTwice (passBuckets pass)
                     (passKinds pass) (final pass) (trace pass) "not found" (final deletes)
                     (trace deletes));
           [ apply (pass_eta pass); vm_compute; reflexivity
           | vm_compute; discriminate
           | apply (run_eta deletes); vm_compute; reflexivity
           | apply failsFor_0 ]
         | vm_compute; by right
         | lia ]
       end.
Defined.

Lemma manifest_without_gvk_aborts_the_batch_witness :
  deleteManifestResources ["pod.yaml"; "{not yaml"] "demo" defaultKindDeleteOrder true
    Fixtures.threeOwned
  = (Panic, Fixtures.threeOwned, []).
Proof.
  apply (manifest_without_gvk_aborts_the_batch _ "{not yaml").
  - by right; left.
  - right. by eexists _, _.
Defined.
